(** * Distance-vector routing node (dvnode.py)

    A shallow embedding of class [Node] of [src/dvnode.py] and the
    properties of its three entry points: construction, [update]
    (receipt of a neighbour's vector) and [link_cost_change_handler],
    which both end in the relaxation [update_helper].

    Python lists are objects: the rows of [dist_table] are references,
    [update_helper] writes the node's own row in place, and the packets
    handed to the simulator carry the reference they were built from.
    The embedding therefore keeps a store of list objects, and threads
    it, together with the node's fields and the packets sent, through a
    state monad in which an out-of-range subscript raises.

    What a packet does with the list it is built from is dvsim's
    business. The methods are given with a packet as the record of its
    arguments, and once more against a constructor, which the spec's
    Advertisement, a message with a snapshot of its own, fills in. *)

From Stdlib Require Import ZArith List Lia Bool.
From stdpp Require Import base option list numbers.

Open Scope Z_scope.
Open Scope nat_scope.

(** ** Costs

    A cost is a Python [int] or the float [inf] of [math]. *)

Inductive number : Type :=
  | Int (z : Z)
  | inf.

#[global] Instance number_eq_dec : EqDecision number.
Proof. solve_decision. Defined.

(** [a + b]: anything added to [inf] is [inf]. Python turns the
    integer into a float for that, and raises OverflowError for one of
    a magnitude of [2 ^ 1024] or more: costs are taken to be below
    it. *)
Definition add (a b : number) : number :=
  match a, b with
  | Int x, Int y => Int (x + y)
  | _, _ => inf
  end.

(** [a < b] *)
Definition ltb (a b : number) : bool :=
  match a, b with
  | Int x, Int y => (x <? y)%Z
  | Int _, inf => true
  | inf, _ => false
  end.

Definition le (a b : number) : Prop := ltb b a = false.

(** ** Objects and state *)

(** A reference to a Python list of costs. *)
Abbreviation loc := nat (only parsing).

(** Modelled from the spec: class [Packet] of dvsim, which is not
    among the sources. An advertisement is "(source node id,
    destination node id, distance vector)", built by
    [Packet(src, dst, dist_vector)] and read back by [get_src] and
    [get_dist_vector]. The vector is the list object the constructor
    is handed: that it is a snapshot is a property of the code that
    builds the packet, and is not assumed here. *)
Module Packet.
Record t : Type := make {
  get_src : Z;
  get_dst : Z;
  get_dist_vector : loc
}.
End Packet.

#[global] Instance Packet_eq_dec : EqDecision Packet.t.
Proof. solve_decision. Defined.

Record State : Type := mkState {
  heap : list (list number);          (* the list objects, by reference *)
  dist_table : list loc;              (* self.dist_table *)
  predecessors : list (option nat);   (* self.predecessors *)
  link_layer : list Packet.t           (* arguments of simulator.to_link_layer, in order *)
}.

(** ** Python subscripts

    [l[i]] for an [int] [i]: a negative [i] counts from the end, and
    anything outside [-len, len) raises IndexError. *)
Definition py_index (len : nat) (i : Z) : option nat :=
  if decide (0 <= i < Z.of_nat len)%Z then Some (Z.to_nat i)
  else if decide (- Z.of_nat len <= i < 0)%Z then Some (Z.to_nat (Z.of_nat len + i))
  else None.

(** ** The monad: state, and IndexError

    A raised exception keeps the state reached so far. *)
Inductive result (A : Type) : Type :=
  | Ok (a : A) (s : State)
  | IndexError (s : State).
Arguments Ok {A} a s.
Arguments IndexError {A} s.

Definition M (A : Type) : Type := State -> result A.

Definition ret {A} (a : A) : M A := fun s => Ok a s.

Definition bind {A B} (m : M A) (f : A -> M B) : M B :=
  fun s => match m s with
           | Ok a s' => f a s'
           | IndexError s' => IndexError s'
           end.

Definition state_of {A} (r : result A) : State :=
  match r with Ok _ s => s | IndexError s => s end.

Definition lift {A} (o : State -> option A) : M A :=
  fun s => match o s with Some a => Ok a s | None => IndexError s end.

Declare Scope py_scope.
Delimit Scope py_scope with py.
Notation "'let!' x ':=' m 'in' k" := (bind m (fun x => k))
  (at level 10, x name, m at level 100, k at level 200, only parsing) : py_scope.
Notation "m ';;' k" := (bind m (fun _ => k))
  (at level 100, k at level 200, right associativity, only parsing) : py_scope.
Open Scope py_scope.

(** [for i in l: body(i)] *)
Fixpoint for_each (l : list nat) (body : nat -> M unit) : M unit :=
  match l with
  | [] => ret tt
  | i :: l' => body i ;; for_each l' body
  end.

(** [for i in range(n): body(i)] *)
Definition for_range (n : nat) (body : nat -> M unit) : M unit :=
  for_each (seq 0 n) body.

(** *** Operations on list objects *)

(** [row[i]] *)
Definition list_get (l : loc) (i : nat) : M number :=
  lift (fun s => heap s !! l ≫= (.!! i)).

(** the whole content of the object, as a value *)
Definition list_read (l : loc) : M (list number) :=
  lift (fun s => heap s !! l).

(** [row[i] = x] *)
Definition list_set (l : loc) (i : nat) (x : number) : M unit :=
  fun s => match heap s !! l with
           | Some row =>
               if decide (i < length row)
               then Ok tt (mkState (<[l := <[i := x]> row]> (heap s))
                                   (dist_table s) (predecessors s) (link_layer s))
               else IndexError s
           | None => IndexError s
           end.

(** a new list object holding [v] *)
Definition new_list (v : list number) : M loc :=
  fun s => Ok (length (heap s))
              (mkState (heap s ++ [v]) (dist_table s) (predecessors s) (link_layer s)).

(** [row.copy()] *)
Definition list_copy (l : loc) : M loc :=
  let! v := list_read l in new_list v.

(** *** The node's fields *)

(** [self.dist_table[i]] *)
Definition dist_table_get (i : nat) : M loc :=
  lift (fun s => dist_table s !! i).

(** [self.dist_table[i] = l] *)
Definition dist_table_set (i : nat) (l : loc) : M unit :=
  fun s => if decide (i < length (dist_table s))
           then Ok tt (mkState (heap s) (<[i := l]> (dist_table s))
                               (predecessors s) (link_layer s))
           else IndexError s.

(** [self.predecessors[i] = v] *)
Definition predecessors_set (i : nat) (v : option nat) : M unit :=
  fun s => if decide (i < length (predecessors s))
           then Ok tt (mkState (heap s) (dist_table s)
                               (<[i := v]> (predecessors s)) (link_layer s))
           else IndexError s.

(** Modelled from the spec: [simulator.to_link_layer(pkt)] of dvsim,
    which is not among the sources: "a send primitive the node calls
    to hand an outgoing message to the environment". The packets handed
    over are recorded in the order of the calls. *)
Definition to_link_layer (pkt : Packet.t) : M unit :=
  fun s => Ok tt (mkState (heap s) (dist_table s) (predecessors s)
                          (link_layer s ++ [pkt])).

(** *** Building a packet

    [Packet(src, dst, vector)], of dvsim, as the methods of the node
    are first given below: the record of the three arguments. *)
Definition reference (src dst : Z) (vector : loc) : M Packet.t :=
  ret (Packet.make src dst vector).

(** Modelled from the spec: the Advertisement, "an immutable message:
    (source node id, destination node id, distance vector) where the
    vector is a full snapshot (length N) of the source's current
    own-row at send time. Ownership: once sent, the sending node
    retains no further claim on it". Building the message takes the
    snapshot: its vector is a list object of its own, a copy of the
    list as it is then. *)
Definition advertisement (src dst : Z) (vector : loc) : M Packet.t :=
  let! c := list_copy vector in
  ret (Packet.make src dst c).

(** ** Two small networks

    Two nodes joined by a link of cost 1, and the three nodes of the
    scenario with links 0-1 and 1-2 of cost 1 and 0-2 of cost 5. *)
Definition cost2 : list (list number) :=
  [[Int 0; Int 1]; [Int 1; Int 0]].

Definition cost3 : list (list number) :=
  [[Int 0; Int 1; Int 5]; [Int 1; Int 0; Int 1]; [Int 5; Int 1; Int 0]].

(** The three nodes after the cost of link 0-1 has gone from 1 to 10. *)
Definition cost3_later : list (list number) :=
  [[Int 0; Int 10; Int 5]; [Int 10; Int 0; Int 1]; [Int 5; Int 1; Int 0]].

(** Four nodes in a ring, 0-1 and 2-3 of cost 1, 0-2 and 1-3 of cost
    2: node 3 is at distance 3 from node 0 both ways round. *)
Definition cost4 : list (list number) :=
  [[Int 0; Int 1; Int 2; inf]; [Int 1; Int 0; inf; Int 2];
   [Int 2; inf; Int 0; Int 1]; [inf; Int 2; Int 1; Int 0]].

(** Nothing allocated, no node, nothing sent. *)
Definition start : State := mkState [] [] [] [].

(** ** class Node *)

Section Node.

(** [NUM_NODES] of dvsim (not among the sources, so a parameter),
    the node's [nodeid], and [simulator.cost] as it is when the method
    runs (the simulator owns it and changes it between calls). *)
Variable NUM_NODES : nat.
Variable nodeid : nat.
Variable cost : list (list number).

(** [self.simulator.cost[self.nodeid][other]] *)
Definition get_link_cost (other : nat) : M number :=
  lift (fun _ => cost !! nodeid ≫= (.!! other)).

(** [self.dist_table[self.nodeid]] *)
Definition get_dist_vector : M loc := dist_table_get nodeid.

(** [self.predecessors[other]] *)
Definition get_predecessor (other : nat) : M (option nat) :=
  lift (fun s => predecessors s !! other).

(** [[[inf for _ in range(NUM_NODES)] for _ in range(NUM_NODES)]] *)
Fixpoint new_rows (n : nat) : M (list loc) :=
  match n with
  | O => ret []
  | S n' => let! l := new_list (replicate NUM_NODES inf) in
            let! ls := new_rows n' in
            ret (l :: ls)
  end.

(** The body of [for i in range(NUM_NODES)] in [__init__]. *)
Definition init_body (i : nat) : M unit :=
  if decide (i <> nodeid) then
    let! c := get_link_cost i in
    if decide (c <> inf) then
      let! l := dist_table_get nodeid in
      to_link_layer (Packet.make (Z.of_nat nodeid) (Z.of_nat i) l) ;;
      predecessors_set i (Some i)
    else ret tt
  else ret tt.

(** [Node.__init__] *)
Definition init : M unit :=
  let! rows := new_rows NUM_NODES in
  (fun s => Ok tt (mkState (heap s) rows (replicate NUM_NODES None) (link_layer s))) ;;
  let! own := lift (fun _ => cost !! nodeid) in
  let! l := new_list own in
  dist_table_set nodeid l ;;
  for_range NUM_NODES init_body.

(** The body of [for v in range(NUM_NODES)] in [update_helper]. *)
Definition relax_body (dest v : nat) : M unit :=
  let! lc := get_link_cost v in
  let! r := dist_table_get v in
  let! x := list_get r dest in
  let new_cost := add lc x in
  let! l := get_dist_vector in
  let! cur := list_get l dest in
  if ltb new_cost cur then
    let! l := get_dist_vector in
    list_set l dest new_cost ;;
    predecessors_set dest (Some v)
  else ret tt.

(** The body of [for dest in range(NUM_NODES)] in [update_helper]. *)
Definition dest_body (dest : nat) : M unit :=
  if decide (dest = nodeid) then ret tt
  else
    let! l := get_dist_vector in
    list_set l dest inf ;;
    for_range NUM_NODES (relax_body dest).

(** The notification loop of [update_helper]. *)
Definition notify_body (i : nat) : M unit :=
  if decide (i <> nodeid) then
    let! c := get_link_cost i in
    if decide (c <> inf) then
      let! l := get_dist_vector in
      to_link_layer (Packet.make (Z.of_nat nodeid) (Z.of_nat i) l)
    else ret tt
  else ret tt.

(** [Node.update_helper]; [temp] is a local copy that nothing else
    refers to, so it is kept as a value. *)
Definition update_helper : M unit :=
  let! l := get_dist_vector in
  let! temp := list_read l in
  for_range NUM_NODES dest_body ;;
  let! l := get_dist_vector in
  let! now := list_read l in
  if decide (temp = now) then ret tt
  else for_range NUM_NODES notify_body.

(** [Node.update] *)
Definition update (pkt : Packet.t) : M unit :=
  let src := Packet.get_src pkt in
  let vector := Packet.get_dist_vector pkt in
  let! i := lift (fun s => py_index (length (dist_table s)) src) in
  let! row := dist_table_get i in
  let! old := list_read row in
  let! new := list_read vector in
  if decide (old = new) then ret tt
  else
    let! c := list_copy vector in
    let! j := lift (fun s => py_index (length (dist_table s)) src) in
    dist_table_set j c ;;
    update_helper.

(** [Node.link_cost_change_handler] *)
Definition link_cost_change_handler (which_link : nat) (new_cost : number) : M unit :=
  update_helper.

(** *** The methods against a packet constructor

    [Packet] is not among the sources, and the methods above take
    [Packet(...)] for the record of its arguments. Here are the
    methods that build packets once more, line by line the same, with
    the constructor as the parameter [packet]. *)
Section Constructor.

Variable packet : Z -> Z -> loc -> M Packet.t.

Definition init_body_with (i : nat) : M unit :=
  if decide (i <> nodeid) then
    let! c := get_link_cost i in
    if decide (c <> inf) then
      let! l := dist_table_get nodeid in
      let! pkt := packet (Z.of_nat nodeid) (Z.of_nat i) l in
      to_link_layer pkt ;;
      predecessors_set i (Some i)
    else ret tt
  else ret tt.

Definition init_with : M unit :=
  let! rows := new_rows NUM_NODES in
  (fun s => Ok tt (mkState (heap s) rows (replicate NUM_NODES None) (link_layer s))) ;;
  let! own := lift (fun _ => cost !! nodeid) in
  let! l := new_list own in
  dist_table_set nodeid l ;;
  for_range NUM_NODES init_body_with.

Definition notify_body_with (i : nat) : M unit :=
  if decide (i <> nodeid) then
    let! c := get_link_cost i in
    if decide (c <> inf) then
      let! l := get_dist_vector in
      let! pkt := packet (Z.of_nat nodeid) (Z.of_nat i) l in
      to_link_layer pkt
    else ret tt
  else ret tt.

Definition update_helper_with : M unit :=
  let! l := get_dist_vector in
  let! temp := list_read l in
  for_range NUM_NODES dest_body ;;
  let! l := get_dist_vector in
  let! now := list_read l in
  if decide (temp = now) then ret tt
  else for_range NUM_NODES notify_body_with.

Definition update_with (pkt : Packet.t) : M unit :=
  let src := Packet.get_src pkt in
  let vector := Packet.get_dist_vector pkt in
  let! i := lift (fun s => py_index (length (dist_table s)) src) in
  let! row := dist_table_get i in
  let! old := list_read row in
  let! new := list_read vector in
  if decide (old = new) then ret tt
  else
    let! c := list_copy vector in
    let! j := lift (fun s => py_index (length (dist_table s)) src) in
    dist_table_set j c ;;
    update_helper_with.

Definition link_cost_change_handler_with (which_link : nat) (new_cost : number)
  : M unit :=
  update_helper_with.

End Constructor.

(** ** What the node believes

    [table s i j] is [dist_table[i][j]], [link_cost j] is
    [simulator.cost[nodeid][j]] and [predecessor s d] is [predecessors[d]];
    a missing entry reads as [inf], respectively [None]. *)
Definition row (s : State) (i : nat) : option (list number) :=
  dist_table s !! i ≫= (heap s !!.).

Definition table (s : State) (i j : nat) : number :=
  default inf (row s i ≫= (.!! j)).

Definition link_cost (j : nat) : number :=
  default inf (cost !! nodeid ≫= (.!! j)).

Definition predecessor (s : State) (d : nat) : option nat :=
  default None (predecessors s !! d).

(** The shape every method leaves behind: [NUM_NODES] distinct rows
    of [NUM_NODES] costs each, and [NUM_NODES] predecessors. *)
Record wf (s : State) : Prop := mk_wf {
  wf_nodeid : nodeid < NUM_NODES;
  wf_table : length (dist_table s) = NUM_NODES;
  wf_distinct : NoDup (dist_table s);
  wf_rows : forall i l, dist_table s !! i = Some l ->
            exists r, heap s !! l = Some r /\ length r = NUM_NODES;
  wf_preds : length (predecessors s) = NUM_NODES
}.

(** What [update_helper] needs of a table to return: the shape above,
    but of a row of another node only an entry for every destination
    other than the node itself. *)
Record readable (s : State) : Prop := mk_readable {
  rd_nodeid : nodeid < NUM_NODES;
  rd_table : length (dist_table s) = NUM_NODES;
  rd_distinct : NoDup (dist_table s);
  rd_own : exists o r, dist_table s !! nodeid = Some o /\ heap s !! o = Some r /\
                       length r = NUM_NODES;
  rd_rows : forall i l, i <> nodeid -> dist_table s !! i = Some l ->
            exists r, heap s !! l = Some r /\
                      forall d, d < NUM_NODES -> d <> nodeid -> d < length r;
  rd_preds : length (predecessors s) = NUM_NODES
}.

(** The simulator's costs of this node's links: one per node. *)
Definition wf_cost : Prop :=
  exists lcs, cost !! nodeid = Some lcs /\ length lcs = NUM_NODES.

(** *** The relaxation as a function

    One turn of the loop over [v] for destination [d]: the running
    pair is [dist_table[nodeid][d]] and [predecessors[d]]. Row
    [nodeid] is the one being written, so its entry is the running
    cost. *)
Definition relax_step (s : State) (d : nat) (acc : number * option nat) (v : nat)
  : number * option nat :=
  let new_cost := add (link_cost v)
                      (if decide (v = nodeid) then acc.1 else table s v d) in
  if ltb new_cost acc.1 then (new_cost, Some v) else acc.

Definition relax (s : State) (d : nat) (p0 : option nat) : number * option nat :=
  fold_left (relax_step s d) (seq 0 NUM_NODES) (inf, p0).

(** The candidate of a node [v] other than this one for destination
    [d]. *)
Definition cand (s : State) (d v : nat) : number :=
  add (link_cost v) (table s v d).

(** The loop over [v] after the nodes below [k]. *)
Definition relax_upto (s : State) (d : nat) (p0 : option nat) (k : nat)
  : number * option nat :=
  fold_left (relax_step s d) (seq 0 k) (inf, p0).

(** The candidate of node [v] as the loop over [v] computes it: the
    entry of row [v], which for the node's own row is the cost the
    loop has reached when it comes to [v]. *)
Definition evaluated (s : State) (d : nat) (p0 : option nat) (v : nat) : number :=
  add (link_cost v)
      (if decide (v = nodeid) then (relax_upto s d p0 v).1 else table s v d).

(** [v0] is the first node, in the order of the loop, whose candidate
    is the cost [m]: no candidate is smaller, and every earlier one is
    larger. *)
Definition first_evaluated (s : State) (d : nat) (p0 : option nat)
  (k : nat) (m : number) (v0 : nat) : Prop :=
  v0 < k /\ evaluated s d p0 v0 = m /\
  (forall v, v < v0 -> ltb m (evaluated s d p0 v) = true) /\
  (forall v, v < k -> le m (evaluated s d p0 v)).

(** What the loop has found after the nodes below [k]: a cost below
    every candidate so far, and, when it is finite, the first node
    whose candidate it is. *)
Definition found (s : State) (d : nat) (p0 : option nat) (k : nat)
  (acc : number * option nat) : Prop :=
  (forall v, v < k -> v <> nodeid -> le acc.1 (cand s d v)) /\
  ((acc.1 = inf /\ acc.2 = p0) \/
   exists v0, v0 < k /\ v0 <> nodeid /\ acc.2 = Some v0 /\
              acc.1 = cand s d v0 /\ acc.1 <> inf /\
              forall v, v < v0 -> v <> nodeid -> ltb acc.1 (cand s d v) = true).

(** One turn of the loop over [dest], on the own row and the
    predecessors. *)
Definition relax_dest (s : State) (acc : list number * list (option nat)) (d : nat)
  : list number * list (option nat) :=
  if decide (d = nodeid) then acc
  else let r := relax s d (default None (acc.2 !! d)) in
       (<[d := r.1]> acc.1, <[d := r.2]> acc.2).

(** The packets of one notification round, all built on the list
    object [o]. *)
Definition neighbour (i : nat) : bool :=
  bool_decide (i <> nodeid) && bool_decide (link_cost i <> inf).

Definition broadcast (o : loc) : list Packet.t :=
  map (fun i => Packet.make (Z.of_nat nodeid) (Z.of_nat i) o)
      (filter (fun i => neighbour i = true) (seq 0 NUM_NODES)).

(** The state [update_helper] returns. *)
Definition recompute (s : State) : State :=
  match dist_table s !! nodeid with
  | Some o =>
      match heap s !! o with
      | Some old =>
          let r := fold_left (relax_dest s) (seq 0 NUM_NODES) (old, predecessors s) in
          mkState (<[o := r.1]> (heap s)) (dist_table s) r.2
                  (link_layer s ++ if decide (old = r.1) then [] else broadcast o)
      | None => s
      end
  | None => s
  end.

(** The least of the candidates [link_cost v + table[v][d]]. *)
Definition min_number (a b : number) : number := if ltb b a then b else a.

Definition best (s : State) (d : nat) : number :=
  fold_right min_number inf
    (map (fun v => add (link_cost v) (table s v d)) (seq 0 NUM_NODES)).

(** The state behind [update_helper] while it runs: the own row [o]
    holds [r], the predecessors are [ps]. *)
Definition with_own (s : State) (o : loc) (r : list number) (ps : list (option nat))
  : State :=
  mkState (<[o := r]> (heap s)) (dist_table s) ps (link_layer s).

(** *** The entry points as functions *)

(** The predecessors [__init__] writes while it goes over the nodes
    [js]. *)
Definition init_preds (js : list nat) (ps : list (option nat)) : list (option nat) :=
  fold_left (fun ps i => if neighbour i then <[i := Some i]> ps else ps) js ps.

(** The state [__init__] returns: [NUM_NODES] new rows of [inf], a new
    list holding the node's link costs in their place at [nodeid], and
    one packet per neighbour. *)
Definition constructed (s0 : State) : State :=
  let h := length (heap s0) in
  mkState (heap s0 ++ replicate NUM_NODES (replicate NUM_NODES inf)
                   ++ [default [] (cost !! nodeid)])
          (<[nodeid := h + NUM_NODES]> (seq h NUM_NODES))
          (init_preds (seq 0 NUM_NODES) (replicate NUM_NODES None))
          (link_layer s0 ++ broadcast (h + NUM_NODES)).

(** The state of [update] before it calls [update_helper]: row [i]
    is a new copy of the vector [v]. *)
Definition store_row (s : State) (i : nat) (v : list number) : State :=
  mkState (heap s ++ [v]) (<[i := length (heap s)]> (dist_table s))
          (predecessors s) (link_layer s).

(** [get_dist_vector()[nodeid] == 0] *)
Definition own_zero (s : State) : Prop :=
  exists o r, dist_table s !! nodeid = Some o /\ heap s !! o = Some r /\
              r !! nodeid = Some (Int 0).

(** *** The invariants of the own row *)

(** Destination [d] is relaxed in [s]: the own row holds the least
    candidate, no node has a smaller one, and when that cost is finite
    the predecessor is a node whose candidate it is. *)
Definition relaxed (s : State) (d : nat) : Prop :=
  table s nodeid d = best s d /\
  (forall u, u < NUM_NODES -> le (table s nodeid d) (cand s d u)) /\
  (table s nodeid d <> inf ->
   exists v, predecessor s d = Some v /\ v < NUM_NODES /\ cand s d v = table s nodeid d).

(** [v0] is the first of the other nodes whose candidate is the cost
    the own row holds for [d]. *)
Definition first_best (s : State) (d v0 : nat) : Prop :=
  v0 < NUM_NODES /\ v0 <> nodeid /\ cand s d v0 = table s nodeid d /\
  forall v, v < v0 -> v <> nodeid -> ltb (table s nodeid d) (cand s d v) = true.

(** A property of the state that a method keeps, whether it returns
    or raises. *)
Definition preserves (P : State -> Prop) {A} (m : M A) : Prop :=
  forall s, P s -> P (state_of (m s)).

(** ** Facts about costs *)

Lemma ltb_irrefl a : ltb a a = false.
Proof. destruct a; simpl; [apply Z.ltb_irrefl | reflexivity]. Qed.

Lemma ltb_finite a b : ltb a b = true -> a <> inf.
Proof. destruct a; [discriminate | destruct b; discriminate]. Qed.

Lemma le_refl a : le a a.
Proof. apply ltb_irrefl. Qed.

Lemma le_trans a b c : le a b -> le b c -> le a c.
Proof.
  unfold le. destruct a, b, c; simpl; try congruence.
  rewrite !Z.ltb_ge. lia.
Qed.

Lemma le_antisym a b : le a b -> le b a -> a = b.
Proof.
  unfold le. destruct a, b; simpl; try congruence.
  rewrite !Z.ltb_ge. intros. f_equal. lia.
Qed.

Lemma lt_le a b : ltb a b = true -> le a b.
Proof.
  unfold le. destruct a, b; simpl; try congruence.
  rewrite Z.ltb_lt, Z.ltb_ge. lia.
Qed.

Lemma le_inf a : le a inf.
Proof. destruct a; reflexivity. Qed.

Lemma lt_le_trans a b c : ltb a b = true -> le b c -> ltb a c = true.
Proof.
  unfold le. destruct a, b, c; simpl; try congruence.
  rewrite !Z.ltb_lt, Z.ltb_ge. lia.
Qed.

Lemma le_add_nonneg a m : le (Int 0) a -> le m (add a m).
Proof.
  unfold le. destruct a, m; simpl; try congruence.
  rewrite !Z.ltb_ge. lia.
Qed.

(** ** Running the primitives *)

Lemma bind_ok {A B} (m : M A) (f : A -> M B) s a s' :
  m s = Ok a s' -> bind m f s = f a s'.
Proof. unfold bind. intros ->. reflexivity. Qed.

Lemma bind_raise {A B} (m : M A) (f : A -> M B) s s' :
  m s = IndexError s' -> bind m f s = IndexError s'.
Proof. unfold bind. intros ->. reflexivity. Qed.

Lemma lift_ok {A} (f : State -> option A) s a :
  f s = Some a -> lift f s = Ok a s.
Proof. unfold lift. intros ->. reflexivity. Qed.

Lemma lift_raise {A} (f : State -> option A) s :
  f s = None -> lift f s = IndexError s.
Proof. unfold lift. intros ->. reflexivity. Qed.

Lemma link_cost_lookup j :
  wf_cost -> j < NUM_NODES -> cost !! nodeid ≫= (.!! j) = Some (link_cost j).
Proof.
  intros (lcs & Hc & Hl) Hj. unfold link_cost. rewrite Hc. simpl.
  destruct (lookup_lt_is_Some_2 lcs j) as [c Hcj]; [lia |].
  rewrite Hcj. reflexivity.
Qed.

Lemma get_link_cost_run j s :
  wf_cost -> j < NUM_NODES -> get_link_cost j s = Ok (link_cost j) s.
Proof. intros. apply lift_ok. by apply link_cost_lookup. Qed.

(** Row [i] of a well-formed table is a live list of [NUM_NODES] costs. *)
Lemma wf_row s i :
  wf s -> i < NUM_NODES ->
  exists l r, dist_table s !! i = Some l /\ heap s !! l = Some r /\
              length r = NUM_NODES.
Proof.
  intros W Hi.
  destruct (lookup_lt_is_Some_2 (dist_table s) i) as [l Hl].
  { rewrite (wf_table s W). exact Hi. }
  destruct (wf_rows s W i l Hl) as (r & Hr & Hlen). eauto.
Qed.

Lemma wf_own s :
  wf s -> exists o r, dist_table s !! nodeid = Some o /\ heap s !! o = Some r /\
                      length r = NUM_NODES.
Proof. intros W. apply wf_row; [exact W | apply (wf_nodeid s W)]. Qed.

Lemma table_lookup s i l r j :
  dist_table s !! i = Some l -> heap s !! l = Some r ->
  table s i j = default inf (r !! j).
Proof. intros Hl Hr. unfold table, row. rewrite Hl. simpl. rewrite Hr. reflexivity. Qed.

Lemma lookup_default_num (r : list number) j :
  j < length r -> r !! j = Some (default inf (r !! j)).
Proof. intros H. destruct (lookup_lt_is_Some_2 r j H) as [c ->]. reflexivity. Qed.

Lemma lookup_default_pred (ps : list (option nat)) j :
  j < length ps -> ps !! j = Some (default None (ps !! j)).
Proof. intros H. destruct (lookup_lt_is_Some_2 ps j H) as [c ->]. reflexivity. Qed.

(** Two rows of a well-formed table are two objects. *)
Lemma wf_row_inj s i j l :
  wf s -> dist_table s !! i = Some l -> dist_table s !! j = Some l -> i = j.
Proof. intros W. apply NoDup_lookup. apply (wf_distinct s W). Qed.

(** ** Running [update_helper] *)

Section Running.

Variable s : State.
Variable o : loc.
Hypothesis W : wf s.
Hypothesis C : wf_cost.
Hypothesis Ho : dist_table s !! nodeid = Some o.

Lemma own_live : o < length (heap s).
Proof.
  destruct (wf_rows s W _ _ Ho) as (r & Hr & _).
  apply lookup_lt_Some in Hr. exact Hr.
Qed.

Lemma with_own_heap_own r ps : heap (with_own s o r ps) !! o = Some r.
Proof. simpl. apply list_lookup_insert_eq. apply own_live. Qed.

Lemma with_own_heap_other r ps v l :
  v <> nodeid -> dist_table s !! v = Some l ->
  heap (with_own s o r ps) !! l = heap s !! l.
Proof.
  intros Hv Hl. simpl. apply list_lookup_insert_ne.
  intros ->. apply Hv. eapply wf_row_inj; eauto.
Qed.

(** The entry the loop reads in row [v]: the running cost in the
    own row, the stored one elsewhere. *)
Lemma read_entry r ps d v :
  length r = NUM_NODES -> d < NUM_NODES -> v < NUM_NODES ->
  bind (dist_table_get v) (fun l => list_get l d) (with_own s o r ps) =
  Ok (if decide (v = nodeid) then default inf (r !! d) else table s v d)
     (with_own s o r ps).
Proof.
  intros Hr Hd Hv.
  destruct (wf_row s v W Hv) as (l & rv & Hl & Hrv & Hlen).
  rewrite (bind_ok _ _ _ l (with_own s o r ps)); [| by apply lift_ok].
  apply lift_ok. destruct (decide (v = nodeid)) as [-> | Hne].
  - assert (l = o) by congruence. subst l.
    rewrite with_own_heap_own. simpl. apply lookup_default_num. lia.
  - rewrite (with_own_heap_other r ps v l Hne Hl), Hrv. simpl.
    rewrite (table_lookup s v l rv d Hl Hrv). apply lookup_default_num. lia.
Qed.

Lemma with_own_set r ps d x :
  d < length r ->
  list_set o d x (with_own s o r ps) = Ok tt (with_own s o (<[d := x]> r) ps).
Proof.
  intros Hd. unfold list_set. rewrite with_own_heap_own.
  destruct (decide (d < length r)); [| lia].
  unfold with_own. simpl. rewrite list_insert_insert_eq. reflexivity.
Qed.

Lemma with_own_id r ps d :
  d < length r -> d < length ps ->
  with_own s o (<[d := default inf (r !! d)]> r)
               (<[d := default None (ps !! d)]> ps) = with_own s o r ps.
Proof.
  intros Hr Hp.
  rewrite (list_insert_id r d _ (lookup_default_num r d Hr)).
  rewrite (list_insert_id ps d _ (lookup_default_pred ps d Hp)).
  reflexivity.
Qed.

(** One turn of the loop over [v]. *)
Lemma relax_body_run r ps d v :
  length r = NUM_NODES -> length ps = NUM_NODES ->
  d < NUM_NODES -> v < NUM_NODES ->
  relax_body d v (with_own s o r ps) =
  Ok tt (let a := relax_step s d (default inf (r !! d), default None (ps !! d)) v in
         with_own s o (<[d := a.1]> r) (<[d := a.2]> ps)).
Proof.
  intros Hr Hp Hd Hv. unfold relax_body.
  rewrite (bind_ok _ _ _ _ _ (get_link_cost_run v _ C Hv)).
  pose proof (read_entry r ps d v Hr Hd Hv) as Hread.
  unfold bind at 1 in Hread. unfold bind at 1.
  destruct (dist_table_get v (with_own s o r ps)) as [l s1 | s1]; [| discriminate].
  unfold bind at 1. rewrite Hread. clear Hread.
  unfold get_dist_vector.
  rewrite (bind_ok _ _ _ o (with_own s o r ps)); [| by apply lift_ok].
  rewrite (bind_ok _ _ _ (default inf (r !! d)) (with_own s o r ps)).
  2:{ apply lift_ok. rewrite with_own_heap_own. simpl.
      apply lookup_default_num. lia. }
  unfold relax_step. simpl.
  destruct (ltb _ (default inf (r !! d))) eqn:Hlt; simpl.
  - rewrite (bind_ok _ _ _ o (with_own s o r ps)); [| by apply lift_ok].
    rewrite (bind_ok _ _ _ _ _ (with_own_set r ps d _ ltac:(lia))).
    unfold predecessors_set. simpl.
    destruct (decide (d < length ps)); [reflexivity | lia].
  - unfold ret. rewrite with_own_id by lia. reflexivity.
Qed.

(** The whole loop over [v], for any list of nodes. *)
Lemma relax_loop_run vs : forall r ps d,
  length r = NUM_NODES -> length ps = NUM_NODES -> d < NUM_NODES ->
  Forall (fun v => v < NUM_NODES) vs ->
  for_each vs (relax_body d) (with_own s o r ps) =
  Ok tt (let a := fold_left (relax_step s d) vs
                    (default inf (r !! d), default None (ps !! d)) in
         with_own s o (<[d := a.1]> r) (<[d := a.2]> ps)).
Proof.
  induction vs as [|v vs IH]; intros r ps d Hr Hp Hd Hvs; simpl.
  - unfold ret. rewrite with_own_id by lia. reflexivity.
  - inversion Hvs as [|? ? Hv Hvs']; subst.
    rewrite (bind_ok _ _ _ _ _ (relax_body_run r ps d v Hr Hp Hd Hv)).
    cbv zeta. rewrite IH; try (rewrite ?length_insert; auto).
    rewrite !list_lookup_insert_eq by lia. simpl.
    rewrite !list_insert_insert_eq.
    destruct (relax_step s d _ v); reflexivity.
Qed.

Lemma seq_bound n : Forall (fun v => v < n) (seq 0 n).
Proof. apply Forall_forall. intros v Hv. apply in_seq in Hv. lia. Qed.

Lemma relax_dest_length acc d :
  length (relax_dest s acc d).1 = length acc.1 /\
  length (relax_dest s acc d).2 = length acc.2.
Proof.
  unfold relax_dest. destruct (decide (d = nodeid)); simpl; [auto |].
  rewrite !length_insert. auto.
Qed.

Lemma relax_dests_length ds : forall acc,
  length (fold_left (relax_dest s) ds acc).1 = length acc.1 /\
  length (fold_left (relax_dest s) ds acc).2 = length acc.2.
Proof.
  induction ds as [|d ds IH]; intros acc; simpl; [auto |].
  destruct (IH (relax_dest s acc d)) as [-> ->]. apply relax_dest_length.
Qed.

(** One turn of the loop over [dest]. *)
Lemma dest_body_run r ps d :
  length r = NUM_NODES -> length ps = NUM_NODES -> d < NUM_NODES ->
  dest_body d (with_own s o r ps) =
  Ok tt (let a := relax_dest s (r, ps) d in with_own s o a.1 a.2).
Proof.
  intros Hr Hp Hd. unfold dest_body, relax_dest.
  destruct (decide (d = nodeid)); [reflexivity |].
  unfold get_dist_vector.
  rewrite (bind_ok _ _ _ o (with_own s o r ps)); [| by apply lift_ok].
  rewrite (bind_ok _ _ _ _ _ (with_own_set r ps d inf ltac:(lia))).
  unfold for_range. rewrite relax_loop_run;
    rewrite ?length_insert; auto using seq_bound.
  rewrite list_lookup_insert_eq by lia. simpl.
  rewrite list_insert_insert_eq. reflexivity.
Qed.

(** The whole loop over [dest], for any list of destinations. *)
Lemma dest_loop_run ds : forall r ps,
  length r = NUM_NODES -> length ps = NUM_NODES ->
  Forall (fun d => d < NUM_NODES) ds ->
  for_each ds dest_body (with_own s o r ps) =
  Ok tt (let a := fold_left (relax_dest s) ds (r, ps) in with_own s o a.1 a.2).
Proof.
  induction ds as [|d ds IH]; intros r ps Hr Hp Hds; simpl.
  - reflexivity.
  - inversion Hds as [|? ? Hd Hds']; subst.
    rewrite (bind_ok _ _ _ _ _ (dest_body_run r ps d Hr Hp Hd)).
    cbv zeta.
    destruct (relax_dest_length (r, ps) d) as [L1 L2]. simpl in L1, L2.
    rewrite IH by (auto; lia).
    destruct (relax_dest s (r, ps) d); reflexivity.
Qed.

End Running.

(** The notification loop adds one packet per neighbour and touches
    nothing else. *)
Lemma notify_loop_run o js : forall s,
  wf_cost -> dist_table s !! nodeid = Some o ->
  Forall (fun i => i < NUM_NODES) js ->
  for_each js notify_body s =
  Ok tt (mkState (heap s) (dist_table s) (predecessors s)
           (link_layer s ++
            map (fun i => Packet.make (Z.of_nat nodeid) (Z.of_nat i) o)
                (filter (fun i => neighbour i = true) js))).
Proof.
  induction js as [|i js IH]; intros s C Ho Hjs; simpl.
  - rewrite app_nil_r. destruct s; reflexivity.
  - inversion Hjs as [|? ? Hi Hjs']; subst.
    assert (notify_body i s =
            Ok tt (mkState (heap s) (dist_table s) (predecessors s)
                     (link_layer s ++
                      if neighbour i then [Packet.make (Z.of_nat nodeid) (Z.of_nat i) o]
                      else []))) as Hbody.
    { unfold notify_body, neighbour.
      destruct (decide (i <> nodeid)) as [Hne | He].
      - rewrite (bind_ok _ _ _ _ _ (get_link_cost_run i s C Hi)).
        rewrite (bool_decide_eq_true_2 _ Hne). simpl.
        destruct (decide (link_cost i <> inf)) as [Hf | Hf].
        + rewrite (bool_decide_eq_true_2 _ Hf).
          unfold get_dist_vector.
          rewrite (bind_ok _ _ _ o s); [reflexivity | by apply lift_ok].
        + rewrite (bool_decide_eq_false_2 _ Hf).
          rewrite app_nil_r. destruct s; reflexivity.
      - rewrite (bool_decide_eq_false_2 _ He). simpl.
        rewrite app_nil_r. destruct s; reflexivity. }
    rewrite (bind_ok _ _ _ _ _ Hbody). rewrite IH by auto. simpl.
    rewrite filter_cons.
    destruct (neighbour i) eqn:Hn.
    + destruct (decide (true = true)); [| congruence].
      simpl. rewrite <- app_assoc. reflexivity.
    + destruct (decide (false = true)); [congruence |].
      rewrite app_nil_r. reflexivity.
Qed.

(** On a well-formed node [update_helper] returns, and leaves the
    state [recompute] describes. *)
Lemma update_helper_run s :
  wf s -> wf_cost -> update_helper s = Ok tt (recompute s).
Proof.
  intros W C. destruct (wf_own s W) as (o & old & Ho & Hold & Hlen).
  unfold update_helper, recompute, get_dist_vector. rewrite Ho, Hold.
  rewrite (bind_ok _ _ _ o s); [| by apply lift_ok].
  rewrite (bind_ok _ _ _ old s); [| by apply lift_ok].
  assert (s = with_own s o old (predecessors s)) as Es.
  { unfold with_own. rewrite (list_insert_id _ _ _ Hold). destruct s; reflexivity. }
  unfold for_range at 1.
  rewrite (bind_ok _ _ _ tt
             (let a := fold_left (relax_dest s) (seq 0 NUM_NODES) (old, predecessors s) in
              with_own s o a.1 a.2)).
  2:{ rewrite Es at 1. apply dest_loop_run; auto using seq_bound.
      apply (wf_preds s W). }
  cbv zeta.
  set (a := fold_left (relax_dest s) (seq 0 NUM_NODES) (old, predecessors s)).
  rewrite (bind_ok _ _ _ o (with_own s o a.1 a.2)); [| by apply lift_ok].
  rewrite (bind_ok _ _ _ a.1 (with_own s o a.1 a.2)).
  2:{ apply lift_ok. apply (with_own_heap_own s o W Ho). }
  destruct (decide (old = a.1)) as [E | E].
  - unfold ret, with_own. rewrite app_nil_r. reflexivity.
  - unfold for_range. rewrite (notify_loop_run o); auto using seq_bound.
Qed.

(** ** The relaxation of one destination *)

Section Relax.

Variable s : State.
Variable d : nat.
Variable p0 : option nat.

Lemma relax_upto_S k :
  relax_upto s d p0 (S k) = relax_step s d (relax_upto s d p0 k) k.
Proof. unfold relax_upto. rewrite seq_S, fold_left_app. reflexivity. Qed.

(** A predecessor is written only together with a finite cost. *)
Lemma relax_upto_inf k : (relax_upto s d p0 k).1 = inf -> (relax_upto s d p0 k).2 = p0.
Proof.
  induction k as [|k IH]; [reflexivity |].
  rewrite relax_upto_S. unfold relax_step.
  destruct (ltb _ (relax_upto s d p0 k).1) eqn:Hlt; simpl; [| exact IH].
  intros E. rewrite E in Hlt. apply ltb_finite in Hlt. congruence.
Qed.

(** A written predecessor is a node number. *)
Lemma relax_upto_pred k :
  (relax_upto s d p0 k).2 = p0 \/ exists v, v < k /\ (relax_upto s d p0 k).2 = Some v.
Proof.
  induction k as [|k IH]; [left; reflexivity |].
  rewrite relax_upto_S. unfold relax_step.
  destruct (ltb _ (relax_upto s d p0 k).1); simpl.
  - right. exists k. split; [lia | reflexivity].
  - destruct IH as [IH | (v & Hv & IH)]; [left; exact IH |].
    right. exists v. split; [lia | exact IH].
Qed.

(** The loop keeps the first of the least candidates. *)
Lemma relax_upto_first k :
  (forall v, v < k -> le (relax_upto s d p0 k).1 (evaluated s d p0 v)) /\
  ((relax_upto s d p0 k).1 <> inf ->
   exists v0, (relax_upto s d p0 k).2 = Some v0 /\
              first_evaluated s d p0 k (relax_upto s d p0 k).1 v0).
Proof.
  induction k as [|k [IHa IHb]].
  - split; [intros v Hv; lia | intros H; by contradiction H].
  - rewrite relax_upto_S. unfold relax_step. fold (evaluated s d p0 k).
    destruct (ltb (evaluated s d p0 k) (relax_upto s d p0 k).1) eqn:Hlt; simpl.
    + assert (forall v, v < k ->
                ltb (evaluated s d p0 k) (evaluated s d p0 v) = true) as Hbelow.
      { intros v Hv. eapply lt_le_trans; [exact Hlt | by apply IHa]. }
      assert (forall v, v < S k ->
                le (evaluated s d p0 k) (evaluated s d p0 v)) as Hle.
      { intros v Hv. destruct (decide (v = k)) as [-> | Hvk]; [apply le_refl |].
        apply lt_le, Hbelow. lia. }
      split; [exact Hle |]. intros _. exists k.
      split; [reflexivity |]. repeat split; auto.
    + assert (forall v, v < S k ->
                le (relax_upto s d p0 k).1 (evaluated s d p0 v)) as Hle.
      { intros v Hv. destruct (decide (v = k)) as [-> | Hvk]; [exact Hlt |].
        apply IHa. lia. }
      split; [exact Hle |]. intros Hfin.
      destruct (IHb Hfin) as (v0 & Hp & Hv0 & He & Hfirst & _).
      exists v0. split; [exact Hp |]. repeat split; auto.
Qed.

Hypothesis Hself : le (Int 0) (link_cost nodeid).

Lemma relax_upto_found k : found s d p0 k (relax_upto s d p0 k).
Proof.
  induction k as [|k [IHa IHb]].
  - split; [intros v Hv; lia | left; split; reflexivity].
  - rewrite relax_upto_S. unfold relax_step.
    destruct (decide (k = nodeid)) as [-> | Hk].
    + (* the own row: the running cost plus a cost that is not negative *)
      rewrite (le_add_nonneg _ (relax_upto s d p0 nodeid).1 Hself).
      split.
      * intros v Hv Hne. apply IHa; [lia | exact Hne].
      * destruct IHb as [IHb | (v0 & H1 & H2)]; [left; exact IHb |].
        right. exists v0. split; [lia | exact H2].
    + fold (cand s d k). destruct (ltb (cand s d k) (relax_upto s d p0 k).1) eqn:Hlt; simpl.
      * split.
        -- intros v Hv Hne. destruct (decide (v = k)) as [-> | Hvk].
           ++ apply le_refl.
           ++ apply lt_le. eapply lt_le_trans; [exact Hlt |].
              apply IHa; [lia | exact Hne].
        -- right. exists k. repeat split; auto.
           ++ eapply ltb_finite; exact Hlt.
           ++ intros v Hv Hne. eapply lt_le_trans; [exact Hlt |].
              apply IHa; [lia | exact Hne].
      * split.
        -- intros v Hv Hne. destruct (decide (v = k)) as [-> | Hvk].
           ++ exact Hlt.
           ++ apply IHa; [lia | exact Hne].
        -- destruct IHb as [IHb | (v0 & H1 & H2)]; [left; exact IHb |].
           right. exists v0. split; [lia | exact H2].
Qed.

Lemma relax_found : found s d p0 NUM_NODES (relax s d p0).
Proof. apply relax_upto_found. Qed.

End Relax.

Lemma relax_inf s d p0 : (relax s d p0).1 = inf -> (relax s d p0).2 = p0.
Proof. apply relax_upto_inf. Qed.

(** ** The minimum of a list of costs *)

Lemma min_list_le l y :
  y ∈ l -> le (fold_right min_number inf l) y.
Proof.
  induction l as [|x l IH]; intros Hy; [exfalso; revert Hy; apply not_elem_of_nil |].
  apply elem_of_cons in Hy. simpl.
  set (m := fold_right min_number inf l) in *. unfold min_number.
  destruct (ltb m x) eqn:Hlt.
  - destruct Hy as [-> | Hy]; [by apply lt_le | by apply IH].
  - destruct Hy as [-> | Hy]; [apply le_refl |].
    eapply le_trans; [exact Hlt | by apply IH].
Qed.

Lemma min_list_in l :
  fold_right min_number inf l = inf \/ fold_right min_number inf l ∈ l.
Proof.
  induction l as [|x l IH]; [left; reflexivity |].
  simpl. set (m := fold_right min_number inf l) in *. unfold min_number.
  destruct (ltb m x) eqn:Hlt.
  - destruct IH as [IH | IH].
    + rewrite IH in Hlt. discriminate.
    + right. by apply list_elem_of_further.
  - right. apply list_elem_of_here.
Qed.

(** A cost below every element that is one of them, or [inf], is the
    minimum. *)
Lemma min_list_unique l x :
  (forall y, y ∈ l -> le x y) -> (x = inf \/ x ∈ l) ->
  x = fold_right min_number inf l.
Proof.
  intros Hle Hin. apply le_antisym.
  - destruct (min_list_in l) as [-> | Hm]; [apply le_inf | by apply Hle].
  - destruct Hin as [-> | Hin]; [apply le_inf | by apply min_list_le].
Qed.

(** ** The relaxation of all destinations *)

(** A destination that is not in the list, and the node itself, keep
    their entries. *)
Lemma relax_dests_keep s ds : forall acc d,
  d ∉ ds \/ d = nodeid ->
  (fold_left (relax_dest s) ds acc).1 !! d = acc.1 !! d /\
  (fold_left (relax_dest s) ds acc).2 !! d = acc.2 !! d.
Proof.
  induction ds as [|a ds IH]; intros acc d Hd; simpl; [auto |].
  destruct (IH (relax_dest s acc a) d) as [-> ->].
  { destruct Hd as [Hd | Hd]; [| auto].
    left. intros Hin. apply Hd. by apply list_elem_of_further. }
  unfold relax_dest. destruct (decide (a = nodeid)) as [Ha | Ha]; [auto |].
  assert (a <> d) as Hne.
  { destruct Hd as [Hd | ->]; [| exact Ha].
    intros ->. apply Hd. apply list_elem_of_here. }
  simpl. rewrite !list_lookup_insert_ne by exact Hne. auto.
Qed.

(** A destination of the list gets the result of its relaxation. *)
Lemma relax_dests_set s ds : forall acc d,
  NoDup ds -> d ∈ ds -> d <> nodeid ->
  d < length acc.1 -> d < length acc.2 ->
  (fold_left (relax_dest s) ds acc).1 !! d =
    Some (relax s d (default None (acc.2 !! d))).1 /\
  (fold_left (relax_dest s) ds acc).2 !! d =
    Some (relax s d (default None (acc.2 !! d))).2.
Proof.
  induction ds as [|a ds IH]; intros acc d Hnd Hin Hd L1 L2.
  { exfalso. revert Hin. apply not_elem_of_nil. }
  pose proof (NoDup_cons_1_1 _ _ Hnd) as Ha.
  apply NoDup_cons_1_2 in Hnd. apply elem_of_cons in Hin.
  simpl. destruct (decide (d = a)) as [-> | Hne].
  - destruct (relax_dests_keep s ds (relax_dest s acc a) a) as [-> ->]; [auto |].
    unfold relax_dest. destruct (decide (a = nodeid)); [congruence |].
    simpl. rewrite !list_lookup_insert_eq by lia. auto.
  - destruct Hin as [Hin | Hin]; [congruence |].
    destruct (relax_dest_length s acc a) as [E1 E2].
    destruct (IH (relax_dest s acc a) d Hnd Hin Hd) as [-> ->]; [lia | lia |].
    assert ((relax_dest s acc a).2 !! d = acc.2 !! d) as ->; [| auto].
    unfold relax_dest. destruct (decide (a = nodeid)); [reflexivity |].
    simpl. apply list_lookup_insert_ne. congruence.
Qed.

(** ** The state after [update_helper] *)

Section Recomputed.

Variable s : State.
Hypothesis W : wf s.

Lemma recompute_dist_table : dist_table (recompute s) = dist_table s.
Proof.
  unfold recompute. destruct (dist_table s !! nodeid); [| reflexivity].
  destruct (heap s !! n); reflexivity.
Qed.

(** The rows received from the other nodes are as they were. *)
Lemma recompute_other v d :
  v <> nodeid -> table (recompute s) v d = table s v d.
Proof.
  intros Hv. destruct (wf_own s W) as (o & old & Ho & Hold & Hlen).
  unfold table, row. rewrite recompute_dist_table.
  destruct (dist_table s !! v) as [l |] eqn:Hl; [| reflexivity].
  simpl. unfold recompute. rewrite Ho, Hold. simpl.
  rewrite list_lookup_insert_ne; [reflexivity |].
  intros ->. apply Hv. symmetry. eapply wf_row_inj; eauto.
Qed.

Lemma recompute_own_row o old :
  dist_table s !! nodeid = Some o -> heap s !! o = Some old ->
  row (recompute s) nodeid =
  Some (fold_left (relax_dest s) (seq 0 NUM_NODES) (old, predecessors s)).1.
Proof.
  intros Ho Hold. unfold row. rewrite recompute_dist_table, Ho. simpl.
  unfold recompute. rewrite Ho, Hold. simpl.
  apply list_lookup_insert_eq. apply lookup_lt_Some in Hold. exact Hold.
Qed.

(** The own row holds the relaxed cost of every other destination. *)
Lemma recompute_own d :
  d < NUM_NODES -> d <> nodeid ->
  table (recompute s) nodeid d = (relax s d (predecessor s d)).1.
Proof.
  intros Hd Hne. destruct (wf_own s W) as (o & old & Ho & Hold & Hlen).
  unfold table. rewrite (recompute_own_row o old Ho Hold). simpl.
  destruct (relax_dests_set s (seq 0 NUM_NODES) (old, predecessors s) d)
    as [-> _]; simpl; auto.
  - apply NoDup_seq.
  - apply elem_of_seq. lia.
  - lia.
  - rewrite (wf_preds s W). lia.
Qed.

(** The node's distance to itself is not written. *)
Lemma recompute_self : table (recompute s) nodeid nodeid = table s nodeid nodeid.
Proof.
  destruct (wf_own s W) as (o & old & Ho & Hold & Hlen).
  unfold table at 1. rewrite (recompute_own_row o old Ho Hold). simpl.
  destruct (relax_dests_keep s (seq 0 NUM_NODES) (old, predecessors s) nodeid)
    as [-> _]; [auto |].
  simpl. unfold table, row. rewrite Ho. simpl. rewrite Hold. reflexivity.
Qed.

Lemma recompute_predecessors :
  predecessors (recompute s) =
  (fold_left (relax_dest s) (seq 0 NUM_NODES)
             (default [] (row s nodeid), predecessors s)).2.
Proof.
  destruct (wf_own s W) as (o & old & Ho & Hold & Hlen).
  unfold recompute, row. rewrite Ho. simpl. rewrite Hold. reflexivity.
Qed.

(** The predecessor of every other destination is the one the
    relaxation ends with. *)
Lemma recompute_predecessor d :
  d < NUM_NODES -> d <> nodeid ->
  predecessor (recompute s) d = (relax s d (predecessor s d)).2.
Proof.
  intros Hd Hne. destruct (wf_own s W) as (o & old & Ho & Hold & Hlen).
  unfold predecessor at 1. rewrite recompute_predecessors.
  unfold row. rewrite Ho. simpl. rewrite Hold. simpl.
  destruct (relax_dests_set s (seq 0 NUM_NODES) (old, predecessors s) d)
    as [_ ->]; simpl; auto.
  - apply NoDup_seq.
  - apply elem_of_seq. lia.
  - lia.
  - rewrite (wf_preds s W). lia.
Qed.

Lemma recompute_wf : wf (recompute s).
Proof.
  destruct (wf_own s W) as (o & old & Ho & Hold & Hlen).
  destruct (relax_dests_length s (seq 0 NUM_NODES) (old, predecessors s))
    as [L1 L2]. simpl in L1, L2.
  constructor.
  - apply (wf_nodeid s W).
  - rewrite recompute_dist_table. apply (wf_table s W).
  - rewrite recompute_dist_table. apply (wf_distinct s W).
  - rewrite recompute_dist_table. intros i l Hl.
    unfold recompute. rewrite Ho, Hold. simpl.
    destruct (decide (l = o)) as [-> | Hlo].
    + eexists. split; [apply list_lookup_insert_eq; by apply lookup_lt_Some in Hold |].
      lia.
    + rewrite list_lookup_insert_ne by congruence.
      apply (wf_rows s W i l Hl).
  - unfold recompute. rewrite Ho, Hold. simpl. rewrite L2. apply (wf_preds s W).
Qed.

(** What is sent: nothing when the own row is what it was, one
    packet per neighbour otherwise. *)
Lemma recompute_link_layer o :
  dist_table s !! nodeid = Some o ->
  link_layer (recompute s) =
  link_layer s ++
  if decide (row s nodeid = row (recompute s) nodeid) then [] else broadcast o.
Proof.
  intros Ho. destruct (wf_own s W) as (o' & old & Ho' & Hold & Hlen).
  assert (o' = o) by congruence. subst o'.
  rewrite (recompute_own_row o old Ho Hold).
  assert (row s nodeid = Some old) as ->.
  { unfold row. rewrite Ho. exact Hold. }
  unfold recompute. rewrite Ho, Hold. simpl.
  destruct (decide (old = _)) as [E | E];
    destruct (decide (Some old = Some _)) as [E' | E']; try reflexivity.
  - rewrite <- E in E'. congruence.
  - inversion E'. congruence.
Qed.

End Recomputed.

(** ** Running [__init__] *)

Lemma new_rows_run n : forall s,
  new_rows n s =
  Ok (seq (length (heap s)) n)
     (mkState (heap s ++ replicate n (replicate NUM_NODES inf))
              (dist_table s) (predecessors s) (link_layer s)).
Proof.
  induction n as [|n IH]; intros s; simpl.
  - unfold ret. rewrite app_nil_r. destruct s; reflexivity.
  - unfold bind at 1. unfold new_list at 1.
    unfold bind at 1. rewrite IH. simpl. unfold ret.
    rewrite length_app. simpl. rewrite Nat.add_1_r.
    rewrite <- app_assoc. reflexivity.
Qed.

Lemma init_preds_length js : forall ps, length (init_preds js ps) = length ps.
Proof.
  induction js as [|a js IH]; intros ps; simpl; [reflexivity |].
  unfold init_preds in *. simpl. rewrite IH.
  destruct (neighbour a); [apply length_insert | reflexivity].
Qed.

Lemma init_preds_keep js : forall ps j,
  j ∉ js \/ neighbour j = false -> init_preds js ps !! j = ps !! j.
Proof.
  induction js as [|a js IH]; intros ps j Hj; [reflexivity |].
  unfold init_preds in *. simpl. rewrite IH.
  - destruct (neighbour a) eqn:Ha; [| reflexivity].
    apply list_lookup_insert_ne. intros ->.
    destruct Hj as [Hj | Hj]; [apply Hj, list_elem_of_here | congruence].
  - destruct Hj as [Hj | Hj]; [left | right; exact Hj].
    intros Hin. apply Hj. by apply list_elem_of_further.
Qed.

Lemma init_preds_set js : forall ps j,
  j ∈ js -> neighbour j = true -> j < length ps ->
  init_preds js ps !! j = Some (Some j).
Proof.
  induction js as [|a js IH]; intros ps j Hin Hn Hj.
  { exfalso. revert Hin. apply not_elem_of_nil. }
  apply elem_of_cons in Hin.
  change (init_preds (a :: js) ps)
    with (init_preds js (if neighbour a then <[a := Some a]> ps else ps)).
  destruct (decide (j ∈ js)) as [Hjs | Hjs].
  - apply IH; auto. destruct (neighbour a); rewrite ?length_insert; exact Hj.
  - destruct Hin as [-> | Hin]; [| contradiction].
    rewrite init_preds_keep by auto. rewrite Hn.
    by apply list_lookup_insert_eq.
Qed.

(** The loop of [__init__] over any list of nodes. *)
Lemma init_loop_run o js : forall s,
  wf_cost -> dist_table s !! nodeid = Some o ->
  length (predecessors s) = NUM_NODES ->
  Forall (fun i => i < NUM_NODES) js ->
  for_each js init_body s =
  Ok tt (mkState (heap s) (dist_table s) (init_preds js (predecessors s))
           (link_layer s ++
            map (fun i => Packet.make (Z.of_nat nodeid) (Z.of_nat i) o)
                (filter (fun i => neighbour i = true) js))).
Proof.
  induction js as [|i js IH]; intros s C Ho Hp Hjs; simpl.
  - rewrite app_nil_r. destruct s; reflexivity.
  - inversion Hjs as [|? ? Hi Hjs']; subst.
    assert (init_body i s =
            Ok tt (mkState (heap s) (dist_table s)
                     (if neighbour i then <[i := Some i]> (predecessors s)
                      else predecessors s)
                     (link_layer s ++
                      if neighbour i then [Packet.make (Z.of_nat nodeid) (Z.of_nat i) o]
                      else []))) as Hbody.
    { unfold init_body, neighbour.
      destruct (decide (i <> nodeid)) as [Hne | He].
      - rewrite (bind_ok _ _ _ _ _ (get_link_cost_run i s C Hi)).
        rewrite (bool_decide_eq_true_2 _ Hne). simpl.
        destruct (decide (link_cost i <> inf)) as [Hf | Hf].
        + rewrite (bool_decide_eq_true_2 _ Hf).
          rewrite (bind_ok _ _ _ o s); [| by apply lift_ok].
          unfold bind, to_link_layer, predecessors_set. simpl.
          destruct (decide (i < length (predecessors s))); [reflexivity | lia].
        + rewrite (bool_decide_eq_false_2 _ Hf).
          rewrite app_nil_r. destruct s; reflexivity.
      - rewrite (bool_decide_eq_false_2 _ He). simpl.
        rewrite app_nil_r. destruct s; reflexivity. }
    rewrite (bind_ok _ _ _ _ _ Hbody). rewrite IH; auto.
    2:{ simpl. destruct (neighbour i); rewrite ?length_insert; exact Hp. }
    simpl. rewrite filter_cons.
    destruct (neighbour i) eqn:Hn.
    + destruct (decide (true = true)); [| congruence].
      simpl. rewrite <- app_assoc. reflexivity.
    + destruct (decide (false = true)); [congruence |].
      rewrite app_nil_r. reflexivity.
Qed.

(** For a node of the network and one link cost per node, [__init__]
    returns, and leaves the state [constructed] describes. *)
Lemma init_run s0 :
  wf_cost -> nodeid < NUM_NODES -> init s0 = Ok tt (constructed s0).
Proof.
  intros C Hid. pose proof C as (lcs & Hc & Hl).
  unfold init, bind. rewrite new_rows_run.
  unfold lift. rewrite Hc. unfold new_list, dist_table_set. simpl.
  rewrite length_seq. destruct (decide (nodeid < NUM_NODES)); [| lia].
  rewrite length_app, length_replicate.
  unfold for_range. rewrite (init_loop_run (length (heap s0) + NUM_NODES)); simpl.
  - unfold constructed, broadcast. rewrite Hc. simpl.
    rewrite <- app_assoc. reflexivity.
  - exact C.
  - apply list_lookup_insert_eq. rewrite length_seq. exact Hid.
  - apply length_replicate.
  - apply seq_bound.
Qed.

(** The state [__init__] returns is well formed. *)
Lemma constructed_table_lookup s0 i :
  i < NUM_NODES ->
  dist_table (constructed s0) !! i =
  Some (if decide (i = nodeid) then length (heap s0) + NUM_NODES
        else length (heap s0) + i).
Proof.
  intros Hi. simpl. destruct (decide (i = nodeid)) as [-> | Hne].
  - apply list_lookup_insert_eq. rewrite length_seq. exact Hi.
  - rewrite list_lookup_insert_ne by congruence. by apply lookup_seq_lt.
Qed.

Lemma constructed_row_other s0 i :
  i < NUM_NODES -> i <> nodeid ->
  row (constructed s0) i = Some (replicate NUM_NODES inf).
Proof.
  intros Hi Hne. unfold row. rewrite (constructed_table_lookup s0 i Hi).
  destruct (decide (i = nodeid)); [congruence |]. simpl.
  rewrite lookup_app_r by lia.
  replace (length (heap s0) + i - length (heap s0)) with i by lia.
  rewrite lookup_app_l by (rewrite length_replicate; exact Hi).
  by apply lookup_replicate_2.
Qed.

Lemma constructed_row_own s0 lcs :
  cost !! nodeid = Some lcs -> nodeid < NUM_NODES ->
  row (constructed s0) nodeid = Some lcs.
Proof.
  intros Hc Hid. unfold row. rewrite (constructed_table_lookup s0 nodeid Hid).
  destruct (decide (nodeid = nodeid)); [| congruence]. simpl.
  rewrite lookup_app_r by lia.
  replace (length (heap s0) + NUM_NODES - length (heap s0)) with NUM_NODES by lia.
  rewrite lookup_app_r by (rewrite length_replicate; lia).
  rewrite length_replicate, Nat.sub_diag, Hc. reflexivity.
Qed.

Lemma constructed_wf s0 : wf_cost -> nodeid < NUM_NODES -> wf (constructed s0).
Proof.
  intros (lcs & Hc & Hl) Hid. constructor.
  - exact Hid.
  - simpl. rewrite length_insert. apply length_seq.
  - apply NoDup_alt. intros i j x Hi Hj.
    assert (i < NUM_NODES) as Li.
    { apply lookup_lt_Some in Hi. simpl in Hi.
      rewrite length_insert, length_seq in Hi. exact Hi. }
    assert (j < NUM_NODES) as Lj.
    { apply lookup_lt_Some in Hj. simpl in Hj.
      rewrite length_insert, length_seq in Hj. exact Hj. }
    rewrite (constructed_table_lookup s0 i Li) in Hi.
    rewrite (constructed_table_lookup s0 j Lj) in Hj.
    destruct (decide (i = nodeid)), (decide (j = nodeid));
      inversion Hi; inversion Hj; lia.
  - intros i l Hl'.
    assert (i < NUM_NODES) as Li.
    { apply lookup_lt_Some in Hl'. simpl in Hl'.
      rewrite length_insert, length_seq in Hl'. exact Hl'. }
    destruct (decide (i = nodeid)) as [-> | Hne].
    + pose proof (constructed_row_own s0 lcs Hc Hid) as Hr.
      unfold row in Hr. rewrite Hl' in Hr. simpl in Hr. eauto.
    + pose proof (constructed_row_other s0 i Li Hne) as Hr.
      unfold row in Hr. rewrite Hl' in Hr. simpl in Hr.
      eexists. split; [exact Hr | apply length_replicate].
  - simpl. rewrite init_preds_length. apply length_replicate.
Qed.

(** ** Running [update] *)

Lemma py_index_lt n z i : py_index n z = Some i -> i < n.
Proof.
  unfold py_index. intros H.
  destruct (decide (0 <= z < Z.of_nat n)%Z); [inversion H; lia |].
  destruct (decide (- Z.of_nat n <= z < 0)%Z); [inversion H; lia | discriminate].
Qed.

(** [update] on a live vector [v] for the row [i] its source names:
    nothing when the row holds [v], otherwise the row becomes a copy
    and [update_helper] runs. *)
Lemma update_unfold pkt s i v :
  wf s -> py_index NUM_NODES (Packet.get_src pkt) = Some i ->
  heap s !! Packet.get_dist_vector pkt = Some v ->
  update pkt s =
  if decide (row s i = Some v) then Ok tt s
  else update_helper (store_row s i v).
Proof.
  intros W Hi Hv. pose proof (py_index_lt _ _ _ Hi) as Li.
  destruct (wf_row s i W Li) as (l & old & Hl & Hold & Hlen).
  unfold update.
  rewrite (bind_ok _ _ _ i s); [| apply lift_ok; by rewrite (wf_table s W)].
  rewrite (bind_ok _ _ _ l s); [| by apply lift_ok].
  rewrite (bind_ok _ _ _ old s); [| by apply lift_ok].
  rewrite (bind_ok _ _ _ v s); [| by apply lift_ok].
  assert (row s i = Some old) as ->.
  { unfold row. rewrite Hl. exact Hold. }
  destruct (decide (old = v)) as [-> | Hne].
  - destruct (decide (Some v = Some v)); [reflexivity | congruence].
  - destruct (decide (Some old = Some v)) as [E | _]; [congruence |].
    unfold list_copy.
    rewrite (bind_ok _ _ _ (length (heap s))
               (mkState (heap s ++ [v]) (dist_table s) (predecessors s) (link_layer s))).
    2:{ rewrite (bind_ok _ _ _ v s); [reflexivity | by apply lift_ok]. }
    rewrite (bind_ok _ _ _ i
               (mkState (heap s ++ [v]) (dist_table s) (predecessors s) (link_layer s))).
    2:{ apply lift_ok. simpl. by rewrite (wf_table s W). }
    unfold bind at 1. unfold dist_table_set. simpl.
    destruct (decide (i < length (dist_table s))) as [_ | Hge];
      [reflexivity | rewrite (wf_table s W) in Hge; lia].
Qed.

(** Storing a vector of [NUM_NODES] costs keeps the node well formed. *)
Lemma store_row_wf s i v :
  wf s -> i < NUM_NODES -> length v = NUM_NODES -> wf (store_row s i v).
Proof.
  intros W Hi Hv.
  assert (forall j l, dist_table s !! j = Some l -> l < length (heap s)) as Hlive.
  { intros j l Hl. destruct (wf_rows s W j l Hl) as (r & Hr & _).
    by apply lookup_lt_Some in Hr. }
  constructor.
  - apply (wf_nodeid s W).
  - simpl. rewrite length_insert. apply (wf_table s W).
  - apply NoDup_alt. intros a b x Ha Hb. simpl in Ha, Hb.
    apply list_lookup_insert_Some in Ha, Hb.
    destruct Ha as [(-> & <- & _) | (Ha1 & Ha2)];
      destruct Hb as [(-> & Hb & _) | (Hb1 & Hb2)]; auto.
    + apply Hlive in Hb2. lia.
    + apply Hlive in Ha2. lia.
    + eapply wf_row_inj; eauto.
  - intros j l Hl. simpl in Hl. apply list_lookup_insert_Some in Hl.
    destruct Hl as [(-> & <- & _) | (Hne & Hl)]; simpl.
    + exists v. split; [| exact Hv].
      rewrite lookup_app_r by lia. by rewrite Nat.sub_diag.
    + destruct (wf_rows s W j l Hl) as (r & Hr & Hlen).
      exists r. split; [by apply lookup_app_l_Some | exact Hlen].
  - apply (wf_preds s W).
Qed.

Lemma store_row_row s i v :
  i < length (dist_table s) -> row (store_row s i v) i = Some v.
Proof.
  intros Hi. unfold row. simpl. rewrite list_lookup_insert_eq by exact Hi. simpl.
  rewrite lookup_app_r by lia. by rewrite Nat.sub_diag.
Qed.

(** ** What a method keeps, also when it raises *)

Lemma preserves_ret (P : State -> Prop) {A} (a : A) : preserves P (ret a).
Proof. intros s Hs. exact Hs. Qed.

Lemma preserves_lift (P : State -> Prop) {A} (f : State -> option A) :
  preserves P (lift f).
Proof. intros s Hs. unfold lift. destruct (f s); exact Hs. Qed.

Lemma preserves_bind (P : State -> Prop) {A B} (m : M A) (k : A -> M B) :
  preserves P m -> (forall a, preserves P (k a)) -> preserves P (bind m k).
Proof.
  intros Hm Hk s Hs. unfold bind. specialize (Hm s Hs).
  destruct (m s) as [a s' | s']; simpl in Hm; [by apply Hk | exact Hm].
Qed.

(** The value a read returns may be used for the rest. *)
Lemma preserves_read (P : State -> Prop) {A B} (f : State -> option A) (k : A -> M B) :
  (forall s a, P s -> f s = Some a -> P (state_of (k a s))) ->
  preserves P (bind (lift f) k).
Proof.
  intros Hk s Hs. unfold bind, lift.
  destruct (f s) as [a |] eqn:E; [by apply Hk | exact Hs].
Qed.

Lemma preserves_for_each (P : State -> Prop) l body :
  (forall i, preserves P (body i)) -> preserves P (for_each l body).
Proof.
  intros Hb. induction l as [|i l IH]; simpl.
  - apply preserves_ret.
  - apply preserves_bind; [apply Hb | intros _; exact IH].
Qed.

(** [update_helper] keeps whatever its three writes keep: an entry of
    the own row other than the node's own, a predecessor, a packet
    handed over. *)
Section Frame.

Variable P : State -> Prop.
Hypothesis P_set : forall s o d x,
  P s -> dist_table s !! nodeid = Some o -> d <> nodeid ->
  P (state_of (list_set o d x s)).
Hypothesis P_pred : forall d p, preserves P (predecessors_set d p).
Hypothesis P_send : forall pkt, preserves P (to_link_layer pkt).

Lemma relax_body_preserves d v : d <> nodeid -> preserves P (relax_body d v).
Proof.
  intros Hd. unfold relax_body.
  apply preserves_bind; [apply preserves_lift | intros lc].
  apply preserves_bind; [apply preserves_lift | intros r].
  apply preserves_bind; [apply preserves_lift | intros x].
  apply preserves_bind; [apply preserves_lift | intros l].
  apply preserves_bind; [apply preserves_lift | intros cur].
  destruct (ltb (add lc x) cur); [| apply preserves_ret].
  apply preserves_read. intros s o Hs Ho.
  unfold bind. pose proof (P_set s o d (add lc x) Hs Ho Hd) as Hset.
  destruct (list_set o d (add lc x) s) as [[] s' | s']; simpl in Hset;
    [by apply P_pred | exact Hset].
Qed.

Lemma dest_body_preserves d : preserves P (dest_body d).
Proof.
  unfold dest_body. destruct (decide (d = nodeid)) as [_ | Hd];
    [apply preserves_ret |].
  apply preserves_read. intros s o Hs Ho.
  unfold bind. pose proof (P_set s o d inf Hs Ho Hd) as Hset.
  destruct (list_set o d inf s) as [[] s' | s']; simpl in Hset; [| exact Hset].
  unfold for_range. apply preserves_for_each; [| exact Hset].
  intros v. by apply relax_body_preserves.
Qed.

Lemma notify_body_preserves i : preserves P (notify_body i).
Proof.
  unfold notify_body. destruct (decide (i <> nodeid)); [| apply preserves_ret].
  apply preserves_bind; [apply preserves_lift | intros c].
  destruct (decide (c <> inf)); [| apply preserves_ret].
  apply preserves_bind; [apply preserves_lift | intros l]. apply P_send.
Qed.

Lemma update_helper_preserves : preserves P update_helper.
Proof.
  unfold update_helper.
  apply preserves_bind; [apply preserves_lift | intros l].
  apply preserves_bind; [apply preserves_lift | intros temp].
  apply preserves_bind.
  { unfold for_range. apply preserves_for_each. apply dest_body_preserves. }
  intros _.
  apply preserves_bind; [apply preserves_lift | intros l'].
  apply preserves_bind; [apply preserves_lift | intros now].
  destruct (decide (temp = now)); [apply preserves_ret |].
  unfold for_range. apply preserves_for_each. apply notify_body_preserves.
Qed.

End Frame.

(** The node's distance to itself survives every write of
    [update_helper]. *)
Lemma update_helper_own_zero : preserves own_zero update_helper.
Proof.
  apply update_helper_preserves.
  - intros s o d x (o' & r & Ho' & Hr & Hz) Ho Hd.
    assert (o' = o) by congruence. subst o'.
    unfold list_set. rewrite Hr.
    destruct (decide (d < length r)); simpl; [| by exists o, r].
    exists o, (<[d := x]> r). split; [exact Ho |]. split.
    + apply list_lookup_insert_eq. by apply lookup_lt_Some in Hr.
    + rewrite list_lookup_insert_ne by exact Hd. exact Hz.
  - intros d p s Hs. unfold predecessors_set.
    destruct (decide (d < length (predecessors s))); exact Hs.
  - intros pkt s Hs. exact Hs.
Qed.

(** ** The least candidate *)

Lemma best_unique s d x :
  (forall v, v < NUM_NODES -> le x (cand s d v)) ->
  (x = inf \/ exists v, v < NUM_NODES /\ x = cand s d v) ->
  x = best s d.
Proof.
  intros Hle Hin. unfold best. apply min_list_unique.
  - intros y Hy. apply list_elem_of_fmap in Hy as (v & -> & Hv).
    apply elem_of_seq in Hv. apply Hle. lia.
  - destruct Hin as [-> | (v & Hv & ->)]; [by left | right].
    apply list_elem_of_fmap. exists v. split; [reflexivity |].
    apply elem_of_seq. lia.
Qed.

Lemma recompute_cand s d v :
  wf s -> v <> nodeid -> cand (recompute s) d v = cand s d v.
Proof. intros W Hv. unfold cand. by rewrite recompute_other. Qed.

Lemma recompute_row_other s j :
  wf s -> j <> nodeid -> row (recompute s) j = row s j.
Proof.
  intros W Hj. destruct (wf_own s W) as (o & old & Ho & Hold & Hlen).
  unfold row. rewrite recompute_dist_table.
  destruct (dist_table s !! j) as [l |] eqn:Hl; [| reflexivity].
  simpl. unfold recompute. rewrite Ho, Hold. simpl.
  apply list_lookup_insert_ne.
  intros ->. apply Hj. symmetry. eapply wf_row_inj; eauto.
Qed.

(** After [update_helper] every other destination is relaxed, when the
    node's link to itself does not cost less than nothing. *)
Lemma recompute_relaxed s d :
  wf s -> le (Int 0) (link_cost nodeid) ->
  d < NUM_NODES -> d <> nodeid -> relaxed (recompute s) d.
Proof.
  intros W Hself Hd Hne.
  pose proof (relax_found s d (predecessor s d) Hself) as [Ha Hb].
  pose proof (recompute_own s W d Hd Hne) as Hown.
  set (m := (relax s d (predecessor s d)).1) in *.
  assert (forall u, u < NUM_NODES -> le m (cand (recompute s) d u)) as Hle.
  { intros u Hu. destruct (decide (u = nodeid)) as [-> | Hun].
    - unfold cand. rewrite Hown. by apply le_add_nonneg.
    - rewrite recompute_cand by assumption. by apply Ha. }
  unfold relaxed. rewrite Hown. split; [| split].
  - apply best_unique; [exact Hle |].
    destruct Hb as [[Hb _] | (v0 & Hv0 & Hv0n & _ & Hc & _)]; [by left | right].
    exists v0. split; [exact Hv0 |]. by rewrite recompute_cand.
  - exact Hle.
  - intros Hfin. destruct Hb as [[Hb _] | (v0 & Hv0 & Hv0n & Hp & Hc & _)];
      [contradiction |].
    exists v0. rewrite (recompute_predecessor s W d Hd Hne), recompute_cand by assumption.
    auto.
Qed.

(** At construction the own row is the link costs, which is the least
    candidate through the node's own term when the link to itself
    costs nothing. *)
Lemma constructed_best s0 d :
  wf_cost -> nodeid < NUM_NODES -> link_cost nodeid = Int 0 ->
  d < NUM_NODES -> d <> nodeid ->
  table (constructed s0) nodeid d = link_cost d /\
  table (constructed s0) nodeid d = best (constructed s0) d.
Proof.
  intros C Hid Hz Hd Hne. pose proof C as (lcs & Hc & Hl).
  assert (table (constructed s0) nodeid d = link_cost d) as Hown.
  { unfold table. rewrite (constructed_row_own s0 lcs Hc Hid).
    unfold link_cost. rewrite Hc. reflexivity. }
  split; [exact Hown |]. rewrite Hown.
  assert (cand (constructed s0) d nodeid = link_cost d) as Hself.
  { unfold cand. rewrite Hown, Hz. destruct (link_cost d); simpl; reflexivity. }
  apply best_unique.
  - intros v Hv. destruct (decide (v = nodeid)) as [-> | Hvn].
    + rewrite Hself. apply le_refl.
    + unfold cand, table. rewrite (constructed_row_other s0 v Hv Hvn). simpl.
      rewrite lookup_replicate_2 by exact Hd. simpl.
      destruct (link_cost v); apply le_inf.
  - right. exists nodeid. split; [exact Hid | by rewrite Hself].
Qed.

(** A changed vector of [NUM_NODES] costs: [update] stores a copy and
    relaxes. *)
Lemma update_changed_run pkt s i v :
  wf s -> wf_cost ->
  py_index NUM_NODES (Packet.get_src pkt) = Some i ->
  heap s !! Packet.get_dist_vector pkt = Some v ->
  length v = NUM_NODES -> row s i <> Some v ->
  update pkt s = Ok tt (recompute (store_row s i v)).
Proof.
  intros W C Hi Hv Hlen Hne.
  rewrite (update_unfold pkt s i v W Hi Hv).
  destruct (decide (row s i = Some v)); [contradiction |].
  apply update_helper_run; [| exact C].
  apply store_row_wf; auto. eapply py_index_lt; eauto.
Qed.

(** An object the environment allocates leaves the node as it is. *)
Lemma alloc_wf s v :
  wf s ->
  wf (mkState (heap s ++ [v]) (dist_table s) (predecessors s) (link_layer s)).
Proof.
  intros W. constructor; simpl; try apply W.
  intros i l Hl. destruct (wf_rows s W i l Hl) as (r & Hr & Hlen).
  exists r. split; [by apply lookup_app_l_Some | exact Hlen].
Qed.

(** ** Properties of the entry points *)

(** C1, as amended. After [link_cost_change_handler], and after
    [update] with a vector that differs from the stored row, every
    destination other than the node itself is relaxed: the own row
    holds the minimum over all nodes [v] of
    [link_cost v + table[v][d]] in the resulting table, and when it is
    finite the predecessor is a node achieving it. This needs a
    well-formed node whose link to itself does not cost less than
    nothing. After [__init__] the own row equals that minimum as well
    (through the term of the node itself, whose link costs 0); the
    predecessors it sets are not claimed to achieve it. *)
Theorem recompute_relaxes_own_row s :
  wf s -> wf_cost -> le (Int 0) (link_cost nodeid) ->
  (forall which_link new_cost, exists s',
     link_cost_change_handler which_link new_cost s = Ok tt s' /\
     forall d, d < NUM_NODES -> d <> nodeid -> relaxed s' d) /\
  (forall pkt i v,
     py_index NUM_NODES (Packet.get_src pkt) = Some i ->
     heap s !! Packet.get_dist_vector pkt = Some v ->
     length v = NUM_NODES -> row s i <> Some v ->
     exists s', update pkt s = Ok tt s' /\
       forall d, d < NUM_NODES -> d <> nodeid -> relaxed s' d) /\
  (link_cost nodeid = Int 0 -> forall s0, exists s',
     init s0 = Ok tt s' /\
     forall d, d < NUM_NODES -> d <> nodeid -> table s' nodeid d = best s' d).
Proof.
  intros W C Hself. split; [| split].
  - intros w c. exists (recompute s). split.
    + unfold link_cost_change_handler. by apply update_helper_run.
    + intros d Hd Hne. by apply recompute_relaxed.
  - intros pkt i v Hi Hv Hlen Hne. exists (recompute (store_row s i v)). split.
    + by apply update_changed_run.
    + intros d Hd Hdn. apply recompute_relaxed; auto.
      apply store_row_wf; auto. eapply py_index_lt; eauto.
  - intros Hz s0. exists (constructed s0). split.
    + apply init_run; [exact C | apply (wf_nodeid s W)].
    + intros d Hd Hne. apply constructed_best; auto. apply (wf_nodeid s W).
Qed.

(** C2. For a node of the network and one link cost per node,
    [__init__] returns and leaves: every row but the node's own all
    [inf]; the own row a list equal to the link costs; predecessor [j]
    for every neighbour [j] (a node other than this one with a finite
    link cost) and [None] for the others; and, added to what the link
    layer held, one packet [(nodeid, j, own row)] per neighbour [j],
    in increasing order of [j], and nothing else. *)
Theorem init_state s0 :
  wf_cost -> nodeid < NUM_NODES ->
  exists s' own,
    init s0 = Ok tt s' /\
    dist_table s' !! nodeid = Some own /\
    row s' nodeid = cost !! nodeid /\
    (forall i, i < NUM_NODES -> i <> nodeid ->
       row s' i = Some (replicate NUM_NODES inf)) /\
    (forall j, j < NUM_NODES -> table s' nodeid j = link_cost j) /\
    (forall j, j < NUM_NODES ->
       predecessors s' !! j = Some (if neighbour j then Some j else None)) /\
    link_layer s' = link_layer s0 ++ broadcast own.
Proof.
  intros C Hid. pose proof C as (lcs & Hc & Hl).
  exists (constructed s0), (length (heap s0) + NUM_NODES).
  split; [by apply init_run |].
  split. { rewrite (constructed_table_lookup s0 nodeid Hid).
           destruct (decide (nodeid = nodeid)); [reflexivity | congruence]. }
  split. { rewrite Hc. by apply constructed_row_own. }
  split. { intros i Hi Hne. by apply constructed_row_other. }
  split. { intros j Hj. unfold table.
           rewrite (constructed_row_own s0 lcs Hc Hid).
           unfold link_cost. rewrite Hc. reflexivity. }
  split; [| reflexivity].
  intros j Hj. simpl. destruct (neighbour j) eqn:Hn.
  - apply init_preds_set; [apply elem_of_seq; lia | exact Hn |].
    rewrite length_replicate. exact Hj.
  - rewrite init_preds_keep by auto. by apply lookup_replicate_2.
Qed.

(** The packets of a round go to the neighbours, one each. *)
Lemma broadcast_once o :
  NoDup (broadcast o) /\
  forall pkt, pkt ∈ broadcast o <->
    exists j, j < NUM_NODES /\ neighbour j = true /\
              pkt = Packet.make (Z.of_nat nodeid) (Z.of_nat j) o.
Proof.
  unfold broadcast. split.
  - apply NoDup_fmap_2_strong; [| apply list.NoDup_filter, NoDup_seq].
    intros a b _ _ E. inversion E. lia.
  - intros pkt. rewrite list_elem_of_fmap. split.
    + intros (j & -> & Hj). apply list_elem_of_filter in Hj as [Hn Hj].
      apply elem_of_seq in Hj. exists j. split; [lia | auto].
    + intros (j & Hj & Hn & ->). exists j. split; [reflexivity |].
      apply list_elem_of_filter. split; [exact Hn | apply elem_of_seq; lia].
Qed.

(** C3. On a well-formed node [update_helper] returns; it hands
    packets to the link layer exactly when the own row it computed
    differs from the row it found. Then it adds one packet
    [(nodeid, j, own row)] per neighbour [j], the own row being the
    list object that now holds the computed row. When the row is
    unchanged, the link layer and every list object are as before. *)
Theorem update_helper_broadcast s :
  wf s -> wf_cost ->
  exists s' own,
    update_helper s = Ok tt s' /\
    dist_table s !! nodeid = Some own /\ dist_table s' = dist_table s /\
    heap s' !! own = row s' nodeid /\
    (row s' nodeid = row s nodeid ->
       link_layer s' = link_layer s /\ heap s' = heap s) /\
    (row s' nodeid <> row s nodeid ->
       link_layer s' = link_layer s ++ broadcast own).
Proof.
  intros W C. destruct (wf_own s W) as (o & old & Ho & Hold & Hlen).
  exists (recompute s), o.
  split; [by apply update_helper_run |].
  split; [exact Ho |].
  split; [by apply recompute_dist_table |].
  split. { unfold row. rewrite (recompute_dist_table s), Ho. reflexivity. }
  rewrite (recompute_link_layer s W o Ho). split.
  - intros E. destruct (decide (row s nodeid = row (recompute s) nodeid));
      [| congruence].
    split; [apply app_nil_r |].
    rewrite (recompute_own_row s o old Ho Hold) in E.
    unfold row in E. rewrite Ho in E. simpl in E. rewrite Hold in E.
    inversion E as [E']. unfold recompute. rewrite Ho, Hold. simpl.
    rewrite E'. by apply list_insert_id.
  - intros E. destruct (decide (row s nodeid = row (recompute s) nodeid));
      [congruence | reflexivity].
Qed.

(** [update_helper] writes one list object, the own row. *)
Lemma recompute_heap_other s l :
  wf s -> dist_table s !! nodeid <> Some l ->
  heap (recompute s) !! l = heap s !! l.
Proof.
  intros W Hl. destruct (wf_own s W) as (o & old & Ho & Hold & Hlen).
  unfold recompute. rewrite Ho, Hold. simpl.
  apply list_lookup_insert_ne. congruence.
Qed.

(** C4. An advertisement whose vector equals the row stored for its
    source changes nothing and sends nothing: [update] returns the
    state it was given. So the same advertisement delivered twice in a
    row (from another node, a vector of [NUM_NODES] costs that is not
    the node's own row object) leaves the second delivery without any
    effect, whatever the first one did. *)
Theorem update_same_vector pkt s i v :
  wf s -> py_index NUM_NODES (Packet.get_src pkt) = Some i ->
  heap s !! Packet.get_dist_vector pkt = Some v ->
  (row s i = Some v -> update pkt s = Ok tt s) /\
  (wf_cost -> length v = NUM_NODES -> i <> nodeid ->
   dist_table s !! nodeid <> Some (Packet.get_dist_vector pkt) ->
   exists s1, update pkt s = Ok tt s1 /\ update pkt s1 = Ok tt s1).
Proof.
  intros W Hi Hv. pose proof (py_index_lt _ _ _ Hi) as Li. split.
  - intros E. rewrite (update_unfold pkt s i v W Hi Hv).
    destruct (decide (row s i = Some v)); [reflexivity | contradiction].
  - intros C Hlen Hne Hvec.
    destruct (decide (row s i = Some v)) as [E | E].
    + exists s. rewrite (update_unfold pkt s i v W Hi Hv).
      destruct (decide (row s i = Some v)); [auto | contradiction].
    + pose proof (store_row_wf s i v W Li Hlen) as W1.
      pose proof (recompute_wf _ W1) as W2.
      exists (recompute (store_row s i v)).
      split; [by apply update_changed_run |].
      assert (heap (recompute (store_row s i v)) !! Packet.get_dist_vector pkt = Some v)
        as Hv2.
      { rewrite recompute_heap_other; [by apply lookup_app_l_Some | exact W1 |].
        simpl. rewrite list_lookup_insert_ne by congruence. exact Hvec. }
      rewrite (update_unfold pkt _ i v W2 Hi Hv2).
      destruct (decide (row (recompute (store_row s i v)) i = Some v)) as [_ | N];
        [reflexivity |].
      exfalso. apply N. rewrite recompute_row_other by assumption.
      apply store_row_row. by rewrite (wf_table s W).
Qed.

Lemma own_zero_table s : own_zero s <-> table s nodeid nodeid = Int 0.
Proof.
  unfold own_zero, table, row. split.
  - intros (o & r & -> & Hr & Hz). simpl. rewrite Hr. simpl. by rewrite Hz.
  - intros H. destruct (dist_table s !! nodeid) as [o |]; [| discriminate].
    simpl in H. destruct (heap s !! o) as [r |] eqn:Hr; [| discriminate].
    simpl in H. destruct (r !! nodeid) as [x |] eqn:Hx; [| discriminate].
    simpl in H. subst x. by exists o, r.
Qed.

Lemma state_of_read {A B} (f : State -> option A) (k : A -> M B) s :
  state_of (bind (lift f) k s) =
  match f s with Some a => state_of (k a s) | None => s end.
Proof. unfold bind, lift. destruct (f s); reflexivity. Qed.

Lemma list_copy_run l s v :
  heap s !! l = Some v ->
  list_copy l s =
  Ok (length (heap s))
     (mkState (heap s ++ [v]) (dist_table s) (predecessors s) (link_layer s)).
Proof.
  intros Hv. unfold list_copy.
  rewrite (bind_ok _ _ _ v s); [reflexivity | by apply lift_ok].
Qed.

(** [update] from another node keeps the node's distance to itself. *)
Lemma update_own_zero pkt s :
  own_zero s ->
  py_index (length (dist_table s)) (Packet.get_src pkt) <> Some nodeid ->
  own_zero (state_of (update pkt s)).
Proof.
  intros Hs Hsrc. unfold update. rewrite state_of_read.
  destruct (py_index (length (dist_table s)) (Packet.get_src pkt)) as [i |] eqn:Hi;
    [| exact Hs].
  unfold dist_table_get. rewrite state_of_read.
  destruct (dist_table s !! i) as [l |]; [| exact Hs].
  unfold list_read. rewrite state_of_read.
  destruct (heap s !! l) as [old |]; [| exact Hs].
  rewrite state_of_read.
  destruct (heap s !! Packet.get_dist_vector pkt) as [v |] eqn:Hv; [| exact Hs].
  destruct (decide (old = v)); [exact Hs |].
  rewrite (bind_ok _ _ _ _ _ (list_copy_run _ s v Hv)).
  rewrite state_of_read. simpl. rewrite Hi.
  assert (own_zero (mkState (heap s ++ [v]) (dist_table s) (predecessors s)
                            (link_layer s))) as Hs1.
  { destruct Hs as (o & r & Ho & Hr & Hz). exists o, r.
    split; [exact Ho |]. split; [by apply lookup_app_l_Some | exact Hz]. }
  unfold bind, dist_table_set. simpl.
  destruct (decide (i < length (dist_table s))); [| exact Hs1].
  apply update_helper_own_zero.
  destruct Hs1 as (o & r & Ho & Hr & Hz). exists o, r. simpl in *.
  split; [| auto]. rewrite list_lookup_insert_ne by congruence. exact Ho.
Qed.

(** C5. The node's distance to itself is 0 at all times: [__init__]
    leaves it so when the node's link to itself costs 0, and [update]
    for an advertisement of another node and
    [link_cost_change_handler] keep it, whether they return or raise
    and whatever the link costs are by then. *)
Theorem self_distance_zero :
  (forall s0, wf_cost -> nodeid < NUM_NODES -> link_cost nodeid = Int 0 ->
     exists s, init s0 = Ok tt s /\ table s nodeid nodeid = Int 0) /\
  (forall pkt s, table s nodeid nodeid = Int 0 ->
     py_index (length (dist_table s)) (Packet.get_src pkt) <> Some nodeid ->
     table (state_of (update pkt s)) nodeid nodeid = Int 0) /\
  (forall which_link new_cost s, table s nodeid nodeid = Int 0 ->
     table (state_of (link_cost_change_handler which_link new_cost s))
           nodeid nodeid = Int 0).
Proof.
  split; [| split].
  - intros s0 C Hid Hz. exists (constructed s0).
    split; [by apply init_run |].
    destruct C as (lcs & Hc & Hl). unfold table.
    rewrite (constructed_row_own s0 lcs Hc Hid).
    unfold link_cost in Hz. rewrite Hc in Hz. exact Hz.
  - intros pkt s Hs Hsrc. apply own_zero_table. apply update_own_zero; [| exact Hsrc].
    by apply own_zero_table.
  - intros w c s Hs. apply own_zero_table. unfold link_cost_change_handler.
    apply update_helper_own_zero. by apply own_zero_table.
Qed.

(** The relaxation reads the rows, not the objects that hold them. *)
Lemma relax_dests_rows s t ds acc :
  (forall i, row t i = row s i) ->
  fold_left (relax_dest t) ds acc = fold_left (relax_dest s) ds acc.
Proof.
  intros H.
  assert (forall d p, relax t d p = relax s d p) as Hr.
  { intros d p. unfold relax. generalize (inf, p) as a.
    induction (seq 0 NUM_NODES) as [|v vs IH]; intros a; simpl; [reflexivity |].
    rewrite IH. f_equal. unfold relax_step, table. by rewrite H. }
  revert acc. induction ds as [|d ds IH]; intros acc; simpl; [reflexivity |].
  rewrite IH. f_equal. unfold relax_dest.
  destruct (decide (d = nodeid)); [reflexivity |]. by rewrite Hr.
Qed.

(** C6, as amended. Of the nodes whose candidate
    [link_cost v + table[v][d]] is the minimum, [update_helper] keeps
    the first it evaluates: the predecessor of a destination left with
    a finite cost is the first node, in the order of the loop, whose
    candidate is that cost; every earlier candidate is strictly larger
    and no candidate is smaller, so a later tie does not overwrite it.
    The candidate of the node itself is taken on the cost the loop has
    reached, and when the node's link to itself does not cost less
    than nothing it never wins: in the resulting table the predecessor
    is the smallest node other than this one whose candidate is the
    cost, although the node's own candidate may be that cost as well.
    The result is a function of what the node holds, not of the list
    objects that hold it: two nodes with equal rows and equal
    predecessors end with equal rows and equal predecessors, and send
    the same vectors to the same nodes. *)
Theorem tie_break_lowest_index s :
  wf s -> wf_cost ->
  exists s', update_helper s = Ok tt s' /\
    (forall d, d < NUM_NODES -> d <> nodeid -> table s' nodeid d <> inf ->
       exists v0, predecessor s' d = Some v0 /\
                  first_evaluated s d (predecessor s d) NUM_NODES
                                  (table s' nodeid d) v0 /\
                  (le (Int 0) (link_cost nodeid) ->
                   first_best s' d v0 /\
                   forall v, v < NUM_NODES -> v <> nodeid ->
                             cand s' d v = table s' nodeid d -> v0 <= v)) /\
    (forall t, wf t -> (forall i, row t i = row s i) ->
       predecessors t = predecessors s ->
       exists t' ns nt,
         update_helper t = Ok tt t' /\
         (forall i, row t' i = row s' i) /\
         predecessors t' = predecessors s' /\
         link_layer s' = link_layer s ++ ns /\
         link_layer t' = link_layer t ++ nt /\
         map (fun p => (Packet.get_src p, Packet.get_dst p,
                        heap t' !! Packet.get_dist_vector p)) nt =
         map (fun p => (Packet.get_src p, Packet.get_dst p,
                        heap s' !! Packet.get_dist_vector p)) ns).
Proof.
  intros W C. exists (recompute s).
  split; [by apply update_helper_run |]. split.
  - intros d Hd Hne Hfin.
    rewrite (recompute_predecessor s W d Hd Hne).
    rewrite (recompute_own s W d Hd Hne) in *.
    destruct (relax_upto_first s d (predecessor s d) NUM_NODES) as [_ Hb].
    destruct (Hb Hfin) as (v0 & Hp & Hfirst).
    exists v0. split; [exact Hp |]. split; [exact Hfirst |].
    intros Hself.
    pose proof (relax_found s d (predecessor s d) Hself) as [_ Hf].
    destruct Hf as [[Hf _] | (v1 & Hv1 & Hv1n & Hp1 & Hc & _ & Hbefore)];
      [contradiction |].
    assert (v1 = v0) as ->.
    { unfold relax in Hp1. unfold relax_upto in Hp. congruence. }
    assert (first_best (recompute s) d v0) as Hfb.
    { unfold first_best. rewrite (recompute_own s W d Hd Hne).
      rewrite recompute_cand by assumption. repeat split; auto.
      intros v Hv Hvn. rewrite recompute_cand by assumption. by apply Hbefore. }
    split; [exact Hfb |].
    intros v Hv Hvn Htie. destruct (decide (v0 <= v)) as [Hle | Hgt]; [exact Hle |].
    destruct Hfb as (_ & _ & _ & Hlow).
    specialize (Hlow v ltac:(lia) Hvn).
    rewrite (recompute_own s W d Hd Hne), Htie, ltb_irrefl in Hlow.
    discriminate.
  - intros t Wt Hrows Hpreds.
    destruct (wf_own s W) as (o & old & Ho & Hold & Hlen).
    destruct (wf_own t Wt) as (ot & oldt & Hot & Holdt & Hlent).
    assert (row s nodeid = Some old) as Hrow. { unfold row. by rewrite Ho. }
    assert (row t nodeid = Some old) as Hrowt. { by rewrite Hrows. }
    assert (oldt = old) as ->.
    { unfold row in Hrowt. rewrite Hot in Hrowt. simpl in Hrowt. congruence. }
    assert (forall i, row (recompute t) i = row (recompute s) i) as Hrows'.
    { intros i. destruct (decide (i = nodeid)) as [-> | Hi].
      - rewrite (recompute_own_row t ot old Hot Holdt).
        rewrite (recompute_own_row s o old Ho Hold).
        by rewrite (relax_dests_rows s t), Hpreds.
      - rewrite !recompute_row_other by assumption. apply Hrows. }
    exists (recompute t),
      (if decide (row s nodeid = row (recompute s) nodeid) then [] else broadcast o),
      (if decide (row s nodeid = row (recompute s) nodeid) then [] else broadcast ot).
    split; [by apply update_helper_run |]. split; [exact Hrows' |].
    split.
    { rewrite (recompute_predecessors t Wt), (recompute_predecessors s W).
      by rewrite (relax_dests_rows s t), Hrows, Hpreds. }
    split; [by apply recompute_link_layer |].
    split.
    { rewrite (recompute_link_layer t Wt ot Hot), Hrows, Hrows'. reflexivity. }
    destruct (decide (row s nodeid = row (recompute s) nodeid)); [reflexivity |].
    unfold broadcast. rewrite !map_map. apply map_ext. intros j. simpl.
    f_equal.
    pose proof (Hrows' nodeid) as E. unfold row in E.
    rewrite !recompute_dist_table, Hot, Ho in E. exact E.
Qed.

(** C7, as amended. [update_helper] never resets a predecessor: for a
    destination whose cost it leaves infinite, [get_predecessor]
    returns what it returned before, the unset [None] only when no
    predecessor was ever written. *)
Theorem unreachable_keeps_predecessor s :
  wf s -> wf_cost ->
  exists s', update_helper s = Ok tt s' /\
    forall d, d < NUM_NODES -> d <> nodeid -> table s' nodeid d = inf ->
      forall p, get_predecessor d s = Ok p s -> get_predecessor d s' = Ok p s'.
Proof.
  intros W C. exists (recompute s). split; [by apply update_helper_run |].
  intros d Hd Hne Hinf p Hp.
  rewrite (recompute_own s W d Hd Hne) in Hinf. apply relax_inf in Hinf.
  rewrite <- (recompute_predecessor s W d Hd Hne) in Hinf.
  unfold get_predecessor, lift in *.
  destruct (predecessors s !! d) as [q |] eqn:Hq; [| discriminate].
  inversion Hp; subst q.
  unfold predecessor in Hinf. rewrite Hq in Hinf. simpl in Hinf.
  pose proof (recompute_wf s W) as W'.
  rewrite (lookup_default_pred (predecessors (recompute s)) d).
  - rewrite Hinf. reflexivity.
  - rewrite (wf_preds _ W'). exact Hd.
Qed.

(** [update_helper] leaves the row of another node where [update]
    put it. *)
Lemma update_helper_keeps_row i v :
  i <> nodeid ->
  preserves (fun t => exists c o, dist_table t !! i = Some c /\
                                  heap t !! c = Some v /\
                                  dist_table t !! nodeid = Some o /\ c <> o)
            update_helper.
Proof.
  intros Hi. apply update_helper_preserves.
  - intros s o d x (c & o' & Hc & Hv & Ho' & Hne) Ho Hd.
    assert (o' = o) by congruence. subst o'.
    unfold list_set. destruct (heap s !! o) as [r |]; [| by exists c, o].
    destruct (decide (d < length r)); simpl; [| by exists c, o].
    exists c, o. repeat split; auto.
    rewrite list_lookup_insert_ne by congruence. exact Hv.
  - intros d p s Hs. unfold predecessors_set.
    destruct (decide (d < length (predecessors s))); exact Hs.
  - intros pkt s Hs. exact Hs.
Qed.

(** C10. [link_cost_change_handler] does not read its arguments: on a
    well-formed node every pair of arguments gives one and the same
    result, the state and the packets sent alike. That result is the
    full relaxation against the link costs the simulator holds when the
    handler runs, also when [new_cost] is the cost the link already
    had: for every destination the own row and the predecessor are the
    ones the loop over all nodes computes, every destination is relaxed
    when the node's link to itself does not cost less than nothing,
    and one packet per neighbour is sent exactly when the own row has
    changed. *)
Theorem link_cost_change_handler_ignores_arguments s :
  wf s -> wf_cost ->
  exists s' own,
    (forall which_link new_cost,
       link_cost_change_handler which_link new_cost s = Ok tt s') /\
    (forall d, d < NUM_NODES -> d <> nodeid ->
       table s' nodeid d = (relax s d (predecessor s d)).1 /\
       predecessor s' d = (relax s d (predecessor s d)).2) /\
    (le (Int 0) (link_cost nodeid) ->
     forall d, d < NUM_NODES -> d <> nodeid -> relaxed s' d) /\
    dist_table s !! nodeid = Some own /\
    link_layer s' =
    link_layer s ++
    if decide (row s nodeid = row s' nodeid) then [] else broadcast own.
Proof.
  intros W C. destruct (wf_own s W) as (o & old & Ho & Hold & Hlen).
  exists (recompute s), o. split; [| split; [| split; [| split]]].
  - intros w c. unfold link_cost_change_handler. by apply update_helper_run.
  - intros d Hd Hne. split; [by apply recompute_own | by apply recompute_predecessor].
  - intros Hself d Hd Hne. by apply recompute_relaxed.
  - exact Ho.
  - by apply recompute_link_layer.
Qed.

(** ** Further properties of the relaxation *)

Lemma le_add_mono a b c : le b c -> le (add a b) (add a c).
Proof.
  unfold le. destruct a, b, c; simpl; try congruence.
  rewrite !Z.ltb_ge. lia.
Qed.

Lemma le_add_zero a b : le (Int 0) a -> le (Int 0) b -> le (Int 0) (add a b).
Proof.
  unfold le. destruct a, b; simpl; try congruence.
  rewrite !Z.ltb_ge. lia.
Qed.

Lemma add_inf_r a : add a inf = inf.
Proof. destruct a; reflexivity. Qed.

(** The cost the loop over [v] ends with is a function of the link
    costs and of the rows of the other nodes: neither the own row nor
    the predecessor it starts from plays a part. The predecessor it
    ends with does not either, once that cost is finite. *)
Lemma relax_upto_ext s1 s2 d p1 p2 k :
  (forall v, v < k -> v <> nodeid -> table s1 v d = table s2 v d) ->
  (relax_upto s1 d p1 k).1 = (relax_upto s2 d p2 k).1 /\
  ((relax_upto s1 d p1 k).1 <> inf ->
   (relax_upto s1 d p1 k).2 = (relax_upto s2 d p2 k).2).
Proof.
  induction k as [|k IH]; intros H.
  - split; [reflexivity | intros N; by contradiction N].
  - destruct IH as [IH1 IH2]; [intros v Hv; apply H; lia |].
    rewrite !relax_upto_S. unfold relax_step. rewrite <- IH1.
    assert ((if decide (k = nodeid) then (relax_upto s1 d p1 k).1 else table s2 k d) =
            (if decide (k = nodeid) then (relax_upto s1 d p1 k).1 else table s1 k d))
      as ->.
    { destruct (decide (k = nodeid)); [reflexivity |].
      symmetry. apply H; [lia | assumption]. }
    destruct (ltb _ (relax_upto s1 d p1 k).1); simpl.
    + split; reflexivity.
    + split; [exact IH1 | exact IH2].
Qed.

Lemma relax_ext s1 s2 d p1 p2 :
  (forall v, v < NUM_NODES -> v <> nodeid -> table s1 v d = table s2 v d) ->
  (relax s1 d p1).1 = (relax s2 d p2).1 /\
  ((relax s1 d p1).1 <> inf -> (relax s1 d p1).2 = (relax s2 d p2).2).
Proof. apply relax_upto_ext. Qed.

(** While no other node is known to reach [d], the loop finds
    nothing. *)
Lemma relax_upto_unknown s d p0 k :
  (forall v, v < k -> v <> nodeid -> table s v d = inf) ->
  relax_upto s d p0 k = (inf, p0).
Proof.
  induction k as [|k IH]; intros H; [reflexivity |].
  rewrite relax_upto_S, IH by (intros v Hv; apply H; lia).
  unfold relax_step. simpl.
  assert ((if decide (k = nodeid) then inf else table s k d) = inf) as ->.
  { destruct (decide (k = nodeid)); [reflexivity | apply H; [lia | assumption]]. }
  rewrite add_inf_r. reflexivity.
Qed.

Lemma relax_unknown s d p0 :
  (forall v, v < NUM_NODES -> v <> nodeid -> table s v d = inf) ->
  relax s d p0 = (inf, p0).
Proof. apply relax_upto_unknown. Qed.

(** Costs that are not negative give a cost that is not negative. *)
Lemma relax_upto_nonneg s d p0 k :
  (forall v, v < k -> le (Int 0) (link_cost v)) ->
  (forall v, v < k -> v <> nodeid -> le (Int 0) (table s v d)) ->
  le (Int 0) (relax_upto s d p0 k).1.
Proof.
  induction k as [|k IH]; intros Hl Ht; [apply le_inf |].
  assert (le (Int 0) (relax_upto s d p0 k).1) as Hk.
  { apply IH; intros v Hv; [apply Hl | apply Ht]; lia. }
  rewrite relax_upto_S. unfold relax_step.
  destruct (ltb _ (relax_upto s d p0 k).1); simpl; [| exact Hk].
  apply le_add_zero; [apply Hl; lia |].
  destruct (decide (k = nodeid)); [exact Hk | apply Ht; [lia | assumption]].
Qed.

(** Smaller costs in the rows of the other nodes give a cost that is
    not larger. *)
Lemma relax_upto_mono s1 s2 d p1 p2 k :
  (forall v, v < k -> v <> nodeid -> le (table s1 v d) (table s2 v d)) ->
  le (relax_upto s1 d p1 k).1 (relax_upto s2 d p2 k).1.
Proof.
  induction k as [|k IH]; intros H; [apply le_refl |].
  assert (le (relax_upto s1 d p1 k).1 (relax_upto s2 d p2 k).1) as Hk.
  { apply IH. intros v Hv. apply H. lia. }
  rewrite !relax_upto_S. unfold relax_step.
  set (a1 := (relax_upto s1 d p1 k).1) in *.
  set (a2 := (relax_upto s2 d p2 k).1) in *.
  set (n1 := add (link_cost k) (if decide (k = nodeid) then a1 else table s1 k d)).
  set (n2 := add (link_cost k) (if decide (k = nodeid) then a2 else table s2 k d)).
  assert (le n1 n2) as Hn.
  { apply le_add_mono. destruct (decide (k = nodeid)); [exact Hk |].
    apply H; [lia | assumption]. }
  destruct (ltb n1 a1) eqn:H1, (ltb n2 a2) eqn:H2; simpl.
  - exact Hn.
  - eapply le_trans; [apply lt_le; exact H1 | exact Hk].
  - eapply le_trans; [exact H1 | exact Hn].
  - exact Hk.
Qed.

(** Relaxing a second time finds the row and the predecessors of the
    first time. *)
Lemma relax_dests_again s :
  wf s ->
  fold_left (relax_dest (recompute s)) (seq 0 NUM_NODES)
            (default [] (row (recompute s) nodeid), predecessors (recompute s)) =
  (default [] (row (recompute s) nodeid), predecessors (recompute s)).
Proof.
  intros W. pose proof (recompute_wf s W) as W'.
  destruct (wf_own s W) as (o & old & Ho & Hold & Hlen).
  assert (row s nodeid = Some old) as Hrow.
  { unfold row. rewrite Ho. exact Hold. }
  rewrite (recompute_own_row s o old Ho Hold), (recompute_predecessors s W), Hrow.
  simpl.
  set (r := fold_left (relax_dest s) (seq 0 NUM_NODES) (old, predecessors s)).
  destruct (relax_dests_length s (seq 0 NUM_NODES) (old, predecessors s)) as [L1 L2].
  fold r in L1, L2. simpl in L1, L2.
  destruct (relax_dests_length (recompute s) (seq 0 NUM_NODES) (r.1, r.2)) as [M1 M2].
  simpl in M1, M2.
  set (r' := fold_left (relax_dest (recompute s)) (seq 0 NUM_NODES) (r.1, r.2)) in *.
  pose proof (wf_preds s W) as Lp.
  assert (forall d, r'.1 !! d = r.1 !! d /\ r'.2 !! d = r.2 !! d) as Heq.
  { intros d. destruct (decide (d < NUM_NODES /\ d <> nodeid)) as [[Hd Hne] | Hout].
    - destruct (relax_dests_set s (seq 0 NUM_NODES) (old, predecessors s) d)
        as [E1 E2]; simpl; auto; try lia.
      { apply NoDup_seq. } { apply elem_of_seq. lia. }
      destruct (relax_dests_set (recompute s) (seq 0 NUM_NODES) (r.1, r.2) d)
        as [F1 F2]; simpl; auto; try lia.
      { apply NoDup_seq. } { apply elem_of_seq. lia. }
      fold r in E1, E2. fold r' in F1, F2. simpl in E1, E2, F1, F2.
      rewrite F1, F2, E1, E2. simpl.
      set (p := default None (predecessors s !! d)).
      destruct (relax_ext (recompute s) s d (relax s d p).2 p) as [X1 X2].
      { intros v Hv Hvn. by apply recompute_other. }
      split; [by rewrite X1 |]. f_equal.
      destruct (decide ((relax (recompute s) d (relax s d p).2).1 = inf)) as [Hi | Hf].
      + by apply relax_inf.
      + by apply X2.
    - destruct (decide (d = nodeid)) as [-> | Hne].
      + apply (relax_dests_keep (recompute s) (seq 0 NUM_NODES) (r.1, r.2) nodeid). auto.
      + assert (NUM_NODES <= d) as Hge by lia.
        rewrite !lookup_ge_None_2 by lia. auto. }
  rewrite (surjective_pairing r'). f_equal; apply list_eq; intros d; apply Heq.
Qed.

(** A state whose relaxation finds the row and the predecessors it
    holds is the state [update_helper] returns. *)
Lemma recompute_fixed s :
  wf s ->
  fold_left (relax_dest s) (seq 0 NUM_NODES)
            (default [] (row s nodeid), predecessors s) =
  (default [] (row s nodeid), predecessors s) ->
  recompute s = s.
Proof.
  intros W. destruct (wf_own s W) as (o & old & Ho & Hold & Hlen).
  unfold row, recompute. rewrite Ho. simpl. rewrite Hold. simpl. intros ->. simpl.
  destruct (decide (old = old)); [| congruence].
  rewrite app_nil_r, (list_insert_id _ _ _ Hold). destruct s; reflexivity.
Qed.

Lemma recompute_idempotent s : wf s -> recompute (recompute s) = recompute s.
Proof.
  intros W. apply recompute_fixed; [by apply recompute_wf | by apply relax_dests_again].
Qed.

(** While no other node is known to reach anything, the relaxation
    leaves the predecessors as they are. *)
Lemma relax_dests_unknown s :
  wf s ->
  (forall v d, v < NUM_NODES -> d < NUM_NODES -> v <> nodeid -> table s v d = inf) ->
  predecessors (recompute s) = predecessors s.
Proof.
  intros W H. destruct (wf_own s W) as (o & old & Ho & Hold & Hlen).
  pose proof (wf_preds s W) as Lp.
  rewrite (recompute_predecessors s W). unfold row. rewrite Ho. simpl. rewrite Hold. simpl.
  destruct (relax_dests_length s (seq 0 NUM_NODES) (old, predecessors s)) as [L1 L2].
  simpl in L1, L2.
  apply list_eq. intros d.
  destruct (decide (d < NUM_NODES /\ d <> nodeid)) as [[Hd Hne] | Hout].
  - destruct (relax_dests_set s (seq 0 NUM_NODES) (old, predecessors s) d)
      as [_ E2]; simpl; auto; try lia.
    { apply NoDup_seq. } { apply elem_of_seq. lia. }
    simpl in E2. rewrite E2.
    rewrite relax_unknown by (intros v Hv Hvn; by apply H).
    simpl. symmetry. apply lookup_default_pred. lia.
  - destruct (decide (d = nodeid)) as [-> | Hne].
    + apply (relax_dests_keep s (seq 0 NUM_NODES) (old, predecessors s) nodeid). auto.
    + rewrite !lookup_ge_None_2 by lia. reflexivity.
Qed.

(** ** Further properties of the entry points *)

(** X1. [update_helper] is idempotent: run again on the state it has
    returned, with the link costs unchanged, it returns that very
    state. Nothing is recomputed to a different value and no packet is
    sent, so a [link_cost_change_handler] for a change that is none
    costs no traffic. *)
Theorem update_helper_idempotent s :
  wf s -> wf_cost ->
  exists s', update_helper s = Ok tt s' /\
             update_helper s' = Ok tt s' /\
             forall which_link new_cost,
               link_cost_change_handler which_link new_cost s' = Ok tt s'.
Proof.
  intros W C. exists (recompute s).
  assert (update_helper (recompute s) = Ok tt (recompute s)) as H.
  { rewrite update_helper_run; [| by apply recompute_wf | exact C].
    by rewrite recompute_idempotent. }
  split; [by apply update_helper_run |]. split; [exact H |].
  intros w c. exact H.
Qed.

(** X2. The own row [update_helper] computes is a function of the
    link costs and of the rows stored for the other nodes. Two nodes
    that agree on those rows end with the same cost for every
    destination, whatever their own rows and predecessors were before:
    what the own row held, the link costs copied at construction
    included, is discarded. *)
Theorem update_helper_forgets_own_row s1 s2 :
  wf s1 -> wf s2 -> wf_cost ->
  (forall v d, v < NUM_NODES -> d < NUM_NODES -> v <> nodeid ->
     table s1 v d = table s2 v d) ->
  exists s1' s2',
    update_helper s1 = Ok tt s1' /\ update_helper s2 = Ok tt s2' /\
    forall d, d < NUM_NODES -> d <> nodeid ->
      table s1' nodeid d = table s2' nodeid d.
Proof.
  intros W1 W2 C H. exists (recompute s1), (recompute s2).
  split; [by apply update_helper_run |]. split; [by apply update_helper_run |].
  intros d Hd Hne. rewrite !recompute_own by assumption.
  apply relax_ext. intros v Hv Hvn. by apply H.
Qed.

(** X3. While the rows of all other nodes are all [inf], as they are
    from [__init__] until the first vector arrives, [update_helper]
    makes every other destination unreachable: the own row becomes
    [inf] everywhere but at the node itself, and the predecessors stay
    as they were. The link costs are [inf] or integers of a magnitude
    below [2 ^ 1023], which Python adds to [inf]. *)
Theorem update_helper_without_vectors s :
  wf s -> wf_cost ->
  (forall v, v < NUM_NODES ->
     link_cost v = inf \/
     exists z, link_cost v = Int z /\ (- 2 ^ 1023 < z < 2 ^ 1023)%Z) ->
  (forall v d, v < NUM_NODES -> d < NUM_NODES -> v <> nodeid -> table s v d = inf) ->
  exists s', update_helper s = Ok tt s' /\
    (forall d, d < NUM_NODES -> d <> nodeid -> table s' nodeid d = inf) /\
    predecessors s' = predecessors s.
Proof.
  intros W C _ H. exists (recompute s). split; [by apply update_helper_run |]. split.
  - intros d Hd Hne. rewrite recompute_own by assumption.
    rewrite relax_unknown by (intros v Hv Hvn; by apply H).
    reflexivity.
  - by apply relax_dests_unknown.
Qed.

(** X4. Costs stay non-negative: when no link cost of the node and no
    entry stored for another node is negative, no cost [update_helper]
    writes into the own row is. *)
Theorem update_helper_nonnegative s :
  wf s -> wf_cost ->
  (forall v, v < NUM_NODES -> le (Int 0) (link_cost v)) ->
  (forall v d, v < NUM_NODES -> d < NUM_NODES -> v <> nodeid ->
     le (Int 0) (table s v d)) ->
  exists s', update_helper s = Ok tt s' /\
    forall d, d < NUM_NODES -> d <> nodeid -> le (Int 0) (table s' nodeid d).
Proof.
  intros W C Hl Ht. exists (recompute s). split; [by apply update_helper_run |].
  intros d Hd Hne. rewrite recompute_own by assumption.
  apply relax_upto_nonneg; [exact Hl |]. intros v Hv Hvn. by apply Ht.
Qed.

(** X5. The relaxation is monotone: of two nodes with the same link
    costs, the one whose stored rows of the other nodes are entry by
    entry not larger ends with costs that are not larger. A vector
    that only lowers costs never raises a cost of the receiver. *)
Theorem update_helper_monotone s1 s2 :
  wf s1 -> wf s2 -> wf_cost ->
  (forall v d, v < NUM_NODES -> d < NUM_NODES -> v <> nodeid ->
     le (table s1 v d) (table s2 v d)) ->
  exists s1' s2',
    update_helper s1 = Ok tt s1' /\ update_helper s2 = Ok tt s2' /\
    forall d, d < NUM_NODES -> d <> nodeid ->
      le (table s1' nodeid d) (table s2' nodeid d).
Proof.
  intros W1 W2 C H. exists (recompute s1), (recompute s2).
  split; [by apply update_helper_run |]. split; [by apply update_helper_run |].
  intros d Hd Hne. rewrite !recompute_own by assumption.
  apply relax_upto_mono. intros v Hv Hvn. by apply H.
Qed.

(** ** What the entry points write, also when they raise *)

Lemma preserves_for_each_in (P : State -> Prop) l body :
  (forall i, i ∈ l -> preserves P (body i)) -> preserves P (for_each l body).
Proof.
  induction l as [|i l IH]; intros Hb; simpl.
  - apply preserves_ret.
  - apply preserves_bind; [apply Hb, list_elem_of_here | intros _].
    apply IH. intros j Hj. apply Hb. by apply list_elem_of_further.
Qed.

Lemma preserves_for_range (P : State -> Prop) n body :
  (forall i, i < n -> preserves P (body i)) -> preserves P (for_range n body).
Proof.
  intros Hb. apply preserves_for_each_in. intros i Hi. apply Hb.
  apply elem_of_seq in Hi. lia.
Qed.

(** A loop raises when one of its turns does, the turns before it
    keeping what makes it raise. *)
Lemma for_each_raises (P : State -> Prop) l body i :
  (forall j, j ∈ l -> preserves P (body j)) -> i ∈ l ->
  (forall t, P t -> exists t', body i t = IndexError t' /\ P t') ->
  forall t, P t -> exists t', for_each l body t = IndexError t' /\ P t'.
Proof.
  induction l as [|a l IH]; intros Hb Hi Hraise t Ht.
  { exfalso. revert Hi. apply not_elem_of_nil. }
  simpl. unfold bind.
  pose proof (Hb a (list_elem_of_here a l) t Ht) as Ha.
  destruct (body a t) as [[] t1 | t1] eqn:E; simpl in Ha; [| by exists t1].
  apply elem_of_cons in Hi as [-> | Hi].
  - destruct (Hraise t Ht) as (t' & E' & _). congruence.
  - apply IH; auto. intros j Hj. apply Hb. by apply list_elem_of_further.
Qed.

(** [update_helper] keeps whatever its writes keep, each taken with
    what the code knows where it writes: an entry of the own row other
    than the node's own, the predecessor of another destination set to
    a node, a packet from the node to a neighbour built on the own
    row. *)
Section Writes.

Variable P : State -> Prop.
Hypothesis P_set : forall s o d x,
  P s -> dist_table s !! nodeid = Some o -> d <> nodeid ->
  P (state_of (list_set o d x s)).
Hypothesis P_pred : forall d v,
  d <> nodeid -> v < NUM_NODES -> preserves P (predecessors_set d (Some v)).

Lemma relax_body_writes d v :
  d <> nodeid -> v < NUM_NODES -> preserves P (relax_body d v).
Proof.
  intros Hd Hv. unfold relax_body.
  apply preserves_bind; [apply preserves_lift | intros lc].
  apply preserves_bind; [apply preserves_lift | intros r].
  apply preserves_bind; [apply preserves_lift | intros x].
  apply preserves_bind; [apply preserves_lift | intros l].
  apply preserves_bind; [apply preserves_lift | intros cur].
  destruct (ltb (add lc x) cur); [| apply preserves_ret].
  apply preserves_read. intros s o Hs Ho.
  unfold bind. pose proof (P_set s o d (add lc x) Hs Ho Hd) as Hset.
  destruct (list_set o d (add lc x) s) as [[] s' | s']; simpl in Hset;
    [by apply P_pred | exact Hset].
Qed.

Lemma dest_body_writes d : preserves P (dest_body d).
Proof.
  unfold dest_body. destruct (decide (d = nodeid)) as [_ | Hd];
    [apply preserves_ret |].
  apply preserves_read. intros s o Hs Ho.
  unfold bind. pose proof (P_set s o d inf Hs Ho Hd) as Hset.
  destruct (list_set o d inf s) as [[] s' | s']; simpl in Hset; [| exact Hset].
  apply preserves_for_range; [| exact Hset].
  intros v Hv. by apply relax_body_writes.
Qed.

Hypothesis P_send : forall s j l,
  P s -> j < NUM_NODES -> j <> nodeid -> link_cost j <> inf ->
  dist_table s !! nodeid = Some l ->
  P (state_of (to_link_layer (Packet.make (Z.of_nat nodeid) (Z.of_nat j) l) s)).

Lemma notify_body_writes i : i < NUM_NODES -> preserves P (notify_body i).
Proof.
  intros Hi. unfold notify_body.
  destruct (decide (i <> nodeid)) as [Hne | _]; [| apply preserves_ret].
  unfold get_link_cost. apply preserves_read. intros s c Hs Hc.
  destruct (decide (c <> inf)) as [Hf | _]; [| exact Hs].
  unfold get_dist_vector, dist_table_get. rewrite state_of_read.
  destruct (dist_table s !! nodeid) as [l |] eqn:Hl; [| exact Hs].
  apply P_send; auto. unfold link_cost. rewrite Hc. exact Hf.
Qed.

Lemma update_helper_writes : preserves P update_helper.
Proof.
  unfold update_helper.
  apply preserves_bind; [apply preserves_lift | intros l].
  apply preserves_bind; [apply preserves_lift | intros temp].
  apply preserves_bind.
  { apply preserves_for_range. intros d _. apply dest_body_writes. }
  intros _.
  apply preserves_bind; [apply preserves_lift | intros l'].
  apply preserves_bind; [apply preserves_lift | intros now].
  destruct (decide (temp = now)); [apply preserves_ret |].
  apply preserves_for_range. apply notify_body_writes.
Qed.

End Writes.

(** The table of references is not written. *)
Lemma update_helper_keeps_table T :
  preserves (fun t => dist_table t = T) update_helper.
Proof.
  apply update_helper_writes.
  - intros s o d x Hs _ _. unfold list_set.
    destruct (heap s !! o) as [r |]; [| exact Hs].
    destruct (decide (d < length r)); exact Hs.
  - intros d v _ _ s Hs. unfold predecessors_set.
    destruct (decide (d < length (predecessors s))); exact Hs.
  - intros s j l Hs _ _ _ _. exact Hs.
Qed.

(** A list object that is not the own row is not written. *)
Lemma update_helper_keeps_object l r :
  preserves (fun t => heap t !! l = Some r /\ dist_table t !! nodeid <> Some l)
            update_helper.
Proof.
  apply update_helper_writes.
  - intros s o d x [Hl Hn] Ho _. unfold list_set.
    destruct (heap s !! o) as [r' |]; [| by split].
    destruct (decide (d < length r')); simpl; [| by split].
    split; [| exact Hn]. rewrite list_lookup_insert_ne; [exact Hl | congruence].
  - intros d v _ _ s Hs. unfold predecessors_set.
    destruct (decide (d < length (predecessors s))); exact Hs.
  - intros s j l' Hs _ _ _ _. exact Hs.
Qed.

(** The predecessor of the node itself is not written. *)
Lemma update_helper_keeps_own_predecessor p :
  preserves (fun t => predecessors t !! nodeid = p) update_helper.
Proof.
  apply update_helper_writes.
  - intros s o d x Hs _ _. unfold list_set.
    destruct (heap s !! o) as [r |]; [| exact Hs].
    destruct (decide (d < length r)); exact Hs.
  - intros d v Hd _ s Hs. unfold predecessors_set.
    destruct (decide (d < length (predecessors s))); simpl; [| exact Hs].
    rewrite list_lookup_insert_ne by exact Hd. exact Hs.
  - intros s j l Hs _ _ _ _. exact Hs.
Qed.

(** Only node numbers are written as predecessors. *)
Lemma update_helper_keeps_valid :
  preserves (fun t => forall d v, predecessors t !! d = Some (Some v) -> v < NUM_NODES)
            update_helper.
Proof.
  apply update_helper_writes.
  - intros s o d x Hs _ _. unfold list_set.
    destruct (heap s !! o) as [r |]; [| exact Hs].
    destruct (decide (d < length r)); exact Hs.
  - intros d v _ Hv s Hs. unfold predecessors_set.
    destruct (decide (d < length (predecessors s))); simpl; [| exact Hs].
    intros d' v' H. apply list_lookup_insert_Some in H.
    destruct H as [(_ & E & _) | (_ & H)]; [| by eapply Hs].
    inversion E. by subst.
  - intros s j l Hs _ _ _ _. exact Hs.
Qed.

(** [update] either leaves the state as it is, or stores a copy of a
    live vector in the row of its source and ends as [update_helper]
    does from there. *)
Lemma update_cases pkt s :
  state_of (update pkt s) = s \/
  exists i v, py_index (length (dist_table s)) (Packet.get_src pkt) = Some i /\
              heap s !! Packet.get_dist_vector pkt = Some v /\
              state_of (update pkt s) = state_of (update_helper (store_row s i v)).
Proof.
  unfold update. rewrite state_of_read.
  destruct (py_index (length (dist_table s)) (Packet.get_src pkt)) as [i |] eqn:Hi;
    [| by left].
  unfold dist_table_get. rewrite state_of_read.
  destruct (dist_table s !! i) as [l |]; [| by left].
  unfold list_read. rewrite state_of_read.
  destruct (heap s !! l) as [old |]; [| by left].
  rewrite state_of_read.
  destruct (heap s !! Packet.get_dist_vector pkt) as [v |] eqn:Hv; [| by left].
  destruct (decide (old = v)); [by left |].
  right. exists i, v. split; [reflexivity |]. split; [reflexivity |].
  rewrite (bind_ok _ _ _ _ _ (list_copy_run _ s v Hv)).
  rewrite state_of_read. simpl. rewrite Hi.
  unfold bind, dist_table_set. simpl.
  destruct (decide (i < length (dist_table s))) as [_ | Hge]; [reflexivity |].
  exfalso. apply Hge. eapply py_index_lt; eauto.
Qed.

(** A live object that is not the own row is not the own row after
    the copy is stored either. *)
Lemma store_row_keeps_object s i v l r :
  heap s !! l = Some r -> dist_table s !! nodeid <> Some l ->
  heap (store_row s i v) !! l = Some r /\
  dist_table (store_row s i v) !! nodeid <> Some l.
Proof.
  intros Hl Hn. simpl. split; [by apply lookup_app_l_Some |].
  intros H. apply list_lookup_insert_Some in H.
  destruct H as [(_ & E & _) | (_ & H)]; [| contradiction].
  apply lookup_lt_Some in Hl. lia.
Qed.

Lemma get_dist_vector_own s o :
  get_dist_vector s = Ok o s <-> dist_table s !! nodeid = Some o.
Proof.
  unfold get_dist_vector, dist_table_get, lift.
  destruct (dist_table s !! nodeid) as [l |]; split; intros H;
    inversion H; reflexivity.
Qed.

Lemma neighbour_self : neighbour nodeid = false.
Proof.
  unfold neighbour. rewrite bool_decide_eq_false_2; [reflexivity | auto].
Qed.

Lemma constructed_predecessor s0 j :
  j < NUM_NODES ->
  predecessors (constructed s0) !! j = Some (if neighbour j then Some j else None).
Proof.
  intros Hj. simpl. destruct (neighbour j) eqn:Hn.
  - apply init_preds_set; [apply elem_of_seq; lia | exact Hn |].
    rewrite length_replicate. exact Hj.
  - rewrite init_preds_keep by auto. by apply lookup_replicate_2.
Qed.

(** A predecessor the relaxation leaves is the one it found or a node
    other than this one. *)
Lemma recompute_predecessor_cases s d :
  wf s -> le (Int 0) (link_cost nodeid) ->
  predecessor (recompute s) d = predecessor s d \/
  exists v, predecessor (recompute s) d = Some v /\ v < NUM_NODES /\ v <> nodeid.
Proof.
  intros W Hself. destruct (wf_own s W) as (o & old & Ho & Hold & Hlen).
  pose proof (wf_preds s W) as Lp.
  destruct (decide (d < NUM_NODES /\ d <> nodeid)) as [[Hd Hne] | Hout].
  - rewrite (recompute_predecessor s W d Hd Hne).
    destruct (relax_found s d (predecessor s d) Hself)
      as [_ [[_ E] | (v0 & Hv0 & Hn0 & E & _)]]; [by left | right].
    exists v0. auto.
  - left. unfold predecessor. f_equal.
    rewrite (recompute_predecessors s W). unfold row. rewrite Ho. simpl.
    rewrite Hold. simpl.
    destruct (decide (d = nodeid)) as [-> | Hne].
    + apply (relax_dests_keep s (seq 0 NUM_NODES) (old, predecessors s) nodeid). auto.
    + destruct (relax_dests_length s (seq 0 NUM_NODES) (old, predecessors s))
        as [_ L2]. simpl in L2.
      rewrite !lookup_ge_None_2 by lia. reflexivity.
Qed.

Lemma broadcast_length o : nodeid < NUM_NODES -> length (broadcast o) <= NUM_NODES - 1.
Proof.
  intros Hid. unfold broadcast. rewrite length_map.
  pose proof (length_filter_lt (fun i => neighbour i = true) (seq 0 NUM_NODES) nodeid)
    as H.
  rewrite length_seq in H. cut (length (filter (fun i => neighbour i = true)
                                          (seq 0 NUM_NODES)) < NUM_NODES); [lia |].
  apply H; [apply elem_of_seq; lia |]. rewrite neighbour_self. discriminate.
Qed.

Lemma py_index_nonneg n k : k < n -> py_index n (Z.of_nat k) = Some k.
Proof.
  intros H. unfold py_index.
  destruct (decide (0 <= Z.of_nat k < Z.of_nat n)%Z); [| lia].
  by rewrite Nat2Z.id.
Qed.

Lemma py_index_neg n k : 0 < k <= n -> py_index n (- Z.of_nat k) = Some (n - k).
Proof.
  intros H. unfold py_index.
  destruct (decide (0 <= - Z.of_nat k < Z.of_nat n)%Z); [lia |].
  destruct (decide (- Z.of_nat n <= - Z.of_nat k < 0)%Z); [| lia].
  f_equal. lia.
Qed.

(** X6. The entry points write one list object, the node's own row:
    any other live list (the row stored for another node, the vector
    of the packet being handled, a vector still on its way) holds
    after [update_helper], [link_cost_change_handler] and [update]
    what it held before, whether they return or raise. *)
Theorem entry_points_write_own_row_only s l r :
  heap s !! l = Some r -> dist_table s !! nodeid <> Some l ->
  heap (state_of (update_helper s)) !! l = Some r /\
  (forall which_link new_cost,
     heap (state_of (link_cost_change_handler which_link new_cost s)) !! l = Some r) /\
  (forall pkt, heap (state_of (update pkt s)) !! l = Some r).
Proof.
  intros Hl Hn.
  assert (heap (state_of (update_helper s)) !! l = Some r) as H.
  { by apply (update_helper_keeps_object l r s). }
  split; [exact H |]. split; [intros w c; exact H |].
  intros pkt. destruct (update_cases pkt s) as [-> | (i & v & _ & _ & ->)]; [exact Hl |].
  apply (update_helper_keeps_object l r). by apply store_row_keeps_object.
Qed.

(** X7. [update] changes two rows at most, that of the source and the
    node's own: the row of every other node is as it was, whether
    [update] returns or raises and whatever the vector is. *)
Theorem update_keeps_other_rows pkt s i j :
  wf s -> py_index NUM_NODES (Packet.get_src pkt) = Some i ->
  j <> i -> j <> nodeid ->
  row (state_of (update pkt s)) j = row s j.
Proof.
  intros W Hi Hji Hjn.
  destruct (update_cases pkt s) as [-> | (i' & v & Hi' & Hv & ->)]; [reflexivity |].
  rewrite (wf_table s W), Hi in Hi'. inversion Hi'; subst i'.
  unfold row.
  rewrite (update_helper_keeps_table _ (store_row s i v) eq_refl). simpl.
  rewrite list_lookup_insert_ne by congruence.
  destruct (dist_table s !! j) as [c |] eqn:Hc; [| reflexivity]. simpl.
  destruct (wf_rows s W j c Hc) as (r & Hr & _). rewrite Hr.
  apply (update_helper_keeps_object c r). apply store_row_keeps_object; [exact Hr |].
  intros Ho. apply Hjn. eapply wf_row_inj; eauto.
Qed.

(** X8. [update] stores a copy: when the vector differs from the row
    of its source, the table afterwards holds for that source a list
    object that did not exist before, so not the object the packet
    carries, and (unless the packet carries the node's own row) the
    packet's vector is left as it was. *)
Theorem update_stores_fresh_copy pkt s i v :
  wf s -> py_index NUM_NODES (Packet.get_src pkt) = Some i ->
  heap s !! Packet.get_dist_vector pkt = Some v -> row s i <> Some v ->
  exists c, dist_table (state_of (update pkt s)) !! i = Some c /\
            heap s !! c = None /\ c <> Packet.get_dist_vector pkt /\
            (dist_table s !! nodeid <> Some (Packet.get_dist_vector pkt) ->
             heap (state_of (update pkt s)) !! Packet.get_dist_vector pkt = Some v).
Proof.
  intros W Hi Hv Hne. pose proof (py_index_lt _ _ _ Hi) as Li.
  rewrite (update_unfold pkt s i v W Hi Hv).
  destruct (decide (row s i = Some v)); [contradiction |].
  exists (length (heap s)). split; [| split; [| split]].
  - rewrite (update_helper_keeps_table _ (store_row s i v) eq_refl). simpl.
    apply list_lookup_insert_eq. by rewrite (wf_table s W).
  - by apply lookup_ge_None_2.
  - apply lookup_lt_Some in Hv. lia.
  - intros Hown. apply (update_helper_keeps_object _ v).
    by apply store_row_keeps_object.
Qed.

(** X9. The node's own row stays one and the same list object:
    [get_dist_vector] returns after [link_cost_change_handler], and
    after [update] for a packet of another node, the object it
    returned before, whether they return or raise. *)
Theorem own_row_object_is_stable s o :
  get_dist_vector s = Ok o s ->
  (forall which_link new_cost,
     get_dist_vector (state_of (link_cost_change_handler which_link new_cost s)) =
     Ok o (state_of (link_cost_change_handler which_link new_cost s))) /\
  (forall pkt,
     py_index (length (dist_table s)) (Packet.get_src pkt) <> Some nodeid ->
     get_dist_vector (state_of (update pkt s)) = Ok o (state_of (update pkt s))).
Proof.
  intros Ho. apply get_dist_vector_own in Ho. split.
  - intros w c. apply get_dist_vector_own. unfold link_cost_change_handler.
    by rewrite (update_helper_keeps_table _ s eq_refl).
  - intros pkt Hsrc. apply get_dist_vector_own.
    destruct (update_cases pkt s) as [-> | (i & v & Hi & _ & ->)]; [exact Ho |].
    rewrite (update_helper_keeps_table _ (store_row s i v) eq_refl). simpl.
    rewrite list_lookup_insert_ne by congruence. exact Ho.
Qed.

(** X10. The predecessor of the node itself is never written:
    [__init__] leaves it [None], and after [update] and
    [link_cost_change_handler] [predecessors[nodeid]] is what it was,
    whether they return or raise. *)
Theorem own_predecessor_is_never_written :
  (forall s0, wf_cost -> nodeid < NUM_NODES ->
     exists s, init s0 = Ok tt s /\ get_predecessor nodeid s = Ok None s) /\
  (forall pkt s,
     predecessors (state_of (update pkt s)) !! nodeid = predecessors s !! nodeid) /\
  (forall which_link new_cost s,
     predecessors (state_of (link_cost_change_handler which_link new_cost s)) !! nodeid
     = predecessors s !! nodeid).
Proof.
  split; [| split].
  - intros s0 C Hid. exists (constructed s0). split; [by apply init_run |].
    apply lift_ok. rewrite (constructed_predecessor s0 nodeid Hid).
    by rewrite neighbour_self.
  - intros pkt s. destruct (update_cases pkt s) as [-> | (i & v & _ & _ & ->)];
      [reflexivity |].
    by apply (update_helper_keeps_own_predecessor _ (store_row s i v)).
  - intros w c s. by apply (update_helper_keeps_own_predecessor _ s).
Qed.

(** X11. Every predecessor is [None] or the number of a node:
    [__init__] leaves the predecessors so, and [update] and
    [link_cost_change_handler] keep them so, whether they return or
    raise. *)
Theorem predecessors_are_node_numbers :
  (forall s0, wf_cost -> nodeid < NUM_NODES ->
     exists s, init s0 = Ok tt s /\
       forall d v, predecessors s !! d = Some (Some v) -> v < NUM_NODES) /\
  (forall pkt s,
     (forall d v, predecessors s !! d = Some (Some v) -> v < NUM_NODES) ->
     forall d v, predecessors (state_of (update pkt s)) !! d = Some (Some v) ->
                 v < NUM_NODES) /\
  (forall which_link new_cost s,
     (forall d v, predecessors s !! d = Some (Some v) -> v < NUM_NODES) ->
     forall d v,
       predecessors (state_of (link_cost_change_handler which_link new_cost s)) !! d
       = Some (Some v) -> v < NUM_NODES).
Proof.
  split; [| split].
  - intros s0 C Hid. exists (constructed s0). split; [by apply init_run |].
    intros d v H. pose proof (lookup_lt_Some _ _ _ H) as Hd.
    rewrite (wf_preds _ (constructed_wf s0 C Hid)) in Hd.
    rewrite (constructed_predecessor s0 d Hd) in H.
    destruct (neighbour d); inversion H. by subst.
  - intros pkt s Hs. destruct (update_cases pkt s) as [-> | (i & v & _ & _ & ->)];
      [exact Hs |].
    by apply (update_helper_keeps_valid (store_row s i v)).
  - intros w c s Hs. by apply (update_helper_keeps_valid s).
Qed.

(** X12. The node is never its own predecessor: when its link to
    itself does not cost less than nothing and no predecessor names
    the node, none does after [update_helper]. *)
Theorem predecessor_is_another_node s :
  wf s -> wf_cost -> le (Int 0) (link_cost nodeid) ->
  (forall d, predecessor s d <> Some nodeid) ->
  exists s', update_helper s = Ok tt s' /\
             forall d, predecessor s' d <> Some nodeid.
Proof.
  intros W C Hself Hs. exists (recompute s). split; [by apply update_helper_run |].
  intros d. destruct (recompute_predecessor_cases s d W Hself)
    as [-> | (v & -> & _ & Hv)]; [apply Hs | congruence].
Qed.

(** X13. What one [update] sends: for a vector of [NUM_NODES] costs it
    returns, and the packets it adds to the link layer are pairwise
    distinct, at most [NUM_NODES - 1], each from this node to another
    node to which the link cost is finite, and each built on the list
    object that is the node's own row afterwards. It never sends to
    itself or to a node it has no link to. *)
Theorem update_sends_to_neighbours pkt s i v :
  wf s -> wf_cost -> py_index NUM_NODES (Packet.get_src pkt) = Some i ->
  heap s !! Packet.get_dist_vector pkt = Some v -> length v = NUM_NODES ->
  exists s' news,
    update pkt s = Ok tt s' /\ link_layer s' = link_layer s ++ news /\
    length news <= NUM_NODES - 1 /\ NoDup news /\
    forall p, p ∈ news ->
      Packet.get_src p = Z.of_nat nodeid /\
      dist_table s' !! nodeid = Some (Packet.get_dist_vector p) /\
      exists j, Packet.get_dst p = Z.of_nat j /\ j < NUM_NODES /\ j <> nodeid /\
                link_cost j <> inf.
Proof.
  intros W C Hi Hv Hlen. pose proof (py_index_lt _ _ _ Hi) as Li.
  rewrite (update_unfold pkt s i v W Hi Hv).
  destruct (decide (row s i = Some v)) as [_ | Hne].
  { exists s, []. split; [reflexivity |]. split; [by rewrite app_nil_r |].
    split; [simpl; lia |]. split; [apply NoDup_nil_2 |].
    intros p Hp. exfalso. revert Hp. apply not_elem_of_nil. }
  pose proof (store_row_wf s i v W Li Hlen) as W1.
  destruct (wf_own _ W1) as (o & old & Ho & _).
  rewrite (update_helper_run _ W1 C).
  exists (recompute (store_row s i v)).
  exists (if decide (row (store_row s i v) nodeid =
                     row (recompute (store_row s i v)) nodeid)
          then [] else broadcast o).
  split; [reflexivity |]. split; [apply (recompute_link_layer _ W1 o Ho) |].
  destruct (broadcast_once o) as [Hnd Hin].
  destruct (decide (row (store_row s i v) nodeid =
                    row (recompute (store_row s i v)) nodeid)).
  { split; [simpl; lia |]. split; [apply NoDup_nil_2 |].
    intros p Hp. exfalso. revert Hp. apply not_elem_of_nil. }
  split; [apply broadcast_length, (wf_nodeid s W) |]. split; [exact Hnd |].
  intros p Hp. apply Hin in Hp as (j & Hj & Hn & ->). simpl.
  split; [reflexivity |]. split; [by rewrite recompute_dist_table |].
  exists j. unfold neighbour in Hn. apply andb_true_iff in Hn as [H1 H2].
  apply bool_decide_eq_true in H1, H2. auto.
Qed.

(** X14. A negative source counts from the end: [update] takes a
    packet whose source is [-k], for [k] from 1 to [NUM_NODES], for one
    from node [NUM_NODES - k], and does with it exactly what it does
    with that one. *)
Theorem update_negative_source k dst vec s :
  length (dist_table s) = NUM_NODES -> 0 < k <= NUM_NODES ->
  update (Packet.make (- Z.of_nat k) dst vec) s =
  update (Packet.make (Z.of_nat (NUM_NODES - k)) dst vec) s.
Proof.
  intros Hlen Hk.
  pose proof (py_index_neg NUM_NODES k Hk) as E1.
  pose proof (py_index_nonneg NUM_NODES (NUM_NODES - k) ltac:(lia)) as E2.
  unfold update, bind, lift, dist_table_get, list_read, list_copy, new_list, bind, lift.
  simpl. rewrite Hlen, E1, E2.
  destruct (dist_table s !! (NUM_NODES - k)) as [l |]; [| reflexivity].
  destruct (heap s !! l) as [old |]; [| reflexivity].
  destruct (heap s !! vec) as [v |] eqn:Hv; [| reflexivity].
  destruct (decide (old = v)); [reflexivity |].
  unfold list_read, lift. rewrite Hv. simpl. rewrite Hlen, E1, E2. reflexivity.
Qed.

(** X15. [__init__] for a node the simulator has no link costs for, or
    whose number is not below [NUM_NODES], raises IndexError, and
    hands no packet to the link layer before it does. *)
Theorem init_outside_network s0 :
  cost !! nodeid = None \/ NUM_NODES <= nodeid ->
  exists s', init s0 = IndexError s' /\ link_layer s' = link_layer s0.
Proof.
  intros H. unfold init, bind. rewrite new_rows_run. unfold lift.
  destruct (cost !! nodeid) as [own |] eqn:Hc.
  - destruct H as [H | H]; [discriminate |].
    unfold new_list, dist_table_set. simpl. rewrite length_seq.
    destruct (decide (nodeid < NUM_NODES)); [lia |].
    eexists. split; reflexivity.
  - eexists. split; reflexivity.
Qed.

(** X16. A packet in the name of the node itself overwrites the own
    row: for a vector of [NUM_NODES] costs that differs from it,
    [update] returns, the own row is a new list object, and the node's
    distance to itself is the entry of the vector, whatever that
    is. *)
Theorem update_from_itself pkt s v :
  wf s -> wf_cost -> py_index NUM_NODES (Packet.get_src pkt) = Some nodeid ->
  heap s !! Packet.get_dist_vector pkt = Some v -> length v = NUM_NODES ->
  row s nodeid <> Some v ->
  exists s', update pkt s = Ok tt s' /\
             dist_table s' !! nodeid = Some (length (heap s)) /\
             table s' nodeid nodeid = default inf (v !! nodeid).
Proof.
  intros W C Hi Hv Hlen Hne. pose proof (wf_nodeid s W) as Hid.
  pose proof (store_row_wf s nodeid v W Hid Hlen) as W1.
  exists (recompute (store_row s nodeid v)).
  split; [by apply update_changed_run |]. split.
  - rewrite recompute_dist_table. simpl.
    apply list_lookup_insert_eq. by rewrite (wf_table s W).
  - rewrite (recompute_self _ W1). unfold table.
    rewrite store_row_row by (by rewrite (wf_table s W)). reflexivity.
Qed.

(** The loop over [v] raises at a node whose stored row has no entry
    for the destination. *)
Lemma relax_body_raises i c v d t :
  dist_table t !! i = Some c -> heap t !! c = Some v -> length v <= d ->
  relax_body d i t = IndexError t.
Proof.
  intros Hc Hv Hd.
  unfold relax_body, bind, get_link_cost, dist_table_get, list_get, lift.
  destruct (cost !! nodeid ≫= (.!! i)); [| reflexivity].
  rewrite Hc, Hv. simpl. rewrite lookup_ge_None_2 by lia. reflexivity.
Qed.

(** So does the loop over the destinations, before anything is sent,
    and with the short row where it was. *)
Lemma dest_loop_raises i c v o L d t :
  i < NUM_NODES -> d < NUM_NODES -> d <> nodeid -> length v <= d ->
  dist_table t !! i = Some c /\ heap t !! c = Some v /\
  dist_table t !! nodeid = Some o /\ c <> o /\ link_layer t = L ->
  exists t', for_range NUM_NODES dest_body t = IndexError t' /\
             dist_table t' !! i = Some c /\ heap t' !! c = Some v /\
             dist_table t' !! nodeid = Some o /\ c <> o /\ link_layer t' = L.
Proof.
  intros Hi Hd Hdn Hlen.
  set (Q := fun t : State =>
              dist_table t !! i = Some c /\ heap t !! c = Some v /\
              dist_table t !! nodeid = Some o /\ c <> o /\ link_layer t = L).
  assert (forall s o' d' x, Q s -> dist_table s !! nodeid = Some o' -> d' <> nodeid ->
                            Q (state_of (list_set o' d' x s))) as Qset.
  { intros s o' d' x (Hc & Hv & Ho & Hne & HL) Ho' _.
    assert (o' = o) by congruence. subst o'.
    unfold list_set. destruct (heap s !! o) as [r |]; [| by repeat split].
    destruct (decide (d' < length r)); simpl; [| by repeat split].
    repeat split; simpl; auto. rewrite list_lookup_insert_ne by congruence. exact Hv. }
  assert (forall d' v', d' <> nodeid -> v' < NUM_NODES ->
                        preserves Q (predecessors_set d' (Some v'))) as Qpred.
  { intros d' v' _ _ s Hs. unfold predecessors_set.
    destruct (decide (d' < length (predecessors s))); exact Hs. }
  intros Ht. unfold for_range.
  apply (for_each_raises Q (seq 0 NUM_NODES) dest_body d); [| | | exact Ht].
  - intros j _. by apply dest_body_writes.
  - apply elem_of_seq. lia.
  - clear t Ht. intros t Ht. unfold dest_body.
    destruct (decide (d = nodeid)); [contradiction |].
    pose proof Ht as (_ & _ & Ho & _).
    unfold get_dist_vector.
    rewrite (bind_ok _ _ _ o t); [| by apply lift_ok].
    unfold bind. pose proof (Qset t o d inf Ht Ho Hdn) as Hset.
    destruct (list_set o d inf t) as [[] t1 | t1]; simpl in Hset; [| by exists t1].
    apply (for_each_raises Q (seq 0 NUM_NODES) (relax_body d) i); [| | | exact Hset].
    + intros j Hj. apply relax_body_writes; auto. apply elem_of_seq in Hj. lia.
    + apply elem_of_seq. lia.
    + intros t2 Ht2. exists t2. split; [| exact Ht2].
      destruct Ht2 as (Hc & Hv & _). by apply (relax_body_raises i c v).
Qed.

(** X17. A vector that is too short makes [update] raise, late: when
    the vector of another node has no entry for some destination other
    than the node itself, [update] raises IndexError, with the vector
    already stored as that node's row and with nothing handed to the
    link layer. *)
Theorem update_short_vector_raises pkt s i v d :
  wf s -> py_index NUM_NODES (Packet.get_src pkt) = Some i -> i <> nodeid ->
  heap s !! Packet.get_dist_vector pkt = Some v ->
  length v <= d -> d < NUM_NODES -> d <> nodeid ->
  exists s', update pkt s = IndexError s' /\ row s' i = Some v /\
             link_layer s' = link_layer s.
Proof.
  intros W Hi Hin Hv Hlen Hd Hdn. pose proof (py_index_lt _ _ _ Hi) as Li.
  destruct (wf_row s i W Li) as (l & r & Hl & Hr & Hrlen).
  destruct (wf_own s W) as (o & old & Ho & Hold & _).
  rewrite (update_unfold pkt s i v W Hi Hv).
  destruct (decide (row s i = Some v)) as [E | _].
  { unfold row in E. rewrite Hl in E. simpl in E. rewrite Hr in E.
    inversion E. subst r. lia. }
  destruct (dest_loop_raises i (length (heap s)) v o (link_layer s) d
              (store_row s i v) Li Hd Hdn Hlen)
    as (t' & Hrun & Hc & Hv' & _ & _ & HL).
  { simpl. split; [apply list_lookup_insert_eq; by rewrite (wf_table s W) |].
    split; [rewrite lookup_app_r by lia; by rewrite Nat.sub_diag |].
    split; [rewrite list_lookup_insert_ne by congruence; exact Ho |].
    split; [apply lookup_lt_Some in Hold; lia | reflexivity]. }
  exists t'. split; [| split; [unfold row; rewrite Hc; exact Hv' | exact HL]].
  unfold update_helper, get_dist_vector.
  rewrite (bind_ok _ _ _ o (store_row s i v)).
  2:{ apply lift_ok. simpl. rewrite list_lookup_insert_ne by congruence. exact Ho. }
  rewrite (bind_ok _ _ _ old (store_row s i v)).
  2:{ apply lift_ok. simpl. by apply lookup_app_l_Some. }
  by apply bind_raise.
Qed.

(** ** Two vectors, in either order *)

Lemma store_row_other s i v k :
  wf s -> k <> i -> row (store_row s i v) k = row s k.
Proof.
  intros W Hk. unfold row. simpl. rewrite list_lookup_insert_ne by congruence.
  destruct (dist_table s !! k) as [c |] eqn:Hc; [| reflexivity]. simpl.
  destruct (wf_rows s W k c Hc) as (r & Hr & _). rewrite Hr.
  by apply lookup_app_l_Some.
Qed.

Lemma store_row_table_other s i v k b :
  wf s -> k <> i -> table (store_row s i v) k b = table s k b.
Proof. intros W Hk. unfold table. by rewrite store_row_other. Qed.

(** What [update] returns for a live vector of [NUM_NODES] costs. *)
Lemma update_run pkt s i v :
  wf s -> wf_cost -> py_index NUM_NODES (Packet.get_src pkt) = Some i ->
  heap s !! Packet.get_dist_vector pkt = Some v -> length v = NUM_NODES ->
  update pkt s =
  Ok tt (if decide (row s i = Some v) then s else recompute (store_row s i v)).
Proof.
  intros W C Hi Hv Hlen. rewrite (update_unfold pkt s i v W Hi Hv).
  destruct (decide (row s i = Some v)); [reflexivity |].
  apply update_helper_run; [| exact C].
  apply store_row_wf; auto. eapply py_index_lt; eauto.
Qed.

(** The state after a vector of another node has been stored and the
    own row relaxed. *)
Lemma received_wf s i v :
  wf s -> i < NUM_NODES -> length v = NUM_NODES -> wf (recompute (store_row s i v)).
Proof. intros W Hi Hlen. by apply recompute_wf, store_row_wf. Qed.

Lemma received_row s i v k :
  wf s -> i < NUM_NODES -> length v = NUM_NODES -> k <> nodeid ->
  row (recompute (store_row s i v)) k = if decide (k = i) then Some v else row s k.
Proof.
  intros W Hi Hlen Hk.
  rewrite recompute_row_other; [| by apply store_row_wf | exact Hk].
  destruct (decide (k = i)) as [-> | Hne].
  - apply store_row_row. by rewrite (wf_table s W).
  - by apply store_row_other.
Qed.

Lemma received_self s i v :
  wf s -> i < NUM_NODES -> length v = NUM_NODES -> i <> nodeid ->
  table (recompute (store_row s i v)) nodeid nodeid = table s nodeid nodeid.
Proof.
  intros W Hi Hlen Hne.
  rewrite recompute_self by (by apply store_row_wf).
  unfold table. rewrite store_row_other; auto.
Qed.

Lemma received_object s i v l w :
  wf s -> i < NUM_NODES -> length v = NUM_NODES -> i <> nodeid ->
  heap s !! l = Some w -> dist_table s !! nodeid <> Some l ->
  heap (recompute (store_row s i v)) !! l = Some w /\
  dist_table (recompute (store_row s i v)) !! nodeid <> Some l.
Proof.
  intros W Hi Hlen Hne Hl Hown.
  destruct (store_row_keeps_object s i v l w Hl Hown) as [H1 H2].
  split.
  - rewrite recompute_heap_other; [exact H1 | by apply store_row_wf | exact H2].
  - by rewrite recompute_dist_table.
Qed.

(** Two tables that agree on the rows of the other nodes and on the
    node's distance to itself agree after the relaxation. *)
Lemma recompute_table_ext s1 s2 :
  wf s1 -> wf s2 ->
  (forall k, k <> nodeid -> row s1 k = row s2 k) ->
  table s1 nodeid nodeid = table s2 nodeid nodeid ->
  forall a b, table (recompute s1) a b = table (recompute s2) a b.
Proof.
  intros W1 W2 Hrows Hself a b.
  destruct (decide (a = nodeid)) as [-> | Ha].
  - destruct (decide (b = nodeid)) as [-> | Hb].
    + by rewrite !recompute_self.
    + destruct (decide (b < NUM_NODES)) as [Hlt | Hge].
      * rewrite !recompute_own by assumption.
        apply relax_ext. intros v _ Hv. unfold table. by rewrite Hrows.
      * destruct (wf_own _ (recompute_wf s1 W1)) as (o1 & r1 & Ho1 & Hr1 & L1).
        destruct (wf_own _ (recompute_wf s2 W2)) as (o2 & r2 & Ho2 & Hr2 & L2).
        rewrite (table_lookup _ _ _ _ b Ho1 Hr1), (table_lookup _ _ _ _ b Ho2 Hr2).
        rewrite !lookup_ge_None_2 by lia. reflexivity.
  - unfold table. rewrite !recompute_row_other by assumption. by rewrite Hrows.
Qed.

(** X18. The table does not depend on the order in which the vectors
    of two different nodes arrive: for two packets of two other nodes,
    each with a live vector of [NUM_NODES] costs that is not the node's
    own row object, [update] with the one and then the other returns,
    in either order, and every entry of the distance table is the same
    after both orders. *)
Theorem update_order_independent p1 p2 s i j v w :
  wf s -> wf_cost ->
  py_index NUM_NODES (Packet.get_src p1) = Some i ->
  py_index NUM_NODES (Packet.get_src p2) = Some j ->
  i <> j -> i <> nodeid -> j <> nodeid ->
  heap s !! Packet.get_dist_vector p1 = Some v -> length v = NUM_NODES ->
  heap s !! Packet.get_dist_vector p2 = Some w -> length w = NUM_NODES ->
  dist_table s !! nodeid <> Some (Packet.get_dist_vector p1) ->
  dist_table s !! nodeid <> Some (Packet.get_dist_vector p2) ->
  exists s1 s12 s2 s21,
    update p1 s = Ok tt s1 /\ update p2 s1 = Ok tt s12 /\
    update p2 s = Ok tt s2 /\ update p1 s2 = Ok tt s21 /\
    forall a b, table s12 a b = table s21 a b.
Proof.
  intros W C Hi Hj Hij Hin Hjn Hv Lv Hw Lw Ov Ow.
  pose proof (py_index_lt _ _ _ Hi) as Li.
  pose proof (py_index_lt _ _ _ Hj) as Lj.
  rewrite (update_run p1 s i v W C Hi Hv Lv), (update_run p2 s j w W C Hj Hw Lw).
  destruct (decide (row s i = Some v)) as [Ei | Ni];
    destruct (decide (row s j = Some w)) as [Ej | Nj].
  - exists s, s, s, s.
    rewrite (update_run p1 s i v W C Hi Hv Lv), (update_run p2 s j w W C Hj Hw Lw).
    destruct (decide (row s i = Some v)); [| contradiction].
    destruct (decide (row s j = Some w)); [| contradiction]. auto.
  - pose proof (received_wf s j w W Lj Lw) as W2.
    destruct (received_object s j w _ v W Lj Lw Hjn Hv Ov) as [Hv2 _].
    exists s, (recompute (store_row s j w)), (recompute (store_row s j w)),
           (recompute (store_row s j w)).
    rewrite (update_run p2 s j w W C Hj Hw Lw).
    rewrite (update_run p1 _ i v W2 C Hi Hv2 Lv).
    destruct (decide (row s j = Some w)); [contradiction |].
    rewrite (received_row s j w i W Lj Lw Hin).
    destruct (decide (i = j)); [contradiction |].
    destruct (decide (row s i = Some v)); [| contradiction]. auto.
  - pose proof (received_wf s i v W Li Lv) as W1.
    destruct (received_object s i v _ w W Li Lv Hin Hw Ow) as [Hw1 _].
    exists (recompute (store_row s i v)), (recompute (store_row s i v)), s,
           (recompute (store_row s i v)).
    rewrite (update_run p1 s i v W C Hi Hv Lv).
    rewrite (update_run p2 _ j w W1 C Hj Hw1 Lw).
    destruct (decide (row s i = Some v)); [contradiction |].
    rewrite (received_row s i v j W Li Lv Hjn).
    destruct (decide (j = i)); [congruence |].
    destruct (decide (row s j = Some w)); [| contradiction]. auto.
  - pose proof (received_wf s i v W Li Lv) as W1.
    pose proof (received_wf s j w W Lj Lw) as W2.
    destruct (received_object s i v _ w W Li Lv Hin Hw Ow) as [Hw1 _].
    destruct (received_object s j w _ v W Lj Lw Hjn Hv Ov) as [Hv2 _].
    exists (recompute (store_row s i v)),
           (recompute (store_row (recompute (store_row s i v)) j w)),
           (recompute (store_row s j w)),
           (recompute (store_row (recompute (store_row s j w)) i v)).
    rewrite (update_run p2 _ j w W1 C Hj Hw1 Lw).
    rewrite (update_run p1 _ i v W2 C Hi Hv2 Lv).
    rewrite (received_row s i v j W Li Lv Hjn), (received_row s j w i W Lj Lw Hin).
    destruct (decide (j = i)); [congruence |].
    destruct (decide (i = j)); [contradiction |].
    destruct (decide (row s j = Some w)); [contradiction |].
    destruct (decide (row s i = Some v)); [contradiction |].
    split; [reflexivity |]. split; [reflexivity |].
    split; [reflexivity |]. split; [reflexivity |].
    apply recompute_table_ext.
    + by apply store_row_wf.
    + by apply store_row_wf.
    + intros k Hk.
      destruct (decide (k = j)) as [-> | Hkj].
      * rewrite store_row_row by (by rewrite (wf_table _ W1)).
        rewrite (store_row_other _ i v j W2) by congruence.
        rewrite (received_row s j w j W Lj Lw Hjn).
        destruct (decide (j = j)); [reflexivity | congruence].
      * rewrite (store_row_other _ j w k W1 Hkj).
        rewrite (received_row s i v k W Li Lv Hk).
        destruct (decide (k = i)) as [-> | Hki].
        -- symmetry. apply store_row_row. by rewrite (wf_table _ W2).
        -- rewrite (store_row_other _ i v k W2 Hki).
           rewrite (received_row s j w k W Lj Lw Hk).
           destruct (decide (k = j)); [contradiction | reflexivity].
    + rewrite (store_row_table_other _ j w nodeid nodeid W1) by congruence.
      rewrite (store_row_table_other _ i v nodeid nodeid W2) by congruence.
      by rewrite !received_self.
Qed.

(** ** Rows of any length *)

Section Readable.

Variable s : State.
Variable o : loc.
Hypothesis R : readable s.
Hypothesis C : wf_cost.
Hypothesis Ho : dist_table s !! nodeid = Some o.

Lemma rd_own_live : o < length (heap s).
Proof.
  destruct (rd_own s R) as (o' & r & Ho' & Hr & _).
  assert (o' = o) by congruence. subst o'.
  by apply lookup_lt_Some in Hr.
Qed.

Lemma rd_heap_own r ps : heap (with_own s o r ps) !! o = Some r.
Proof. simpl. apply list_lookup_insert_eq. apply rd_own_live. Qed.

Lemma rd_heap_other r ps v l :
  v <> nodeid -> dist_table s !! v = Some l ->
  heap (with_own s o r ps) !! l = heap s !! l.
Proof.
  intros Hv Hl. simpl. apply list_lookup_insert_ne.
  intros ->. apply Hv. eapply NoDup_lookup; eauto. apply (rd_distinct s R).
Qed.

Lemma rd_read_entry r ps d v :
  length r = NUM_NODES -> d < NUM_NODES -> d <> nodeid -> v < NUM_NODES ->
  bind (dist_table_get v) (fun l => list_get l d) (with_own s o r ps) =
  Ok (if decide (v = nodeid) then default inf (r !! d) else table s v d)
     (with_own s o r ps).
Proof.
  intros Hr Hd Hdn Hv.
  destruct (lookup_lt_is_Some_2 (dist_table s) v) as [l Hl].
  { by rewrite (rd_table s R). }
  rewrite (bind_ok _ _ _ l (with_own s o r ps)); [| by apply lift_ok].
  apply lift_ok. destruct (decide (v = nodeid)) as [-> | Hne].
  - assert (l = o) by congruence. subst l.
    rewrite rd_heap_own. simpl. apply lookup_default_num. lia.
  - destruct (rd_rows s R v l Hne Hl) as (rv & Hrv & Hlen).
    rewrite (rd_heap_other r ps v l Hne Hl), Hrv. simpl.
    rewrite (table_lookup s v l rv d Hl Hrv). apply lookup_default_num. by apply Hlen.
Qed.

Lemma rd_set r ps d x :
  d < length r ->
  list_set o d x (with_own s o r ps) = Ok tt (with_own s o (<[d := x]> r) ps).
Proof.
  intros Hd. unfold list_set. rewrite rd_heap_own.
  destruct (decide (d < length r)); [| lia].
  unfold with_own. simpl. rewrite list_insert_insert_eq. reflexivity.
Qed.

Lemma rd_id r ps d :
  d < length r -> d < length ps ->
  with_own s o (<[d := default inf (r !! d)]> r)
               (<[d := default None (ps !! d)]> ps) = with_own s o r ps.
Proof.
  intros Hr Hp.
  rewrite (list_insert_id r d _ (lookup_default_num r d Hr)).
  rewrite (list_insert_id ps d _ (lookup_default_pred ps d Hp)).
  reflexivity.
Qed.

Lemma rd_relax_body_run r ps d v :
  length r = NUM_NODES -> length ps = NUM_NODES ->
  d < NUM_NODES -> d <> nodeid -> v < NUM_NODES ->
  relax_body d v (with_own s o r ps) =
  Ok tt (let a := relax_step s d (default inf (r !! d), default None (ps !! d)) v in
         with_own s o (<[d := a.1]> r) (<[d := a.2]> ps)).
Proof.
  intros Hr Hp Hd Hdn Hv. unfold relax_body.
  rewrite (bind_ok _ _ _ _ _ (get_link_cost_run v _ C Hv)).
  pose proof (rd_read_entry r ps d v Hr Hd Hdn Hv) as Hread.
  unfold bind at 1 in Hread. unfold bind at 1.
  destruct (dist_table_get v (with_own s o r ps)) as [l s1 | s1]; [| discriminate].
  unfold bind at 1. rewrite Hread. clear Hread.
  unfold get_dist_vector.
  rewrite (bind_ok _ _ _ o (with_own s o r ps)); [| by apply lift_ok].
  rewrite (bind_ok _ _ _ (default inf (r !! d)) (with_own s o r ps)).
  2:{ apply lift_ok. rewrite rd_heap_own. simpl.
      apply lookup_default_num. lia. }
  unfold relax_step. simpl.
  destruct (ltb _ (default inf (r !! d))) eqn:Hlt; simpl.
  - rewrite (bind_ok _ _ _ o (with_own s o r ps)); [| by apply lift_ok].
    rewrite (bind_ok _ _ _ _ _ (rd_set r ps d _ ltac:(lia))).
    unfold predecessors_set. simpl.
    destruct (decide (d < length ps)); [reflexivity | lia].
  - unfold ret. rewrite rd_id by lia. reflexivity.
Qed.

Lemma rd_relax_loop_run vs : forall r ps d,
  length r = NUM_NODES -> length ps = NUM_NODES -> d < NUM_NODES -> d <> nodeid ->
  Forall (fun v => v < NUM_NODES) vs ->
  for_each vs (relax_body d) (with_own s o r ps) =
  Ok tt (let a := fold_left (relax_step s d) vs
                    (default inf (r !! d), default None (ps !! d)) in
         with_own s o (<[d := a.1]> r) (<[d := a.2]> ps)).
Proof.
  induction vs as [|v vs IH]; intros r ps d Hr Hp Hd Hdn Hvs; simpl.
  - unfold ret. rewrite rd_id by lia. reflexivity.
  - inversion Hvs as [|? ? Hv Hvs']; subst.
    rewrite (bind_ok _ _ _ _ _ (rd_relax_body_run r ps d v Hr Hp Hd Hdn Hv)).
    cbv zeta. rewrite IH; try (rewrite ?length_insert; auto).
    rewrite !list_lookup_insert_eq by lia. simpl.
    rewrite !list_insert_insert_eq.
    destruct (relax_step s d _ v); reflexivity.
Qed.

Lemma rd_dest_body_run r ps d :
  length r = NUM_NODES -> length ps = NUM_NODES -> d < NUM_NODES ->
  dest_body d (with_own s o r ps) =
  Ok tt (let a := relax_dest s (r, ps) d in with_own s o a.1 a.2).
Proof.
  intros Hr Hp Hd. unfold dest_body, relax_dest.
  destruct (decide (d = nodeid)); [reflexivity |].
  unfold get_dist_vector.
  rewrite (bind_ok _ _ _ o (with_own s o r ps)); [| by apply lift_ok].
  rewrite (bind_ok _ _ _ _ _ (rd_set r ps d inf ltac:(lia))).
  unfold for_range. rewrite rd_relax_loop_run;
    rewrite ?length_insert; auto using seq_bound.
  rewrite list_lookup_insert_eq by lia. simpl.
  rewrite list_insert_insert_eq. reflexivity.
Qed.

Lemma rd_dest_loop_run ds : forall r ps,
  length r = NUM_NODES -> length ps = NUM_NODES ->
  Forall (fun d => d < NUM_NODES) ds ->
  for_each ds dest_body (with_own s o r ps) =
  Ok tt (let a := fold_left (relax_dest s) ds (r, ps) in with_own s o a.1 a.2).
Proof.
  induction ds as [|d ds IH]; intros r ps Hr Hp Hds; simpl.
  - reflexivity.
  - inversion Hds as [|? ? Hd Hds']; subst.
    rewrite (bind_ok _ _ _ _ _ (rd_dest_body_run r ps d Hr Hp Hd)).
    cbv zeta.
    destruct (relax_dest_length s (r, ps) d) as [L1 L2]. simpl in L1, L2.
    rewrite IH by (auto; lia).
    destruct (relax_dest s (r, ps) d); reflexivity.
Qed.

End Readable.

(** [update_helper] returns on any table it can read, and leaves the
    state [recompute] describes. *)
Lemma update_helper_readable_run s :
  readable s -> wf_cost -> update_helper s = Ok tt (recompute s).
Proof.
  intros R C. destruct (rd_own s R) as (o & old & Ho & Hold & Hlen).
  unfold update_helper, recompute, get_dist_vector. rewrite Ho, Hold.
  rewrite (bind_ok _ _ _ o s); [| by apply lift_ok].
  rewrite (bind_ok _ _ _ old s); [| by apply lift_ok].
  assert (s = with_own s o old (predecessors s)) as Es.
  { unfold with_own. rewrite (list_insert_id _ _ _ Hold). destruct s; reflexivity. }
  unfold for_range at 1.
  rewrite (bind_ok _ _ _ tt
             (let a := fold_left (relax_dest s) (seq 0 NUM_NODES) (old, predecessors s) in
              with_own s o a.1 a.2)).
  2:{ rewrite Es at 1. apply rd_dest_loop_run; auto using seq_bound.
      apply (rd_preds s R). }
  cbv zeta.
  set (a := fold_left (relax_dest s) (seq 0 NUM_NODES) (old, predecessors s)).
  rewrite (bind_ok _ _ _ o (with_own s o a.1 a.2)); [| by apply lift_ok].
  rewrite (bind_ok _ _ _ a.1 (with_own s o a.1 a.2)).
  2:{ apply lift_ok. apply (rd_heap_own s o R Ho). }
  destruct (decide (old = a.1)) as [E | E].
  - unfold ret, with_own. rewrite app_nil_r. reflexivity.
  - unfold for_range. rewrite (notify_loop_run o); auto using seq_bound.
Qed.

(** Storing any vector that has the entries [update_helper] reads, in
    the row of another node, leaves a table it can read. *)
Lemma store_row_readable s i v :
  wf s -> i < NUM_NODES -> i <> nodeid ->
  (forall d, d < NUM_NODES -> d <> nodeid -> d < length v) ->
  readable (store_row s i v).
Proof.
  intros W Hi Hne Hv.
  assert (forall j l, dist_table s !! j = Some l -> l < length (heap s)) as Hlive.
  { intros j l Hl. destruct (wf_rows s W j l Hl) as (r & Hr & _).
    by apply lookup_lt_Some in Hr. }
  destruct (wf_own s W) as (o & old & Ho & Hold & Hlen).
  constructor.
  - apply (wf_nodeid s W).
  - simpl. rewrite length_insert. apply (wf_table s W).
  - apply NoDup_alt. intros a b x Ha Hb. simpl in Ha, Hb.
    apply list_lookup_insert_Some in Ha, Hb.
    destruct Ha as [(-> & <- & _) | (Ha1 & Ha2)];
      destruct Hb as [(-> & Hb & _) | (Hb1 & Hb2)]; auto.
    + apply Hlive in Hb2. lia.
    + apply Hlive in Ha2. lia.
    + eapply wf_row_inj; eauto.
  - exists o, old. simpl. split; [| split; [| exact Hlen]].
    + rewrite list_lookup_insert_ne by congruence. exact Ho.
    + by apply lookup_app_l_Some.
  - intros j l Hj Hl. simpl in Hl. apply list_lookup_insert_Some in Hl.
    destruct Hl as [(-> & <- & _) | (Hji & Hl)]; simpl.
    + exists v. split; [| exact Hv].
      rewrite lookup_app_r by lia. by rewrite Nat.sub_diag.
    + destruct (wf_rows s W j l Hl) as (r & Hr & Hrlen).
      exists r. split; [by apply lookup_app_l_Some |]. intros d Hd _. lia.
  - apply (wf_preds s W).
Qed.

(** C8, as amended. [update] checks nothing but its subscripts. A
    source outside [-NUM_NODES, NUM_NODES) raises IndexError with the
    state as it was. Any other source names a row, a negative one
    counting from the end: [-k] names row [NUM_NODES - k]. The length
    of the vector is not checked: for a source that names the row of
    another node, a vector that differs from that row is copied into
    it, and the row holds the vector when [update] is over, whether it
    returns or raises. It raises, IndexError from the relaxation, with
    the vector stored and nothing sent, when the vector has no entry
    for some destination other than the node itself; otherwise, so
    for every vector of more than [NUM_NODES] costs, it returns. *)
Theorem update_malformed pkt s v :
  wf s -> heap s !! Packet.get_dist_vector pkt = Some v ->
  (py_index NUM_NODES (Packet.get_src pkt) = None -> update pkt s = IndexError s) /\
  (forall k, 0 < k <= NUM_NODES -> Packet.get_src pkt = (- Z.of_nat k)%Z ->
     py_index NUM_NODES (Packet.get_src pkt) = Some (NUM_NODES - k)) /\
  (forall i, py_index NUM_NODES (Packet.get_src pkt) = Some i -> i <> nodeid ->
     row s i <> Some v -> row (state_of (update pkt s)) i = Some v) /\
  (forall i d, py_index NUM_NODES (Packet.get_src pkt) = Some i -> i <> nodeid ->
     d < NUM_NODES -> d <> nodeid -> length v <= d ->
     exists s', update pkt s = IndexError s' /\ row s' i = Some v /\
                link_layer s' = link_layer s) /\
  (forall i, py_index NUM_NODES (Packet.get_src pkt) = Some i -> i <> nodeid ->
     wf_cost -> row s i <> Some v ->
     (forall d, d < NUM_NODES -> d <> nodeid -> d < length v) ->
     exists s', update pkt s = Ok tt s' /\ row s' i = Some v).
Proof.
  intros W Hv.
  assert (forall i, py_index NUM_NODES (Packet.get_src pkt) = Some i -> i <> nodeid ->
            row s i <> Some v -> row (state_of (update pkt s)) i = Some v) as Hstored.
  { intros i Hi Hne Hrow. pose proof (py_index_lt _ _ _ Hi) as Li.
    rewrite (update_unfold pkt s i v W Hi Hv).
    destruct (decide (row s i = Some v)); [contradiction |].
    destruct (wf_own s W) as (o & old & Ho & Hold & _).
    destruct (update_helper_keeps_row i v Hne (store_row s i v))
      as (c & o' & Hc & Hc' & _).
    + exists (length (heap s)), o. simpl. repeat split.
      * apply list_lookup_insert_eq. by rewrite (wf_table s W).
      * rewrite lookup_app_r by lia. by rewrite Nat.sub_diag.
      * rewrite list_lookup_insert_ne by congruence. exact Ho.
      * apply lookup_lt_Some in Hold. lia.
    + unfold row. rewrite Hc. exact Hc'. }
  split; [| split; [| split; [exact Hstored | split]]].
  - intros Hnone. unfold update. apply bind_raise. apply lift_raise.
    by rewrite (wf_table s W).
  - intros k Hk ->. by apply py_index_neg.
  - intros i d Hi Hin Hd Hdn Hlen. pose proof (py_index_lt _ _ _ Hi) as Li.
    destruct (wf_row s i W Li) as (l & r & Hl & Hr & Hrlen).
    destruct (wf_own s W) as (o & old & Ho & Hold & _).
    rewrite (update_unfold pkt s i v W Hi Hv).
    destruct (decide (row s i = Some v)) as [E | _].
    { unfold row in E. rewrite Hl in E. simpl in E. rewrite Hr in E.
      inversion E. subst r. lia. }
    destruct (dest_loop_raises i (length (heap s)) v o (link_layer s) d
                (store_row s i v) Li Hd Hdn Hlen)
      as (t' & Hrun & Hc & Hv' & _ & _ & HL).
    { simpl. split; [apply list_lookup_insert_eq; by rewrite (wf_table s W) |].
      split; [rewrite lookup_app_r by lia; by rewrite Nat.sub_diag |].
      split; [rewrite list_lookup_insert_ne by congruence; exact Ho |].
      split; [apply lookup_lt_Some in Hold; lia | reflexivity]. }
    exists t'. split; [| split; [unfold row; rewrite Hc; exact Hv' | exact HL]].
    unfold update_helper, get_dist_vector.
    rewrite (bind_ok _ _ _ o (store_row s i v)).
    2:{ apply lift_ok. simpl. rewrite list_lookup_insert_ne by congruence. exact Ho. }
    rewrite (bind_ok _ _ _ old (store_row s i v)).
    2:{ apply lift_ok. simpl. by apply lookup_app_l_Some. }
    by apply bind_raise.
  - intros i Hi Hin C Hrow Hlen. pose proof (py_index_lt _ _ _ Hi) as Li.
    pose proof (Hstored i Hi Hin Hrow) as Hst.
    rewrite (update_unfold pkt s i v W Hi Hv) in *.
    destruct (decide (row s i = Some v)); [contradiction |].
    assert (update_helper (store_row s i v) = Ok tt (recompute (store_row s i v)))
      as Hrun.
    { apply update_helper_readable_run; [by apply store_row_readable | exact C]. }
    rewrite Hrun in *. eexists. split; [reflexivity | exact Hst].
Qed.

(** ** The Advertisement of the spec *)

(** With the record of its arguments for a packet, the methods
    against a constructor are the methods themselves. *)
Lemma with_reference :
  init_with reference = init /\
  update_helper_with reference = update_helper /\
  (forall pkt, update_with reference pkt = update pkt) /\
  (forall which_link new_cost,
     link_cost_change_handler_with reference which_link new_cost =
     link_cost_change_handler which_link new_cost).
Proof. repeat split. Qed.

Lemma advertisement_run src dst l s R :
  heap s !! l = Some R ->
  advertisement src dst l s =
  Ok (Packet.make src dst (length (heap s)))
     (mkState (heap s ++ [R]) (dist_table s) (predecessors s) (link_layer s)).
Proof.
  intros H. unfold advertisement.
  rewrite (bind_ok _ _ _ _ _ (list_copy_run l s R H)). reflexivity.
Qed.

(** One turn of the notification loop: a neighbour is sent a new list
    that holds the own row. *)
Lemma notify_body_snapshot o R i s :
  wf_cost -> i < NUM_NODES ->
  dist_table s !! nodeid = Some o -> heap s !! o = Some R ->
  notify_body_with advertisement i s =
  Ok tt (if neighbour i
         then mkState (heap s ++ [R]) (dist_table s) (predecessors s)
                (link_layer s ++
                 [Packet.make (Z.of_nat nodeid) (Z.of_nat i) (length (heap s))])
         else s).
Proof.
  intros C Hi Ho HR. unfold notify_body_with, neighbour.
  destruct (decide (i <> nodeid)) as [Hne | He].
  - rewrite (bind_ok _ _ _ _ _ (get_link_cost_run i s C Hi)).
    rewrite (bool_decide_eq_true_2 _ Hne). simpl.
    destruct (decide (link_cost i <> inf)) as [Hf | Hf].
    + rewrite (bool_decide_eq_true_2 _ Hf).
      unfold get_dist_vector.
      rewrite (bind_ok _ _ _ o s); [| by apply lift_ok].
      rewrite (bind_ok _ _ _ _ _ (advertisement_run _ _ o s R HR)).
      reflexivity.
    + rewrite (bool_decide_eq_false_2 _ Hf). reflexivity.
  - rewrite (bool_decide_eq_false_2 _ He). reflexivity.
Qed.

(** One turn of the loop of [__init__]. *)
Lemma init_body_snapshot o R i s :
  wf_cost -> i < NUM_NODES ->
  dist_table s !! nodeid = Some o -> heap s !! o = Some R ->
  length (predecessors s) = NUM_NODES ->
  init_body_with advertisement i s =
  Ok tt (if neighbour i
         then mkState (heap s ++ [R]) (dist_table s) (<[i := Some i]> (predecessors s))
                (link_layer s ++
                 [Packet.make (Z.of_nat nodeid) (Z.of_nat i) (length (heap s))])
         else s).
Proof.
  intros C Hi Ho HR Hp. unfold init_body_with, neighbour.
  destruct (decide (i <> nodeid)) as [Hne | He].
  - rewrite (bind_ok _ _ _ _ _ (get_link_cost_run i s C Hi)).
    rewrite (bool_decide_eq_true_2 _ Hne). simpl.
    destruct (decide (link_cost i <> inf)) as [Hf | Hf].
    + rewrite (bool_decide_eq_true_2 _ Hf).
      rewrite (bind_ok _ _ _ o s); [| by apply lift_ok].
      rewrite (bind_ok _ _ _ _ _ (advertisement_run _ _ o s R HR)).
      unfold bind, to_link_layer, predecessors_set. simpl.
      destruct (decide (i < length (predecessors s))); [reflexivity | lia].
    + rewrite (bool_decide_eq_false_2 _ Hf). reflexivity.
  - rewrite (bool_decide_eq_false_2 _ He). reflexivity.
Qed.

(** A loop of such turns: the table is as it was, the list objects of
    before are as they were, and every message added holds a list of
    its own with the own row in it. *)
Lemma snapshot_loop (body : nat -> M unit)
  (upd : nat -> list (option nat) -> list (option nat)) o R js :
  (forall i ps, length (upd i ps) = length ps) ->
  (forall i s, i < NUM_NODES ->
     dist_table s !! nodeid = Some o -> heap s !! o = Some R ->
     length (predecessors s) = NUM_NODES ->
     body i s =
     Ok tt (if neighbour i
            then mkState (heap s ++ [R]) (dist_table s) (upd i (predecessors s))
                   (link_layer s ++
                    [Packet.make (Z.of_nat nodeid) (Z.of_nat i) (length (heap s))])
            else s)) ->
  Forall (fun i => i < NUM_NODES) js ->
  forall s, dist_table s !! nodeid = Some o -> heap s !! o = Some R ->
    length (predecessors s) = NUM_NODES ->
    exists s' advs,
      for_each js body s = Ok tt s' /\
      dist_table s' = dist_table s /\
      predecessors s' =
        fold_left (fun ps i => if neighbour i then upd i ps else ps) js
                  (predecessors s) /\
      (exists extra, heap s' = heap s ++ extra) /\
      link_layer s' = link_layer s ++ advs /\
      map (fun a => (Packet.get_src a, Packet.get_dst a)) advs =
        map (fun i => (Z.of_nat nodeid, Z.of_nat i))
            (filter (fun i => neighbour i = true) js) /\
      forall a, a ∈ advs ->
        heap s' !! Packet.get_dist_vector a = Some R /\
        length (heap s) <= Packet.get_dist_vector a.
Proof.
  intros Hupd Hbody Hjs. induction Hjs as [|i js Hi Hjs IH]; intros s Ho HR Hp.
  - exists s, []. simpl.
    split; [reflexivity |]. split; [reflexivity |]. split; [reflexivity |].
    split; [exists []; by rewrite app_nil_r |].
    split; [by rewrite app_nil_r |]. split; [reflexivity |].
    intros a Ha. exfalso. revert Ha. apply not_elem_of_nil.
  - simpl. rewrite (bind_ok _ _ _ _ _ (Hbody i s Hi Ho HR Hp)).
    rewrite filter_cons. destruct (neighbour i) eqn:Hn.
    + destruct (decide (true = true)); [| congruence].
      destruct (IH (mkState (heap s ++ [R]) (dist_table s) (upd i (predecessors s))
                      (link_layer s ++
                       [Packet.make (Z.of_nat nodeid) (Z.of_nat i) (length (heap s))])))
        as (s' & advs & Hrun & Hdt & Hps & (extra & Hh) & Hll & Hmap & Hin).
      { exact Ho. }
      { simpl. by apply lookup_app_l_Some. }
      { simpl. by rewrite Hupd. }
      simpl in Hdt, Hps, Hh, Hll.
      exists s', (Packet.make (Z.of_nat nodeid) (Z.of_nat i) (length (heap s)) :: advs).
      split; [exact Hrun |]. split; [exact Hdt |]. split; [exact Hps |].
      split. { exists ([R] ++ extra). rewrite Hh. by rewrite <- app_assoc. }
      split. { rewrite Hll. by rewrite <- app_assoc. }
      split. { simpl. by rewrite Hmap. }
      intros a Ha. apply elem_of_cons in Ha as [-> | Ha].
      * simpl. split; [| lia]. rewrite Hh. apply lookup_app_l_Some.
        rewrite lookup_app_r by lia. by rewrite Nat.sub_diag.
      * destruct (Hin a Ha) as [H1 H2]. split; [exact H1 |].
        simpl in H2. rewrite length_app in H2. simpl in H2. lia.
    + destruct (decide (false = true)); [congruence |]. by apply IH.
Qed.

Lemma fold_left_keep (ps : list (option nat)) js :
  fold_left (fun ps i => if neighbour i then ps else ps) js ps = ps.
Proof.
  induction js as [|i js IH]; simpl; [reflexivity |].
  by destruct (neighbour i).
Qed.

(** [update_helper] with the Advertisement for a packet: the node is
    left as by [update_helper], with new list objects besides, one for
    each message. *)
Lemma update_helper_snapshot_run s :
  wf s -> wf_cost ->
  exists s' advs refs,
    update_helper_with advertisement s = Ok tt s' /\
    dist_table s' = dist_table (recompute s) /\
    predecessors s' = predecessors (recompute s) /\
    (exists extra, heap s' = heap (recompute s) ++ extra) /\
    link_layer s' = link_layer s ++ advs /\
    link_layer (recompute s) = link_layer s ++ refs /\
    map (fun a => (Packet.get_src a, Packet.get_dst a)) advs =
    map (fun a => (Packet.get_src a, Packet.get_dst a)) refs /\
    forall a, a ∈ advs ->
      heap s' !! Packet.get_dist_vector a = row (recompute s) nodeid /\
      length (heap s) <= Packet.get_dist_vector a.
Proof.
  intros W C. destruct (wf_own s W) as (o & old & Ho & Hold & Hlen).
  rewrite (recompute_own_row s o old Ho Hold).
  unfold update_helper_with, recompute, get_dist_vector. rewrite Ho, Hold.
  rewrite (bind_ok _ _ _ o s); [| by apply lift_ok].
  rewrite (bind_ok _ _ _ old s); [| by apply lift_ok].
  assert (s = with_own s o old (predecessors s)) as Es.
  { unfold with_own. rewrite (list_insert_id _ _ _ Hold). destruct s; reflexivity. }
  unfold for_range at 1.
  rewrite (bind_ok _ _ _ tt
             (let a := fold_left (relax_dest s) (seq 0 NUM_NODES) (old, predecessors s) in
              with_own s o a.1 a.2)).
  2:{ rewrite Es at 1. apply dest_loop_run; auto using seq_bound.
      apply (wf_preds s W). }
  cbv zeta.
  destruct (relax_dests_length s (seq 0 NUM_NODES) (old, predecessors s)) as [L1 L2].
  simpl in L1, L2.
  set (a := fold_left (relax_dest s) (seq 0 NUM_NODES) (old, predecessors s)) in *.
  rewrite (bind_ok _ _ _ o (with_own s o a.1 a.2)); [| by apply lift_ok].
  rewrite (bind_ok _ _ _ a.1 (with_own s o a.1 a.2)).
  2:{ apply lift_ok. apply (with_own_heap_own s o W Ho). }
  destruct (decide (old = a.1)) as [E | E].
  - exists (with_own s o a.1 a.2), [], []. simpl.
    split; [reflexivity |]. split; [reflexivity |]. split; [reflexivity |].
    split; [exists []; by rewrite app_nil_r |].
    split; [by rewrite app_nil_r |]. split; [reflexivity |].
    split; [reflexivity |].
    intros p Hp. exfalso. revert Hp. apply not_elem_of_nil.
  - destruct (snapshot_loop (notify_body_with advertisement) (fun _ ps => ps)
                o a.1 (seq 0 NUM_NODES))
      with (s := with_own s o a.1 a.2)
      as (s' & advs & Hrun & Hdt & Hps & Hext & Hll & Hmap & Hin).
    + reflexivity.
    + intros i t Hi Hot HR _. exact (notify_body_snapshot o a.1 i t C Hi Hot HR).
    + apply seq_bound.
    + exact Ho.
    + apply (with_own_heap_own s o W Ho).
    + simpl. rewrite L2. apply (wf_preds s W).
    + exists s', advs, (broadcast o). simpl in *.
      split; [exact Hrun |]. split; [exact Hdt |].
      split; [by rewrite Hps, fold_left_keep |].
      split; [exact Hext |]. split; [exact Hll |]. split; [reflexivity |].
      split. { rewrite Hmap. unfold broadcast. by rewrite map_map. }
      intros p Hp. destruct (Hin p Hp) as [H1 H2].
      split; [exact H1 |]. by rewrite length_insert in H2.
Qed.

(** [__init__] with the Advertisement for a packet. *)
Lemma init_snapshot_run s0 :
  wf_cost -> nodeid < NUM_NODES ->
  exists s' advs,
    init_with advertisement s0 = Ok tt s' /\
    dist_table s' = dist_table (constructed s0) /\
    predecessors s' = predecessors (constructed s0) /\
    (exists extra, heap s' = heap (constructed s0) ++ extra) /\
    link_layer s' = link_layer s0 ++ advs /\
    map (fun a => (Packet.get_src a, Packet.get_dst a)) advs =
      map (fun i => (Z.of_nat nodeid, Z.of_nat i))
          (filter (fun i => neighbour i = true) (seq 0 NUM_NODES)) /\
    forall a, a ∈ advs ->
      heap s' !! Packet.get_dist_vector a = row (constructed s0) nodeid /\
      length (heap (constructed s0)) <= Packet.get_dist_vector a.
Proof.
  intros C Hid. pose proof C as (lcs & Hc & Hl).
  rewrite (constructed_row_own s0 lcs Hc Hid).
  unfold init_with, bind. rewrite new_rows_run.
  unfold lift. rewrite Hc. unfold new_list, dist_table_set. simpl.
  rewrite length_seq. destruct (decide (nodeid < NUM_NODES)); [| lia].
  rewrite length_app, length_replicate. rewrite Hc. simpl.
  unfold for_range.
  destruct (snapshot_loop (init_body_with advertisement)
              (fun i ps => <[i := Some i]> ps)
              (length (heap s0) + NUM_NODES) lcs (seq 0 NUM_NODES))
    with (s := mkState ((heap s0 ++ replicate NUM_NODES (replicate NUM_NODES inf))
                        ++ [lcs])
                 (<[nodeid := length (heap s0) + NUM_NODES]>
                    (seq (length (heap s0)) NUM_NODES))
                 (replicate NUM_NODES None) (link_layer s0))
    as (s' & advs & Hrun & Hdt & Hps & (extra & Hext) & Hll & Hmap & Hin).
  - intros i ps. apply length_insert.
  - intros i t Hi Hot HR Hp. exact (init_body_snapshot _ lcs i t C Hi Hot HR Hp).
  - apply seq_bound.
  - simpl. apply list_lookup_insert_eq. rewrite length_seq. exact Hid.
  - simpl. rewrite lookup_app_r by (rewrite length_app, length_replicate; lia).
    rewrite length_app, length_replicate, Nat.sub_diag. reflexivity.
  - simpl. apply length_replicate.
  - simpl in *. exists s', advs.
    split; [exact Hrun |]. split; [exact Hdt |]. split; [exact Hps |].
    split. { exists extra. rewrite Hext, <- !app_assoc. reflexivity. }
    split; [exact Hll |]. split; [exact Hmap |].
    intros a Ha. destruct (Hin a Ha) as [H1 H2]. split; [exact H1 |].
    rewrite !length_app in *. simpl in *. lia.
Qed.

(** A live list object that is not the own row is not written by
    [update_helper] with the Advertisement for a packet either, and
    does not become the own row. *)
Lemma update_helper_snapshot_keeps_object c r :
  preserves (fun t => heap t !! c = Some r /\ dist_table t !! nodeid <> Some c)
            (update_helper_with advertisement).
Proof.
  assert (forall (t : State) v,
            heap t !! c = Some r /\ dist_table t !! nodeid <> Some c ->
            heap (mkState (heap t ++ [v]) (dist_table t) (predecessors t)
                          (link_layer t)) !! c = Some r /\
            dist_table t !! nodeid <> Some c) as Halloc.
  { intros t v [H1 H2]. split; [by apply lookup_app_l_Some | exact H2]. }
  unfold update_helper_with.
  apply preserves_bind; [apply preserves_lift | intros l].
  apply preserves_bind; [apply preserves_lift | intros temp].
  apply preserves_bind.
  { unfold for_range. apply preserves_for_each. intros d.
    apply dest_body_preserves.
    - intros s o d' x [Hl Hn] Ho _. unfold list_set.
      destruct (heap s !! o) as [r' |]; [| by split].
      destruct (decide (d' < length r')); simpl; [| by split].
      split; [| exact Hn]. rewrite list_lookup_insert_ne; [exact Hl | congruence].
    - intros d' p s Hs. unfold predecessors_set.
      destruct (decide (d' < length (predecessors s))); exact Hs. }
  intros _.
  apply preserves_bind; [apply preserves_lift | intros l'].
  apply preserves_bind; [apply preserves_lift | intros now].
  destruct (decide (temp = now)); [apply preserves_ret |].
  unfold for_range. apply preserves_for_each. intros i. unfold notify_body_with.
  destruct (decide (i <> nodeid)); [| apply preserves_ret].
  apply preserves_bind; [apply preserves_lift | intros lc].
  destruct (decide (lc <> inf)); [| apply preserves_ret].
  apply preserves_bind; [apply preserves_lift | intros o].
  apply preserves_bind.
  - unfold advertisement, list_copy.
    apply preserves_bind.
    + apply preserves_bind; [apply preserves_lift | intros v].
      intros t Ht. exact (Halloc t v Ht).
    + intros c'. apply preserves_ret.
  - intros pkt t Ht. exact Ht.
Qed.

(** [update] with the Advertisement for a packet either leaves the
    state as it is, or stores a copy and ends as [update_helper]
    does from there. *)
Lemma update_with_cases (packet : Z -> Z -> loc -> M Packet.t) pkt s :
  state_of (update_with packet pkt s) = s \/
  exists i v, py_index (length (dist_table s)) (Packet.get_src pkt) = Some i /\
              heap s !! Packet.get_dist_vector pkt = Some v /\
              state_of (update_with packet pkt s) =
              state_of (update_helper_with packet (store_row s i v)).
Proof.
  unfold update_with. rewrite state_of_read.
  destruct (py_index (length (dist_table s)) (Packet.get_src pkt)) as [i |] eqn:Hi;
    [| by left].
  unfold dist_table_get. rewrite state_of_read.
  destruct (dist_table s !! i) as [l |]; [| by left].
  unfold list_read. rewrite state_of_read.
  destruct (heap s !! l) as [old |]; [| by left].
  rewrite state_of_read.
  destruct (heap s !! Packet.get_dist_vector pkt) as [v |] eqn:Hv; [| by left].
  destruct (decide (old = v)); [by left |].
  right. exists i, v. split; [reflexivity |]. split; [reflexivity |].
  rewrite (bind_ok _ _ _ _ _ (list_copy_run _ s v Hv)).
  rewrite state_of_read. simpl. rewrite Hi.
  unfold bind, dist_table_set. simpl.
  destruct (decide (i < length (dist_table s))) as [_ | Hge]; [reflexivity |].
  exfalso. apply Hge. eapply py_index_lt; eauto.
Qed.

(** C9. With the packet a node builds being the Advertisement of the
    spec, a message whose vector is a list of its own, copied when the
    message is built: every message sent, by [__init__] and by the
    notification of [update_helper], one to each neighbour, holds the
    whole own row, [NUM_NODES] costs, as it is when the method
    returns (the row is not written between the first send and the
    return), in a list object that no row of the table refers to. The
    node itself is left as by the methods that take a packet for the
    record of its arguments. And nothing the node does afterwards
    changes the vector of a message that is sent: [update] and
    [link_cost_change_handler] leave every list that is not the own
    row as it is, and never make it the own row, whether they return
    or raise. *)
Theorem advertisement_is_snapshot :
  (forall s0, wf_cost -> nodeid < NUM_NODES ->
     exists s' advs,
       init_with advertisement s0 = Ok tt s' /\
       link_layer s' = link_layer s0 ++ advs /\
       map (fun a => (Packet.get_src a, Packet.get_dst a)) advs =
         map (fun i => (Z.of_nat nodeid, Z.of_nat i))
             (filter (fun i => neighbour i = true) (seq 0 NUM_NODES)) /\
       forall a, a ∈ advs ->
         exists r, heap s' !! Packet.get_dist_vector a = Some r /\
                   row s' nodeid = Some r /\ length r = NUM_NODES /\
                   forall i, dist_table s' !! i <> Some (Packet.get_dist_vector a)) /\
  (forall s, wf s -> wf_cost ->
     exists s' advs s_ref refs,
       update_helper_with advertisement s = Ok tt s' /\
       link_layer s' = link_layer s ++ advs /\
       update_helper s = Ok tt s_ref /\
       link_layer s_ref = link_layer s ++ refs /\
       map (fun a => (Packet.get_src a, Packet.get_dst a)) advs =
       map (fun a => (Packet.get_src a, Packet.get_dst a)) refs /\
       (forall i, row s' i = row s_ref i) /\
       predecessors s' = predecessors s_ref /\
       forall a, a ∈ advs ->
         exists r, heap s' !! Packet.get_dist_vector a = Some r /\
                   row s' nodeid = Some r /\ length r = NUM_NODES /\
                   forall i, dist_table s' !! i <> Some (Packet.get_dist_vector a)) /\
  (forall s c r, heap s !! c = Some r -> dist_table s !! nodeid <> Some c ->
     (forall pkt,
        heap (state_of (update_with advertisement pkt s)) !! c = Some r /\
        dist_table (state_of (update_with advertisement pkt s)) !! nodeid <> Some c) /\
     (forall which_link new_cost,
        heap (state_of (link_cost_change_handler_with advertisement
                          which_link new_cost s)) !! c = Some r /\
        dist_table (state_of (link_cost_change_handler_with advertisement
                                which_link new_cost s)) !! nodeid <> Some c)).
Proof.
  assert (forall t t' : State,
            wf t -> dist_table t' = dist_table t ->
            (exists extra, heap t' = heap t ++ extra) ->
            (forall i, row t' i = row t i) /\
            (forall l, length (heap t) <= l -> forall i, dist_table t' !! i <> Some l))
    as Hsame.
  { intros t t' Wt Hdt (extra & Hh). split.
    - intros i. unfold row. rewrite Hdt.
      destruct (dist_table t !! i) as [l |] eqn:Hl; [| reflexivity]. simpl.
      destruct (wf_rows t Wt i l Hl) as (r & Hr & _). rewrite Hr, Hh.
      by apply lookup_app_l_Some.
    - intros l Hge i Hi. rewrite Hdt in Hi.
      destruct (wf_rows t Wt i l Hi) as (r & Hr & _).
      apply lookup_lt_Some in Hr. lia. }
  split; [| split].
  - intros s0 C Hid.
    destruct (init_snapshot_run s0 C Hid)
      as (s' & advs & Hrun & Hdt & Hps & Hext & Hll & Hmap & Hin).
    pose proof (constructed_wf s0 C Hid) as Wc.
    destruct (Hsame _ s' Wc Hdt Hext) as [Hrows Hfresh].
    destruct (wf_own _ Wc) as (o & r & Ho & Hr & Hlen).
    assert (row (constructed s0) nodeid = Some r) as Hrow.
    { unfold row. by rewrite Ho. }
    exists s', advs. split; [exact Hrun |]. split; [exact Hll |].
    split; [exact Hmap |].
    intros a Ha. destruct (Hin a Ha) as [H1 H2]. exists r.
    split; [by rewrite H1 |]. split; [by rewrite Hrows |].
    split; [exact Hlen |]. by apply Hfresh.
  - intros s W C.
    destruct (update_helper_snapshot_run s W C)
      as (s' & advs & refs & Hrun & Hdt & Hps & Hext & Hll & Hrefs & Hmap & Hin).
    pose proof (recompute_wf s W) as Wr.
    destruct (Hsame _ s' Wr Hdt Hext) as [Hrows Hfresh].
    destruct (wf_own _ Wr) as (o & r & Ho & Hr & Hlen).
    assert (row (recompute s) nodeid = Some r) as Hrow.
    { unfold row. by rewrite Ho. }
    assert (length (heap (recompute s)) = length (heap s)) as Hlh.
    { destruct (wf_own s W) as (o' & old & Ho' & Hold & _).
      unfold recompute. rewrite Ho', Hold. simpl. apply length_insert. }
    exists s', advs, (recompute s), refs.
    split; [exact Hrun |]. split; [exact Hll |].
    split; [by apply update_helper_run |]. split; [exact Hrefs |].
    split; [exact Hmap |]. split; [exact Hrows |]. split; [exact Hps |].
    intros a Ha. destruct (Hin a Ha) as [H1 H2]. exists r.
    split; [by rewrite H1 |]. split; [by rewrite Hrows |].
    split; [exact Hlen |]. apply Hfresh. lia.
  - intros s c r Hc Hown.
    assert (forall t, heap t !! c = Some r /\ dist_table t !! nodeid <> Some c ->
              heap (state_of (update_helper_with advertisement t)) !! c = Some r /\
              dist_table (state_of (update_helper_with advertisement t)) !! nodeid
              <> Some c) as Hkeep.
    { intros t Ht. by apply (update_helper_snapshot_keeps_object c r t). }
    split.
    + intros pkt.
      destruct (update_with_cases advertisement pkt s) as [-> | (i & v & _ & _ & ->)];
        [by split |].
      apply Hkeep. by apply store_row_keeps_object.
    + intros w nc. by apply Hkeep.
Qed.

End Node.

(** ** The properties on the two networks *)

Lemma cost2_shape : wf_cost 2 0 cost2.
Proof. exists [Int 0; Int 1]. split; reflexivity. Qed.

Lemma cost2_shape_1 : wf_cost 2 1 cost2.
Proof. exists [Int 1; Int 0]. split; reflexivity. Qed.

Lemma cost3_shape : wf_cost 3 0 cost3.
Proof. exists [Int 0; Int 1; Int 5]. split; reflexivity. Qed.

Lemma cost3_later_shape : wf_cost 3 0 cost3_later.
Proof. exists [Int 0; Int 10; Int 5]. split; reflexivity. Qed.

Lemma cost4_shape : wf_cost 4 0 cost4.
Proof. exists [Int 0; Int 1; Int 2; inf]. split; reflexivity. Qed.

(** Node 0 of the three-node network after [__init__], with the
    vector [[1, 0, 1]] of node 1 allocated as object 4. *)
Lemma node0_before_wf :
  wf 3 0 (state_of (new_list [Int 1; Int 0; Int 1] (constructed 3 0 cost3 start))).
Proof. apply (alloc_wf 3 0), constructed_wf; [apply cost3_shape | lia]. Qed.

(** The same node after it has received that vector. *)
Lemma node0_after_wf :
  wf 3 0 (recompute 3 0 cost3
            (store_row (state_of (new_list [Int 1; Int 0; Int 1]
                                    (constructed 3 0 cost3 start)))
                       1 [Int 1; Int 0; Int 1])).
Proof.
  apply recompute_wf, store_row_wf; [apply node0_before_wf | lia | reflexivity].
Qed.

(** C1, an instance: node 0 of the three-node network receives the vector
    of node 1; afterwards destinations 1 and 2 are relaxed. *)
Lemma recompute_relaxes_own_row_witness :
  exists s',
    update 3 0 cost3 (Packet.make 1 0 4)
      (state_of (new_list [Int 1; Int 0; Int 1] (constructed 3 0 cost3 start)))
    = Ok tt s' /\
    forall d, d < 3 -> d <> 0 -> relaxed 3 0 cost3 s' d.
Proof.
  apply (proj1 (proj2 (recompute_relaxes_own_row 3 0 cost3 _
                         node0_before_wf cost3_shape eq_refl))
           (Packet.make 1 0 4) 1 [Int 1; Int 0; Int 1]).
  - reflexivity.
  - reflexivity.
  - reflexivity.
  - vm_compute. discriminate.
Defined.

(** C1 as stated fails: right after [__init__] node 0 of the two-node
    network holds cost 1 and predecessor 1 for destination 1, while
    row 1 is still all [inf]: the candidate of the predecessor is
    [inf], not the cost, so destination 1 is not relaxed. *)
Lemma construction_predecessor_not_relaxed :
  exists s', init 2 0 cost2 start = Ok tt s' /\
             table s' 0 1 = Int 1 /\ predecessor s' 1 = Some 1 /\
             cand 0 cost2 s' 1 1 = inf /\
             ~ relaxed 2 0 cost2 s' 1.
Proof.
  eexists. split; [vm_compute; reflexivity |].
  split; [reflexivity |]. split; [reflexivity |]. split; [reflexivity |].
  intros (_ & _ & H). destruct H as (v & Hp & _ & Hc); [vm_compute; discriminate |].
  vm_compute in Hp. inversion Hp; subst v. vm_compute in Hc. discriminate.
Qed.

(** C2, an instance: [__init__] of node 0 of the three-node network. *)
Lemma init_state_witness :
  exists s' own,
    init 3 0 cost3 start = Ok tt s' /\
    dist_table s' !! 0 = Some own /\
    row s' 0 = cost3 !! 0 /\
    (forall i, i < 3 -> i <> 0 -> row s' i = Some (replicate 3 inf)) /\
    (forall j, j < 3 -> table s' 0 j = link_cost 0 cost3 j) /\
    (forall j, j < 3 ->
       predecessors s' !! j = Some (if neighbour 0 cost3 j then Some j else None)) /\
    link_layer s' = link_layer start ++ broadcast 3 0 cost3 own.
Proof. apply (init_state 3 0 cost3 start); [apply cost3_shape | lia]. Defined.

(** C3, an instance: node 0 after it has received the vector of node 1;
    relaxing again finds the same row. *)
Lemma update_helper_broadcast_witness :
  exists s' own,
    update_helper 3 0 cost3
      (recompute 3 0 cost3
         (store_row (state_of (new_list [Int 1; Int 0; Int 1]
                                 (constructed 3 0 cost3 start)))
                    1 [Int 1; Int 0; Int 1])) = Ok tt s' /\
    dist_table
      (recompute 3 0 cost3
         (store_row (state_of (new_list [Int 1; Int 0; Int 1]
                                 (constructed 3 0 cost3 start)))
                    1 [Int 1; Int 0; Int 1])) !! 0 = Some own /\
    link_layer s' =
    link_layer
      (recompute 3 0 cost3
         (store_row (state_of (new_list [Int 1; Int 0; Int 1]
                                 (constructed 3 0 cost3 start)))
                    1 [Int 1; Int 0; Int 1])).
Proof.
  destruct (update_helper_broadcast 3 0 cost3 _ node0_after_wf cost3_shape)
    as (s' & own & Hrun & Hown & Htab & Hrow & Hsame & Hdiff).
  exists s', own. split; [exact Hrun |]. split; [exact Hown |].
  apply Hsame.
  rewrite (update_helper_run 3 0 cost3 _ node0_after_wf cost3_shape) in Hrun.
  inversion Hrun. vm_compute. reflexivity.
Defined.

(** C4, an instance: the vector of node 1 delivered twice to node 0. *)
Lemma update_same_vector_witness :
  exists s1,
    update 3 0 cost3 (Packet.make 1 0 4)
      (state_of (new_list [Int 1; Int 0; Int 1] (constructed 3 0 cost3 start)))
    = Ok tt s1 /\
    update 3 0 cost3 (Packet.make 1 0 4) s1 = Ok tt s1.
Proof.
  apply (proj2 (update_same_vector 3 0 cost3 (Packet.make 1 0 4) _ 1
                  [Int 1; Int 0; Int 1] node0_before_wf eq_refl eq_refl)).
  - apply cost3_shape.
  - reflexivity.
  - lia.
  - vm_compute. discriminate.
Defined.

(** C5, an instance: node 0 keeps distance 0 to itself when it receives
    the vector of node 1. *)
Lemma self_distance_zero_witness :
  table (state_of (update 3 0 cost3 (Packet.make 1 0 4)
                     (state_of (new_list [Int 1; Int 0; Int 1]
                                  (constructed 3 0 cost3 start))))) 0 0 = Int 0.
Proof.
  apply (proj1 (proj2 (self_distance_zero 3 0 cost3))).
  - reflexivity.
  - vm_compute. discriminate.
Defined.

(** Node 0 of the ring of four with the vectors [[1, 0, 3, 2]] of
    node 1 and [[2, 3, 0, 1]] of node 2 stored, before it relaxes. *)
Lemma node0_of_four_wf :
  wf 4 0 (store_row (store_row (constructed 4 0 cost4 start)
                               1 [Int 1; Int 0; Int 3; Int 2])
                    2 [Int 2; Int 3; Int 0; Int 1]).
Proof.
  apply store_row_wf; [| lia | reflexivity].
  apply store_row_wf; [| lia | reflexivity].
  apply constructed_wf; [apply cost4_shape | lia].
Qed.

(** C6 as stated fails: node 0 of the ring of four reaches node 3 at
    cost 3 through node 1 and through node 2. In the table it ends
    with, 3 is the minimum of the candidates of all nodes, and node 0
    itself is the smallest node whose candidate is 3 (its link to
    itself costs 0); the predecessor is node 1. *)
Lemma own_candidate_ties_below_predecessor :
  exists s',
    update_helper 4 0 cost4
      (store_row (store_row (constructed 4 0 cost4 start)
                            1 [Int 1; Int 0; Int 3; Int 2])
                 2 [Int 2; Int 3; Int 0; Int 1]) = Ok tt s' /\
    table s' 0 3 = Int 3 /\
    (forall v, v < 4 -> le (Int 3) (cand 0 cost4 s' 3 v)) /\
    cand 0 cost4 s' 3 0 = Int 3 /\
    cand 0 cost4 s' 3 1 = Int 3 /\
    predecessor s' 3 = Some 1.
Proof.
  eexists. split; [vm_compute; reflexivity |].
  split; [reflexivity |]. split.
  - intros v Hv. destruct v as [|[|[|[|v]]]]; try lia; vm_compute; reflexivity.
  - split; [reflexivity |]. split; reflexivity.
Qed.

(** C6, an instance: in that same run nodes 1 and 2 tie for
    destination 3, and node 1, the first of them, is the predecessor. *)
Lemma tie_break_lowest_index_witness :
  exists s',
    update_helper 4 0 cost4
      (store_row (store_row (constructed 4 0 cost4 start)
                            1 [Int 1; Int 0; Int 3; Int 2])
                 2 [Int 2; Int 3; Int 0; Int 1]) = Ok tt s' /\
    table s' 0 3 = Int 3 /\
    cand 0 cost4 s' 3 1 = Int 3 /\
    cand 0 cost4 s' 3 2 = Int 3 /\
    predecessor s' 3 = Some 1 /\
    first_best 4 0 cost4 s' 3 1 /\
    (forall v, v < 4 -> v <> 0 -> cand 0 cost4 s' 3 v = table s' 0 3 -> 1 <= v).
Proof.
  destruct (tie_break_lowest_index 4 0 cost4 _ node0_of_four_wf cost4_shape)
    as (s' & Hrun & Htie & _).
  exists s'. split; [exact Hrun |].
  rewrite (update_helper_run 4 0 cost4 _ node0_of_four_wf cost4_shape) in Hrun.
  inversion Hrun as [E]. rewrite <- E in Htie.
  split; [reflexivity |]. split; [reflexivity |]. split; [reflexivity |].
  destruct (Htie 3) as (v0 & Hp & _ & Hfb); [lia | lia | vm_compute; discriminate |].
  vm_compute in Hp. inversion Hp as [Hv0]. rewrite <- Hv0 in Hfb.
  split; [reflexivity |]. apply Hfb. reflexivity.
Defined.

(** C7 as stated fails: node 0 of the two-node network is constructed
    and then told of a link change before any vector has arrived. Its
    cost to node 1 becomes [inf], and [get_predecessor] still returns
    node 1, not the unset [None]. *)
Lemma stale_predecessor_of_unreachable :
  exists s1 s2,
    init 2 0 cost2 start = Ok tt s1 /\
    link_cost_change_handler 2 0 cost2 1 (Int 1) s1 = Ok tt s2 /\
    table s2 0 1 = inf /\
    get_predecessor 1 s2 = Ok (Some 1) s2.
Proof.
  eexists. eexists. split; [vm_compute; reflexivity |].
  split; [vm_compute; reflexivity |]. split; reflexivity.
Qed.

(** C7, an instance: the same node, relaxed after construction. *)
Lemma unreachable_keeps_predecessor_witness :
  exists s',
    update_helper 2 0 cost2 (constructed 2 0 cost2 start) = Ok tt s' /\
    forall d, d < 2 -> d <> 0 -> table s' 0 d = inf ->
      forall p, get_predecessor d (constructed 2 0 cost2 start)
                = Ok p (constructed 2 0 cost2 start) ->
                get_predecessor d s' = Ok p s'.
Proof.
  apply (unreachable_keeps_predecessor 2 0 cost2 (constructed 2 0 cost2 start)).
  - apply constructed_wf; [apply cost2_shape | lia].
  - apply cost2_shape.
Defined.

(** C8 as stated fails: node 0 of the two-node network is handed a
    vector of three costs in the name of node 1. [update] returns
    without raising, and row 1 of the table is that vector. *)
Lemma overlong_vector_is_stored :
  exists s',
    update 2 0 cost2 (Packet.make 1 0 3)
      (state_of (new_list [Int 1; Int 0; Int 7] (constructed 2 0 cost2 start)))
    = Ok tt s' /\
    row s' 1 = Some [Int 1; Int 0; Int 7].
Proof. eexists. split; [vm_compute; reflexivity | reflexivity]. Qed.

(** C8, two instances, of a vector of one cost each. Node 0 of the
    two-node network is handed [[1]] in the name of node 1: there is
    no entry for destination 1, and [update] raises with the vector
    stored and nothing sent. Node 1 is handed [[5]] in the name of
    node 0: the only entry missing is its own, and [update] returns
    with the vector stored. *)
Lemma update_malformed_witness :
  (exists s',
     update 2 0 cost2 (Packet.make 1 0 3)
       (state_of (new_list [Int 1] (constructed 2 0 cost2 start)))
     = IndexError s' /\
     row s' 1 = Some [Int 1] /\
     link_layer s' =
     link_layer (state_of (new_list [Int 1] (constructed 2 0 cost2 start)))) /\
  (exists s',
     update 2 1 cost2 (Packet.make 0 1 3)
       (state_of (new_list [Int 5] (constructed 2 1 cost2 start)))
     = Ok tt s' /\
     row s' 0 = Some [Int 5]).
Proof.
  split.
  - apply (proj1 (proj2 (proj2 (proj2
             (update_malformed 2 0 cost2 (Packet.make 1 0 3)
                (state_of (new_list [Int 1] (constructed 2 0 cost2 start)))
                [Int 1]
                (alloc_wf 2 0 _ _ (constructed_wf 2 0 cost2 start cost2_shape
                                     ltac:(lia)))
                eq_refl)))) 1 1).
    + reflexivity.
    + lia.
    + lia.
    + lia.
    + simpl. lia.
  - apply (proj2 (proj2 (proj2 (proj2
             (update_malformed 2 1 cost2 (Packet.make 0 1 3)
                (state_of (new_list [Int 5] (constructed 2 1 cost2 start)))
                [Int 5]
                (alloc_wf 2 1 _ _ (constructed_wf 2 1 cost2 start cost2_shape_1
                                     ltac:(lia)))
                eq_refl)))) 0).
    + reflexivity.
    + lia.
    + apply cost2_shape_1.
    + vm_compute. discriminate.
    + intros d Hd Hne. destruct d as [|[|d]]; [simpl; lia | lia | lia].
Defined.

(** The snapshot is the message's, not the node's: what [__init__]
    hands to [Packet] is the list object of the own row, not a copy.
    With a packet that were the record of its arguments, node 0 of
    the two-node network would send [(0, 1, own row)] while the row is
    [[0, 1]], and after [link_cost_change_handler] has rewritten the
    row in place the vector of that packet would read [[0, inf]]. *)
Lemma sent_vector_follows_own_row :
  exists s1 s2 pkt,
    init 2 0 cost2 start = Ok tt s1 /\
    link_layer s1 = [pkt] /\
    dist_table s1 !! 0 = Some (Packet.get_dist_vector pkt) /\
    heap s1 !! Packet.get_dist_vector pkt = Some [Int 0; Int 1] /\
    link_cost_change_handler 2 0 cost2 1 (Int 1) s1 = Ok tt s2 /\
    heap s2 !! Packet.get_dist_vector pkt = Some [Int 0; inf].
Proof.
  eexists. eexists. eexists. split; [vm_compute; reflexivity |].
  split; [reflexivity |]. split; [reflexivity |]. split; [reflexivity |].
  split; [vm_compute; reflexivity | reflexivity].
Qed.

(** C9, an instance: node 0 of the two-node network sends its row
    [[0, 1]] at construction, and is told of a link change before any
    vector has arrived. Its row becomes [[0, inf]]; the message it
    sent still holds [[0, 1]]. *)
Lemma advertisement_is_snapshot_witness :
  exists s1 a,
    init_with 2 0 cost2 advertisement start = Ok tt s1 /\
    link_layer s1 = [a] /\
    heap s1 !! Packet.get_dist_vector a = Some [Int 0; Int 1] /\
    row (state_of (link_cost_change_handler_with 2 0 cost2 advertisement
                     1 (Int 1) s1)) 0 = Some [Int 0; inf] /\
    heap (state_of (link_cost_change_handler_with 2 0 cost2 advertisement
                      1 (Int 1) s1)) !! Packet.get_dist_vector a
    = Some [Int 0; Int 1].
Proof.
  eexists. eexists. split; [vm_compute; reflexivity |].
  split; [reflexivity |]. split; [reflexivity |].
  split; [vm_compute; reflexivity |].
  match goal with
  | |- heap (state_of (_ ?s)) !! ?c = Some ?r =>
      destruct (proj2 (proj2 (advertisement_is_snapshot 2 0 cost2)) s c r)
        as [_ Hh]; [reflexivity | vm_compute; discriminate |];
      apply (proj1 (Hh 1 (Int 1)))
  end.
Defined.

(** C10, an instance: node 0 of the three-node network holds the row
    [[0, 1, 2]] it computed from the vector of node 1 when the cost of
    link 0-1 goes up to 10. The handler is called for link 0-2 with the
    cost 5 that link already has: it relaxes every destination against
    the new costs all the same, and sends the new row to both
    neighbours. *)
Lemma link_cost_change_handler_ignores_arguments_witness :
  exists s',
    link_cost_change_handler 3 0 cost3_later 2 (Int 5)
      (recompute 3 0 cost3
         (store_row (state_of (new_list [Int 1; Int 0; Int 1]
                                 (constructed 3 0 cost3 start)))
                    1 [Int 1; Int 0; Int 1])) = Ok tt s' /\
    link_cost 0 cost3_later 2 = Int 5 /\
    row (recompute 3 0 cost3
           (store_row (state_of (new_list [Int 1; Int 0; Int 1]
                                   (constructed 3 0 cost3 start)))
                      1 [Int 1; Int 0; Int 1])) 0
    = Some [Int 0; Int 1; Int 2] /\
    row s' 0 = Some [Int 0; Int 10; Int 11] /\
    (forall d, d < 3 -> d <> 0 -> relaxed 3 0 cost3_later s' d) /\
    length (link_layer s') =
    length (link_layer
              (recompute 3 0 cost3
                 (store_row (state_of (new_list [Int 1; Int 0; Int 1]
                                         (constructed 3 0 cost3 start)))
                            1 [Int 1; Int 0; Int 1]))) + 2.
Proof.
  destruct (link_cost_change_handler_ignores_arguments 3 0 cost3_later _
              node0_after_wf cost3_later_shape)
    as (s' & own & Hall & _ & Hrel & _ & _).
  exists s'. split; [apply Hall |].
  split; [reflexivity |]. split; [reflexivity |].
  pose proof (Hall 2 (Int 5)) as Hrun.
  unfold link_cost_change_handler in Hrun.
  rewrite (update_helper_run 3 0 cost3_later _ node0_after_wf cost3_later_shape)
    in Hrun.
  inversion Hrun as [E]. rewrite <- E in Hrel.
  split; [reflexivity |]. split; [apply Hrel; reflexivity | reflexivity].
Defined.

(** ** The further properties on the two networks *)

(** Node 0 of the three-node network after [__init__]. *)
Lemma node0_constructed_wf : wf 3 0 (constructed 3 0 cost3 start).
Proof. apply constructed_wf; [apply cost3_shape | lia]. Qed.

(** The same node with the vector of node 1 stored, before it
    relaxes. *)
Lemma node0_stored_wf :
  wf 3 0 (store_row (state_of (new_list [Int 1; Int 0; Int 1]
                                 (constructed 3 0 cost3 start)))
                    1 [Int 1; Int 0; Int 1]).
Proof. apply store_row_wf; [apply node0_before_wf | lia | reflexivity]. Qed.

(** The same node with the vectors of nodes 1 and 2 allocated as
    objects 4 and 5. *)
Lemma node0_two_vectors_wf :
  wf 3 0 (state_of (new_list [Int 5; Int 1; Int 0]
            (state_of (new_list [Int 1; Int 0; Int 1]
                         (constructed 3 0 cost3 start))))).
Proof. apply (alloc_wf 3 0), node0_before_wf. Qed.

(** X1, an instance: node 0 of the three-node network relaxes after
    construction, and then again. *)
Lemma update_helper_idempotent_witness :
  exists s', update_helper 3 0 cost3 (constructed 3 0 cost3 start) = Ok tt s' /\
             update_helper 3 0 cost3 s' = Ok tt s' /\
             forall which_link new_cost,
               link_cost_change_handler 3 0 cost3 which_link new_cost s' = Ok tt s'.
Proof.
  apply (update_helper_idempotent 3 0 cost3 _ node0_constructed_wf cost3_shape).
Defined.

(** X2, an instance: node 0 right after construction, where the own
    row holds the link costs, and after a relaxation, where it holds
    [inf]: the rows of nodes 1 and 2 are all [inf] in both. *)
Lemma update_helper_forgets_own_row_witness :
  exists s1' s2',
    update_helper 3 0 cost3 (constructed 3 0 cost3 start) = Ok tt s1' /\
    update_helper 3 0 cost3 (recompute 3 0 cost3 (constructed 3 0 cost3 start))
    = Ok tt s2' /\
    forall d, d < 3 -> d <> 0 -> table s1' 0 d = table s2' 0 d.
Proof.
  apply (update_helper_forgets_own_row 3 0 cost3 _ _ node0_constructed_wf
           (recompute_wf 3 0 cost3 _ node0_constructed_wf) cost3_shape).
  intros v d Hv Hd Hne.
  destruct v as [|[|[|v]]]; try lia; destruct d as [|[|[|d]]]; try lia;
    vm_compute; reflexivity.
Defined.

(** X3, an instance: node 0 of the two-node network right after
    construction. *)
Lemma update_helper_without_vectors_witness :
  exists s', update_helper 2 0 cost2 (constructed 2 0 cost2 start) = Ok tt s' /\
    (forall d, d < 2 -> d <> 0 -> table s' 0 d = inf) /\
    predecessors s' = predecessors (constructed 2 0 cost2 start).
Proof.
  apply (update_helper_without_vectors 2 0 cost2 _
           (constructed_wf 2 0 cost2 start cost2_shape ltac:(lia)) cost2_shape).
  - intros v Hv. right. destruct v as [|[|v]]; try lia.
    + exists 0%Z. split; [reflexivity | lia].
    + exists 1%Z. split; [reflexivity | lia].
  - intros v d Hv Hd Hne.
    destruct v as [|[|v]]; try lia; destruct d as [|[|d]]; try lia;
      vm_compute; reflexivity.
Defined.

(** X4, an instance: node 0 of the three-node network with the vector
    [[1, 0, 1]] of node 1 stored. *)
Lemma update_helper_nonnegative_witness :
  exists s',
    update_helper 3 0 cost3
      (store_row (state_of (new_list [Int 1; Int 0; Int 1]
                              (constructed 3 0 cost3 start)))
                 1 [Int 1; Int 0; Int 1]) = Ok tt s' /\
    forall d, d < 3 -> d <> 0 -> le (Int 0) (table s' 0 d).
Proof.
  apply (update_helper_nonnegative 3 0 cost3 _ node0_stored_wf cost3_shape).
  - intros v Hv. destruct v as [|[|[|v]]]; try lia; vm_compute; reflexivity.
  - intros v d Hv Hd Hne.
    destruct v as [|[|[|v]]]; try lia; destruct d as [|[|[|d]]]; try lia;
      vm_compute; reflexivity.
Defined.

(** X5, an instance: node 0 with the vector of node 1 stored, against
    node 0 with row 1 still all [inf]. *)
Lemma update_helper_monotone_witness :
  exists s1' s2',
    update_helper 3 0 cost3
      (store_row (state_of (new_list [Int 1; Int 0; Int 1]
                              (constructed 3 0 cost3 start)))
                 1 [Int 1; Int 0; Int 1]) = Ok tt s1' /\
    update_helper 3 0 cost3
      (state_of (new_list [Int 1; Int 0; Int 1] (constructed 3 0 cost3 start)))
    = Ok tt s2' /\
    forall d, d < 3 -> d <> 0 -> le (table s1' 0 d) (table s2' 0 d).
Proof.
  apply (update_helper_monotone 3 0 cost3 _ _ node0_stored_wf node0_before_wf
           cost3_shape).
  intros v d Hv Hd Hne.
  destruct v as [|[|[|v]]]; try lia; destruct d as [|[|[|d]]]; try lia;
    vm_compute; reflexivity.
Defined.

(** X6, an instance: the vector of node 1, object 4, while node 0
    holds object 3 as its own row. *)
Lemma entry_points_write_own_row_only_witness :
  heap (state_of (update_helper 3 0 cost3
                    (state_of (new_list [Int 1; Int 0; Int 1]
                                 (constructed 3 0 cost3 start))))) !! 4
  = Some [Int 1; Int 0; Int 1] /\
  (forall which_link new_cost,
     heap (state_of (link_cost_change_handler 3 0 cost3 which_link new_cost
                       (state_of (new_list [Int 1; Int 0; Int 1]
                                    (constructed 3 0 cost3 start))))) !! 4
     = Some [Int 1; Int 0; Int 1]) /\
  (forall pkt,
     heap (state_of (update 3 0 cost3 pkt
                       (state_of (new_list [Int 1; Int 0; Int 1]
                                    (constructed 3 0 cost3 start))))) !! 4
     = Some [Int 1; Int 0; Int 1]).
Proof.
  apply (entry_points_write_own_row_only 3 0 cost3
           (state_of (new_list [Int 1; Int 0; Int 1] (constructed 3 0 cost3 start)))
           4 [Int 1; Int 0; Int 1]).
  - reflexivity.
  - vm_compute. discriminate.
Defined.

(** X7, an instance: node 0 receives the vector of node 1; row 2 is as
    it was. *)
Lemma update_keeps_other_rows_witness :
  row (state_of (update 3 0 cost3 (Packet.make 1 0 4)
                   (state_of (new_list [Int 1; Int 0; Int 1]
                                (constructed 3 0 cost3 start))))) 2
  = row (state_of (new_list [Int 1; Int 0; Int 1] (constructed 3 0 cost3 start))) 2.
Proof.
  apply (update_keeps_other_rows 3 0 cost3 (Packet.make 1 0 4) _ 1 2 node0_before_wf).
  - reflexivity.
  - lia.
  - lia.
Defined.

(** X8, an instance: node 0 receives the vector of node 1, object 4. *)
Lemma update_stores_fresh_copy_witness :
  exists c,
    dist_table (state_of (update 3 0 cost3 (Packet.make 1 0 4)
                            (state_of (new_list [Int 1; Int 0; Int 1]
                                         (constructed 3 0 cost3 start))))) !! 1
    = Some c /\
    heap (state_of (new_list [Int 1; Int 0; Int 1] (constructed 3 0 cost3 start))) !! c
    = None /\
    c <> Packet.get_dist_vector (Packet.make 1 0 4) /\
    (dist_table (state_of (new_list [Int 1; Int 0; Int 1]
                             (constructed 3 0 cost3 start))) !! 0
     <> Some (Packet.get_dist_vector (Packet.make 1 0 4)) ->
     heap (state_of (update 3 0 cost3 (Packet.make 1 0 4)
                       (state_of (new_list [Int 1; Int 0; Int 1]
                                    (constructed 3 0 cost3 start)))))
       !! Packet.get_dist_vector (Packet.make 1 0 4)
     = Some [Int 1; Int 0; Int 1]).
Proof.
  apply (update_stores_fresh_copy 3 0 cost3 (Packet.make 1 0 4) _ 1
           [Int 1; Int 0; Int 1] node0_before_wf).
  - reflexivity.
  - reflexivity.
  - vm_compute. discriminate.
Defined.

(** X9, an instance: the own row of node 0 is object 3. *)
Lemma own_row_object_is_stable_witness :
  (forall which_link new_cost,
     get_dist_vector 0
       (state_of (link_cost_change_handler 3 0 cost3 which_link new_cost
                    (state_of (new_list [Int 1; Int 0; Int 1]
                                 (constructed 3 0 cost3 start)))))
     = Ok 3 (state_of (link_cost_change_handler 3 0 cost3 which_link new_cost
                         (state_of (new_list [Int 1; Int 0; Int 1]
                                      (constructed 3 0 cost3 start)))))) /\
  (forall pkt,
     py_index (length (dist_table (state_of (new_list [Int 1; Int 0; Int 1]
                                               (constructed 3 0 cost3 start)))))
              (Packet.get_src pkt) <> Some 0 ->
     get_dist_vector 0
       (state_of (update 3 0 cost3 pkt
                    (state_of (new_list [Int 1; Int 0; Int 1]
                                 (constructed 3 0 cost3 start)))))
     = Ok 3 (state_of (update 3 0 cost3 pkt
                         (state_of (new_list [Int 1; Int 0; Int 1]
                                      (constructed 3 0 cost3 start)))))).
Proof.
  apply (own_row_object_is_stable 3 0 cost3
           (state_of (new_list [Int 1; Int 0; Int 1] (constructed 3 0 cost3 start))) 3).
  reflexivity.
Defined.

(** X10, an instance: [__init__] of node 0 of the three-node network. *)
Lemma own_predecessor_is_never_written_witness :
  exists s, init 3 0 cost3 start = Ok tt s /\ get_predecessor 0 s = Ok None s.
Proof.
  apply (proj1 (own_predecessor_is_never_written 3 0 cost3) start);
    [apply cost3_shape | lia].
Defined.

(** X11, an instance: [__init__] of node 0 of the three-node network. *)
Lemma predecessors_are_node_numbers_witness :
  exists s, init 3 0 cost3 start = Ok tt s /\
    forall d v, predecessors s !! d = Some (Some v) -> v < 3.
Proof.
  apply (proj1 (predecessors_are_node_numbers 3 0 cost3) start);
    [apply cost3_shape | lia].
Defined.

(** X12, an instance: node 0 after construction, with predecessors
    [None], 1 and 2. *)
Lemma predecessor_is_another_node_witness :
  exists s', update_helper 3 0 cost3 (constructed 3 0 cost3 start) = Ok tt s' /\
             forall d, predecessor s' d <> Some 0.
Proof.
  apply (predecessor_is_another_node 3 0 cost3 _ node0_constructed_wf cost3_shape).
  - reflexivity.
  - intros d. destruct d as [|[|[|d]]]; vm_compute; discriminate.
Defined.

(** X13, an instance: node 0 receives the vector of node 1. *)
Lemma update_sends_to_neighbours_witness :
  exists s' news,
    update 3 0 cost3 (Packet.make 1 0 4)
      (state_of (new_list [Int 1; Int 0; Int 1] (constructed 3 0 cost3 start)))
    = Ok tt s' /\
    link_layer s' =
    link_layer (state_of (new_list [Int 1; Int 0; Int 1]
                            (constructed 3 0 cost3 start))) ++ news /\
    length news <= 3 - 1 /\ NoDup news /\
    forall p, p ∈ news ->
      Packet.get_src p = Z.of_nat 0 /\
      dist_table s' !! 0 = Some (Packet.get_dist_vector p) /\
      exists j, Packet.get_dst p = Z.of_nat j /\ j < 3 /\ j <> 0 /\
                link_cost 0 cost3 j <> inf.
Proof.
  apply (update_sends_to_neighbours 3 0 cost3 (Packet.make 1 0 4) _ 1
           [Int 1; Int 0; Int 1] node0_before_wf cost3_shape).
  - reflexivity.
  - reflexivity.
  - reflexivity.
Defined.

(** X14, an instance: source -2 of three nodes is node 1. *)
Lemma update_negative_source_witness :
  update 3 0 cost3 (Packet.make (- Z.of_nat 2) 0 4)
    (state_of (new_list [Int 1; Int 0; Int 1] (constructed 3 0 cost3 start)))
  = update 3 0 cost3 (Packet.make (Z.of_nat (3 - 2)) 0 4)
      (state_of (new_list [Int 1; Int 0; Int 1] (constructed 3 0 cost3 start))).
Proof.
  apply (update_negative_source 3 0 cost3 2 0 4).
  - reflexivity.
  - lia.
Defined.

(** X15, an instance: a node 5 in the two-node network. *)
Lemma init_outside_network_witness :
  exists s', init 2 5 cost2 start = IndexError s' /\ link_layer s' = link_layer start.
Proof. apply (init_outside_network 2 5 cost2 start). left. reflexivity. Defined.

(** X16, an instance: node 0 is handed the vector [[1, 0, 1]] in its
    own name; its distance to itself becomes 1. *)
Lemma update_from_itself_witness :
  exists s',
    update 3 0 cost3 (Packet.make 0 0 4)
      (state_of (new_list [Int 1; Int 0; Int 1] (constructed 3 0 cost3 start)))
    = Ok tt s' /\
    dist_table s' !! 0 =
    Some (length (heap (state_of (new_list [Int 1; Int 0; Int 1]
                                    (constructed 3 0 cost3 start))))) /\
    table s' 0 0 = default inf ([Int 1; Int 0; Int 1] !! 0).
Proof.
  apply (update_from_itself 3 0 cost3 (Packet.make 0 0 4) _ [Int 1; Int 0; Int 1]
           node0_before_wf cost3_shape).
  - reflexivity.
  - reflexivity.
  - reflexivity.
  - vm_compute. discriminate.
Defined.

(** X17, an instance: node 0 of the two-node network is handed a
    vector of one cost in the name of node 1. *)
Lemma update_short_vector_raises_witness :
  exists s',
    update 2 0 cost2 (Packet.make 1 0 3)
      (state_of (new_list [Int 1] (constructed 2 0 cost2 start)))
    = IndexError s' /\
    row s' 1 = Some [Int 1] /\
    link_layer s' =
    link_layer (state_of (new_list [Int 1] (constructed 2 0 cost2 start))).
Proof.
  apply (update_short_vector_raises 2 0 cost2 (Packet.make 1 0 3)
           (state_of (new_list [Int 1] (constructed 2 0 cost2 start)))
           1 [Int 1] 1
           (alloc_wf 2 0 _ _ (constructed_wf 2 0 cost2 start cost2_shape
                                ltac:(lia)))).
  - reflexivity.
  - lia.
  - reflexivity.
  - simpl. lia.
  - lia.
  - lia.
Defined.

(** X18, an instance: node 0 of the three-node network receives the
    vectors [[1, 0, 1]] of node 1 and [[5, 1, 0]] of node 2. *)
Lemma update_order_independent_witness :
  exists s1 s12 s2 s21,
    update 3 0 cost3 (Packet.make 1 0 4)
      (state_of (new_list [Int 5; Int 1; Int 0]
         (state_of (new_list [Int 1; Int 0; Int 1]
                      (constructed 3 0 cost3 start))))) = Ok tt s1 /\
    update 3 0 cost3 (Packet.make 2 0 5) s1 = Ok tt s12 /\
    update 3 0 cost3 (Packet.make 2 0 5)
      (state_of (new_list [Int 5; Int 1; Int 0]
         (state_of (new_list [Int 1; Int 0; Int 1]
                      (constructed 3 0 cost3 start))))) = Ok tt s2 /\
    update 3 0 cost3 (Packet.make 1 0 4) s2 = Ok tt s21 /\
    forall a b, table s12 a b = table s21 a b.
Proof.
  apply (update_order_independent 3 0 cost3 (Packet.make 1 0 4) (Packet.make 2 0 5)
           _ 1 2 [Int 1; Int 0; Int 1] [Int 5; Int 1; Int 0]
           node0_two_vectors_wf cost3_shape).
  - reflexivity.
  - reflexivity.
  - lia.
  - lia.
  - lia.
  - reflexivity.
  - reflexivity.
  - reflexivity.
  - reflexivity.
  - vm_compute. discriminate.
  - vm_compute. discriminate.
Defined.
